(** * pghoard: base-backup listing, preservation requests and scheduling

    A shallow embedding of [pghoard/object_store.py] together with the parts
    of the base-backup subsystem that the tests under [test/] exercise.
    Python values are modelled as they are used: strings as [string],
    integers as [Z], dictionaries as finite maps ([gmap]) or, where the
    insertion order is observable, association lists; exceptions as an
    explicit outcome type; mutable objects as entries of a heap. *)

From Stdlib Require Import ZArith QArith Qround Lia List Ascii String DecimalString.
From Stdlib Require Import Sorting.Permutation Sorting.Sorted.
From stdpp Require Import base gmap strings list fin_maps.

Set Warnings "-register-all".

Local Open Scope Z_scope.

(** * Python strings *)

Module PyStr.

Definition startswith (p s : string) : bool := String.prefix p s.

Fixpoint last_char (s : string) : option ascii :=
  match s with
  | EmptyString => None
  | String c EmptyString => Some c
  | String _ r => last_char r
  end.

(** [s.endswith(c)] for a one-character suffix. *)
Definition endswith_char (c : ascii) (s : string) : bool :=
  match last_char s with
  | Some d => if decide (c = d) then true else false
  | None => false
  end.

(** [s.split(sep)] for a one-character separator: never returns the
    empty list, keeps empty fields. *)
Fixpoint split_go (sep : ascii) (cur : string) (s : string) : list string :=
  match s with
  | EmptyString => [String.rev cur]
  | String c r =>
      if decide (c = sep) then String.rev cur :: split_go sep "" r
      else split_go sep (String c cur) r
  end.
Definition split (sep : ascii) (s : string) : list string := split_go sep "" s.

Fixpoint replicate_char (n : nat) (c : ascii) : string :=
  match n with
  | O => ""
  | S k => String c (replicate_char k c)
  end.

(** [s.rjust(w, c)] and [s.ljust(w, c)]: pad, never truncate. *)
Definition rjust (w : nat) (c : ascii) (s : string) : string :=
  replicate_char (w - String.length s) c +:+ s.
Definition ljust (w : nat) (c : ascii) (s : string) : string :=
  s +:+ replicate_char (w - String.length s) c.

(** [s[:n]] *)
Fixpoint take (n : nat) (s : string) : string :=
  match n, s with
  | S k, String c r => String c (take k r)
  | _, _ => ""
  end.

(** [s[n:]] *)
Fixpoint drop (n : nat) (s : string) : string :=
  match n, s with
  | S k, String _ r => drop k r
  | _, _ => s
  end.

(** [sub in s] *)
Fixpoint contains (sub s : string) : bool :=
  String.prefix sub s ||
  match s with
  | EmptyString => false
  | String _ r => contains sub r
  end.

(** [str(n)] for an integer. *)
Definition of_Z (n : Z) : string := NilZero.string_of_int (Z.to_int n).

(** ["%0wd" % n] *)
Definition fmt_0d (w : nat) (n : Z) : string :=
  if n <? 0 then String "-" (rjust (w - 1) "0" (of_Z (- n)))
  else rjust w "0" (of_Z n).

(** [sep.join(l)] *)
Fixpoint join (sep : string) (l : list string) : string :=
  match l with
  | [] => ""
  | [x] => x
  | x :: r => x +:+ sep +:+ join sep r
  end.

End PyStr.

(** * [datetime] *)

Module Datetime.

(** A [datetime.datetime].  [tzinfo] is [None] for a naive value and
    [Some off] for a fixed-offset [datetime.timezone], where [off] is the
    UTC offset in microseconds. *)
Record datetime := mk {
  year : Z; month : Z; day : Z;
  hour : Z; minute : Z; second : Z; microsecond : Z;
  tzinfo : option Z
}.

Definition utc : option Z := Some 0.

Definition format_time (hh mm ss us : Z) : string :=
  let hms := PyStr.fmt_0d 2 hh +:+ ":" +:+ PyStr.fmt_0d 2 mm +:+ ":" +:+ PyStr.fmt_0d 2 ss in
  if us =? 0 then hms else hms +:+ "." +:+ PyStr.fmt_0d 6 us.

Definition us_per_second : Z := 1000000.
Definition us_per_minute : Z := 60 * us_per_second.
Definition us_per_hour : Z := 60 * us_per_minute.

Definition format_offset (tz : option Z) : string :=
  match tz with
  | None => ""
  | Some off =>
      let sign := if off <? 0 then "-" else "+" in
      let a := Z.abs off in
      let hh := a / us_per_hour in
      let r := a mod us_per_hour in
      let mm := r / us_per_minute in
      let ss := r mod us_per_minute in
      let hm := sign +:+ PyStr.fmt_0d 2 hh +:+ ":" +:+ PyStr.fmt_0d 2 mm in
      if ss =? 0 then hm
      else
        let hms := hm +:+ ":" +:+ PyStr.fmt_0d 2 (ss / us_per_second) in
        if ss mod us_per_second =? 0 then hms
        else hms +:+ "." +:+ PyStr.fmt_0d 6 (ss mod us_per_second)
  end.

Definition format_date (y m d : Z) : string :=
  PyStr.fmt_0d 4 y +:+ "-" +:+ PyStr.fmt_0d 2 m +:+ "-" +:+ PyStr.fmt_0d 2 d.

(** [dt.isoformat(sep)] *)
Definition isoformat_sep (sep : ascii) (dt : datetime) : string :=
  format_date (year dt) (month dt) (day dt)
  +:+ String sep (format_time (hour dt) (minute dt) (second dt) (microsecond dt))
  +:+ format_offset (tzinfo dt).

Definition isoformat : datetime → string := isoformat_sep "T".

(** [str(dt)] is [dt.isoformat(sep=' ')]. *)
Definition str : datetime → string := isoformat_sep " ".

(** ** Calendar arithmetic, after CPython's [_ymd2ord] and [_ord2ymd] *)

Definition is_leap (y : Z) : bool :=
  (y mod 4 =? 0) && (negb (y mod 100 =? 0) || (y mod 400 =? 0)).

Definition days_before_year (y : Z) : Z :=
  let p := y - 1 in p * 365 + p / 4 - p / 100 + p / 400.

Definition DAYS_IN_MONTH (m : Z) : Z :=
  match m with
  | 1 => 31 | 2 => 28 | 3 => 31 | 4 => 30 | 5 => 31 | 6 => 30
  | 7 => 31 | 8 => 31 | 9 => 30 | 10 => 31 | 11 => 30 | 12 => 31
  | _ => -1
  end.

Definition DAYS_BEFORE_MONTH (m : Z) : Z :=
  match m with
  | 1 => 0 | 2 => 31 | 3 => 59 | 4 => 90 | 5 => 120 | 6 => 151
  | 7 => 181 | 8 => 212 | 9 => 243 | 10 => 273 | 11 => 304 | 12 => 334
  | _ => -1
  end.

Definition days_in_month (y m : Z) : Z :=
  if (m =? 2) && is_leap y then 29 else DAYS_IN_MONTH m.

Definition days_before_month (y m : Z) : Z :=
  DAYS_BEFORE_MONTH m + (if (2 <? m) && is_leap y then 1 else 0).

Definition ymd2ord (y m d : Z) : Z :=
  days_before_year y + days_before_month y m + d.

Definition DI400Y : Z := 146097.
Definition DI100Y : Z := 36524.
Definition DI4Y : Z := 1461.

Definition ord2ymd (n0 : Z) : Z * Z * Z :=
  let n := n0 - 1 in
  let n400 := n / DI400Y in
  let n := n mod DI400Y in
  let y := n400 * 400 + 1 in
  let n100 := n / DI100Y in
  let n := n mod DI100Y in
  let n4 := n / DI4Y in
  let n := n mod DI4Y in
  let n1 := n / 365 in
  let n := n mod 365 in
  let y := y + n100 * 100 + n4 * 4 + n1 in
  if (n1 =? 4) || (n100 =? 4) then (y - 1, 12, 31)
  else
    let leapyear := (n1 =? 3) && (negb (n4 =? 24) || (n100 =? 3)) in
    let m := Z.shiftr (n + 50) 5 in
    let preceding := DAYS_BEFORE_MONTH m + (if (2 <? m) && leapyear then 1 else 0) in
    if n <? preceding then
      let m' := m - 1 in
      let preceding' :=
        preceding - (DAYS_IN_MONTH m' + (if (m' =? 2) && leapyear then 1 else 0)) in
      (y, m', n - preceding' + 1)
    else (y, m, n - preceding + 1).

Definition us_per_day : Z := 24 * us_per_hour.

(** Microseconds between 0001-01-01T00:00:00 and the wall-clock reading
    of [dt] (the offset is not applied). *)
Definition wall_us (dt : datetime) : Z :=
  (ymd2ord (year dt) (month dt) (day dt) - 1) * us_per_day
  + hour dt * us_per_hour + minute dt * us_per_minute
  + second dt * us_per_second + microsecond dt.

Definition MINYEAR : Z := 1.
Definition MAXYEAR : Z := 9999.

(** The datetime whose wall clock reads [t]; [None] stands for
    [OverflowError] (year out of range). *)
Definition of_wall_us (t : Z) (tz : option Z) : option datetime :=
  let '(y, m, d) := ord2ymd (t / us_per_day + 1) in
  let r := t mod us_per_day in
  if (MINYEAR <=? y) && (y <=? MAXYEAR) then
    Some (mk y m d (r / us_per_hour) (r mod us_per_hour / us_per_minute)
            (r mod us_per_minute / us_per_second) (r mod us_per_second) tz)
  else None.


(** [dt.astimezone(datetime.timezone.utc)] for an aware [dt]. *)
Definition astimezone_utc (dt : datetime) (off : Z) : option datetime :=
  of_wall_us (wall_us dt - off) utc.

(** [dt.replace(tzinfo=None)] *)
Definition replace_tzinfo_None (dt : datetime) : datetime :=
  mk (year dt) (month dt) (day dt) (hour dt) (minute dt) (second dt)
     (microsecond dt) None.

End Datetime.

(** * Exceptions and outcomes *)

Inductive exn : Type :=
  | KeyError (key : string)
  | TypeError (msg : string)
  | ValueError (msg : string)
  | OverflowError
  | PermissionError (path : string)
  | FileNotFoundFromStorageError (key : string)
  | StorageError (msg : string)
  | AttributeError (attr : string)
  | IndexError
  | ConnectionError (url : string)
  | UnboundLocalError (var : string)
  | KeyboardInterrupt
  | SystemExit.

(** [isinstance(e, Exception)]: everything above except the two
    [BaseException]-only signals. *)
Definition is_Exception (e : exn) : bool :=
  match e with
  | KeyboardInterrupt | SystemExit => false
  | _ => true
  end.

Inductive outcome (A : Type) : Type :=
  | Return (a : A)
  | Raise (e : exn).
Arguments Return {A} a.
Arguments Raise {A} e.

Global Instance exn_eq_dec : EqDecision exn.
Proof. solve_decision. Defined.
Global Instance outcome_eq_dec {A} `{EqDecision A} : EqDecision (outcome A).
Proof. solve_decision. Defined.

Definition outcome_bind {A B} (f : A → outcome B) (o : outcome A) : outcome B :=
  match o with
  | Return a => f a
  | Raise e => Raise e
  end.

Global Instance outcome_ret : MRet outcome := λ A a, Return a.
Global Instance outcome_mbind : MBind outcome := λ A B f o, outcome_bind f o.

(** Computations that thread a world [W] and may raise. *)
Definition M (W A : Type) : Type := W → W * outcome A.

Definition M_bind {W A B} (f : A → M W B) (m : M W A) : M W B :=
  λ w, match m w with
       | (w', Return a) => f a w'
       | (w', Raise e) => (w', Raise e)
       end.

Definition ret {W A} (a : A) : M W A := λ w, (w, Return a).

Definition bind {W A B} (m : M W A) (f : A → M W B) : M W B := M_bind f m.

Notation "x <- m ;; k" := (bind m (λ x, k))
  (at level 100, m at next level, right associativity,
   format "x  <-  m  ;;  '/' k").

(** [try: body except Exception: handler] *)
Definition try_except_Exception {W A} (body : M W A) (handler : exn → M W A) : M W A :=
  λ w, match body w with
       | (w', Raise e) => if is_Exception e then handler e w' else (w', Raise e)
       | r => r
       end.

(** * [os.path.join] and [pathlib.Path.name] *)

Definition join2 (path b : string) : string :=
  if PyStr.startswith "/" b then b
  else if bool_decide (path = "") || PyStr.endswith_char "/" path then path +:+ b
  else path +:+ "/" +:+ b.

(** [os.path.join(a, *p)] *)
Definition os_path_join (a : string) (p : list string) : string := foldl join2 a p.

(** The components of a pure POSIX path: empty and ["."] components are dropped. *)
Definition Path_parts (n : string) : list string :=
  filter (λ c, c ≠ "" ∧ c ≠ ".") (PyStr.split "/" n).

(** [Path(n).name] *)
Definition Path_name (n : string) : string := List.last (Path_parts n) "".

(** * The object-storage driver *)

Definition bytes := list Byte.byte.

(** One entry of [storage.list_path]. *)
Record list_entry := {
  entry_name : string;
  entry_size : Z;
  entry_metadata : gmap string string
}.

(** The operations of rohmu's [BaseTransfer] that the object store uses.
    Every operation may change the store and may raise. *)
Class BaseTransfer (S : Type) := {
  store_file_from_memory : string → bytes → gmap string string → M S ();
  delete_key : string → M S ();
  list_path : string → M S (list list_entry)
}.

(** Modelled from the spec: the object-store gateway of section 4.A
    ([put_empty], [delete], [list] with [deep=false]) as a local directory
    tree, which is what the tests run against.  [accessible] is the
    permission bit of the storage directory that the tests clear with
    [chmod(0o000)]. *)
Module LocalTransfer.

Record t := mk {
  blobs : gmap string (bytes * gmap string string);
  accessible : bool
}.

Definition dirname (k : string) : string :=
  PyStr.join "/" (removelast (PyStr.split "/" k)).

Definition store (key : string) (data : bytes) (md : gmap string string) : M t () :=
  λ s, if accessible s
       then (mk (<[key := (data, md)]> (blobs s)) true, Return ())
       else (s, Raise (PermissionError key)).

Definition delete (key : string) : M t () :=
  λ s, if accessible s
       then match blobs s !! key with
            | Some _ => (mk (delete key (blobs s)) true, Return ())
            | None => (s, Raise (FileNotFoundFromStorageError key))
            end
       else (s, Raise (PermissionError key)).

Definition to_entry (kv : string * (bytes * gmap string string)) : list_entry :=
  {| entry_name := kv.1; entry_size := Z.of_nat (length kv.2.1); entry_metadata := kv.2.2 |}.

Definition list (path : string) : M t (list list_entry) :=
  λ s, if accessible s
       then (s, Return (to_entry <$>
               filter (λ kv, dirname kv.1 = path) (map_to_list (blobs s))))
       else (s, Raise (PermissionError path)).

Global Instance transfer : BaseTransfer t := {|
  store_file_from_memory := store;
  delete_key := delete;
  list_path := list
|}.

Definition empty : t := mk ∅ true.

End LocalTransfer.

(** * [BaseBackupInfo] and [BaseBackupInfoFromBucket] *)

(** Addresses of mutable Python objects. *)
Definition loc := nat.

(** A [BaseBackupInfo].  The module assigns its attributes in [__init__]
    only, so the object is given by their values; [data] is the address of
    the dictionary, which the object shares with whoever made it. *)
Record BaseBackupInfo := {
  name : string;
  site : string;
  data : loc
}.

Record BaseBackupInfoFromBucket := {
  info :> BaseBackupInfo;
  prefix : string
}.

(** What a method of [BaseBackupInfoFromBucket] can reach: the storage
    driver behind [self.storage] and the records written to [self.log]. *)
Record world (S : Type) := {
  storage : S;
  log : list (string * exn)
}.
Arguments storage {S} w.
Arguments log {S} w.

Section Preservation.
Context {S : Type} `{!BaseTransfer S}.

(** Run a driver operation on [self.storage]. *)
Definition on_storage {A} (op : M S A) : M (world S) A :=
  λ w, let '(s', r) := op (storage w) in
       ({| storage := s'; log := log w |}, r).

(** [self.log.exception(msg)] inside an [except] block handling [e]. *)
Definition log_exception (msg : string) (e : exn) : M (world S) () :=
  λ w, ({| storage := storage w; log := log w ++ [(msg, e)] |}, Return ()).

Definition preservation_metadata (backup_name : string)
    (preserve_until : Datetime.datetime) : gmap string string :=
  {[ "preserve-backup" := backup_name;
     "preserve-until" := Datetime.str preserve_until ]}.

Definition request_backup_preservation (self : BaseBackupInfoFromBucket)
    (preserve_until : Datetime.datetime) : M (world S) string :=
  let backup_name := Path_name (name self) in
  let request_name := backup_name +:+ "_" +:+ Datetime.str preserve_until in
  let request_path := os_path_join (prefix self) ["preservation_request"; request_name] in
  _ <- on_storage (store_file_from_memory request_path []
                    (preservation_metadata backup_name preserve_until)) ;;
  ret request_name.

Definition cancel_backup_preservation (self : BaseBackupInfoFromBucket)
    (request_name : string) : M (world S) () :=
  let request_path := os_path_join (prefix self) ["preservation_request"; request_name] in
  on_storage (delete_key request_path).

Definition try_request_backup_preservation (self : BaseBackupInfoFromBucket)
    (preserve_until : Datetime.datetime) : M (world S) (option string) :=
  try_except_Exception
    (r <- request_backup_preservation self preserve_until ;; ret (Some r))
    (λ e, _ <- log_exception "Could not request backup preservation" e ;; ret None).

Definition try_cancel_backup_preservation (self : BaseBackupInfoFromBucket)
    (request_name : string) : M (world S) () :=
  try_except_Exception
    (cancel_backup_preservation self request_name)
    (λ e, log_exception "Could not cancel backup preservation" e).

End Preservation.

(** The key under which a preservation request for [leaf] lives below the
    site prefix [p], written out: [os.path.join] puts no separator after an
    empty prefix or after one that already ends in a slash. *)
Definition request_key (p leaf : string) : string :=
  (if bool_decide (p = "") || PyStr.endswith_char "/" p then p else p +:+ "/")
  +:+ "preservation_request/" +:+ leaf.

(** The key as the specification writes it: prefix, a slash, the
    directory, a slash, the leaf. *)
Definition claimed_request_key (p leaf : string) : string :=
  p +:+ "/preservation_request/" +:+ leaf.

(** The backup and the deadline of the preservation tests. *)
Definition test_backup (p : string) : BaseBackupInfoFromBucket :=
  {| info := {| name := "2022_12_10"; site := ""; data := 0%nat |}; prefix := p |}.
Definition test_preserve_until : Datetime.datetime :=
  Datetime.mk 2022 12 18 10 20 30 123456 Datetime.utc.
Definition fresh_world : world LocalTransfer.t :=
  {| storage := LocalTransfer.empty; log := [] |}.
Definition locked_world : world LocalTransfer.t :=
  {| storage := LocalTransfer.mk ∅ false; log := [] |}.

(** * The heap of mutable Python objects *)

(** Values as the listings carry them.  Dictionaries and lists are objects
    with identity: a value refers to them by address. *)
Inductive value : Type :=
  | VNone
  | VBool (b : bool)
  | VInt (n : Z)
  | VStr (s : string)
  | VDatetime (d : Datetime.datetime)
  | VRef (l : loc).

(** A dictionary keeps its keys in insertion order. *)
Inductive object : Type :=
  | ODict (items : list (string * value))
  | OList (items : list value).

Module Dict.

Fixpoint get (k : string) (d : list (string * value)) : option value :=
  match d with
  | [] => None
  | (k', v) :: r => if decide (k = k') then Some v else get k r
  end.

(** [d[k] = v]: replaces in place, or appends a new key. *)
Fixpoint set (k : string) (v : value) (d : list (string * value)) : list (string * value) :=
  match d with
  | [] => [(k, v)]
  | (k', v') :: r => if decide (k = k') then (k, v) :: r else (k', v') :: set k v r
  end.

Fixpoint remove (k : string) (d : list (string * value)) : list (string * value) :=
  match d with
  | [] => []
  | (k', v) :: r => if decide (k = k') then r else (k', v) :: remove k r
  end.

(** [dict(pairs)] *)
Definition build (kvs : list (string * value)) : list (string * value) :=
  foldl (λ acc kv, set kv.1 kv.2 acc) [] kvs.

(** [d.get(k, default)] *)
Definition get_default (k : string) (default : value) (d : list (string * value)) : value :=
  from_option id default (get k d).

End Dict.

(** What is written by one call of [print]: its positional arguments.  A
    dictionary argument is recorded by its contents at the time of the call. *)
Inductive print_arg : Type :=
  | PStr (s : string)
  | PDict (items : list (string * value)).

(** A decoded JSON document, before it becomes Python objects. *)
Inductive json : Type :=
  | JNull
  | JBool (b : bool)
  | JInt (n : Z)
  | JString (s : string)
  | JArray (items : list json)
  | JObject (fields : list (string * json)).

(** The state that the object store works on: the heap, what has been
    printed, and the URLs requested from the HTTP session so far. *)
Record pworld := {
  heap : gmap loc object;
  stdout : list (list print_arg);
  requests : list string
}.

(** The library functions that the module calls: [rohmu.dates.parse_timestamp],
    the built-in [int] on a string, [repr] of a string, and the HTTP
    server behind [Session.get(url).json()], which answers with a decoded
    document or fails. *)
Class Runtime := {
  parse_timestamp : string → outcome Datetime.datetime;
  int_of_str : string → outcome Z;
  repr_str : string → string;
  http_get_json : string → outcome json
}.

Definition raise {W A} (e : exn) : M W A := λ w, (w, Raise e).
Definition lift {W A} (o : outcome A) : M W A := λ w, (w, o).

Definition print (args : list print_arg) : M pworld () :=
  λ w, ({| heap := heap w; stdout := stdout w ++ [args]; requests := requests w |},
        Return ()).

(** Allocation of a new object at an unused address. *)
Definition new_object (o : object) (w : pworld) : pworld * loc :=
  let l := fresh (dom (heap w)) in
  ({| heap := <[l := o]> (heap w); stdout := stdout w; requests := requests w |}, l).
Definition alloc (o : object) : M pworld loc :=
  λ w, let '(w', l) := new_object o w in (w', Return l).

(** The items of the dictionary at [l]; anything else is not subscriptable
    by a string. *)
Definition load_dict (l : loc) : M pworld (list (string * value)) :=
  λ w, match heap w !! l with
       | Some (ODict d) => (w, Return d)
       | _ => (w, Raise (TypeError "not a dict"))
       end.

Definition store_dict (l : loc) (d : list (string * value)) : M pworld () :=
  λ w, ({| heap := <[l := ODict d]> (heap w); stdout := stdout w;
           requests := requests w |}, Return ()).

(** [d[k]] on the items of a dictionary *)
Definition subscript (d : list (string * value)) (k : string) : outcome value :=
  match Dict.get k d with
  | Some v => Return v
  | None => Raise (KeyError k)
  end.

(** [v.copy()]: a shallow copy of a dictionary or list at a new address. *)
Definition copy (v : value) : M pworld loc :=
  match v with
  | VRef l =>
      λ w, match heap w !! l with
           | Some o => alloc o w
           | None => (w, Raise (AttributeError "copy"))
           end
  | _ => raise (AttributeError "copy")
  end.

(** [meta.pop(k)] on the object at [l]: removes the key from that object. *)
Definition pop (l : loc) (k : string) : M pworld value :=
  λ w, match heap w !! l with
       | Some (ODict d) =>
           match Dict.get k d with
           | Some v => ((store_dict l (Dict.remove k d) w).1, Return v)
           | None => (w, Raise (KeyError k))
           end
       | _ => (w, Raise (TypeError "pop"))
       end.

(** [bool(v)] *)
Definition truthy (v : value) : M pworld bool :=
  match v with
  | VNone => ret false
  | VBool b => ret b
  | VInt n => ret (negb (n =? 0))
  | VStr s => ret (negb (bool_decide (s = "")))
  | VDatetime _ => ret true
  | VRef l =>
      λ w, match heap w !! l with
           | Some (ODict d) => (w, Return (match d with [] => false | _ => true end))
           | Some (OList d) => (w, Return (match d with [] => false | _ => true end))
           | None => (w, Return true)
           end
  end.

(** A map that threads the state from left to right. *)
Fixpoint map_state {W A B} (f : A → W → W * B) (l : list A) (w : W) : W * list B :=
  match l with
  | [] => (w, [])
  | x :: r =>
      let '(w1, y) := f x w in
      let '(w2, ys) := map_state f r w1 in (w2, y :: ys)
  end.

(** [for x in l: body(x)] *)
Fixpoint for_each {W A} (l : list A) (body : A → M W ()) : M W () :=
  match l with
  | [] => ret ()
  | x :: r => (_ <- body x ;; for_each r body)
  end.

(** * [print_basebackup_list] *)

(** [sorted(basebackups, key=lambda b: b.name)]: ascending by name, and
    stable, so entries with equal names keep their input order. *)
Fixpoint insert_by_name (b : BaseBackupInfo) (l : list BaseBackupInfo) : list BaseBackupInfo :=
  match l with
  | [] => [b]
  | x :: r => if String.leb (name b) (name x) then b :: x :: r
              else x :: insert_by_name b r
  end.

Fixpoint sorted_by_name (l : list BaseBackupInfo) : list BaseBackupInfo :=
  match l with
  | [] => []
  | b :: r => insert_by_name b (sorted_by_name r)
  end.

(** ["{name:40}  {size:>11}  {orig_size:>11}  {time:20}".format] *)
Definition fmt (name size orig_size time : string) : string :=
  PyStr.ljust 40 " " name +:+ "  " +:+ PyStr.rjust 11 " " size +:+ "  "
  +:+ PyStr.rjust 11 " " orig_size +:+ "  " +:+ PyStr.ljust 20 " " time.

Definition MB : Z := 1024 ^ 2.

Section Listing.
Context `{!Runtime}.

(** [int(v)] *)
Definition py_int (v : value) : outcome Z :=
  match v with
  | VInt n => Return n
  | VBool b => Return (if b then 1 else 0)
  | VStr s => int_of_str s
  | _ => Raise (TypeError "int")
  end.

(** The body of the loop of [print_basebackup_list]. *)
Definition print_entry (verbose : bool) (basebackup : BaseBackupInfo) : M pworld () :=
  d <- load_dict (data basebackup) ;;
  md <- lift (subscript d "metadata") ;;
  meta <- copy md ;;
  lm <- pop meta "start-time" ;;
  lm <- match lm with
       | VStr s => (t <- lift (parse_timestamp s) ;; ret (VDatetime t))
       | v => ret v
       end ;;
  lm <- match lm with
       | VDatetime t => ret t
       | _ => raise (AttributeError "tzinfo")
       end ;;
  lm <- match Datetime.tzinfo lm with
       | Some off =>
           match Datetime.astimezone_utc lm off with
           | Some u => ret (Datetime.replace_tzinfo_None u)
           | None => raise OverflowError
           end
       | None => ret lm
       end ;;
  let lm_str := PyStr.take 19 (Datetime.isoformat lm) +:+ "Z" in
  d <- load_dict (data basebackup) ;;
  size <- lift (subscript d "size") ;;
  m <- load_dict meta ;;
  enc <- lift (py_int (Dict.get_default "total-size-enc" size m)) ;;
  let size_str := PyStr.of_Z (enc / MB) +:+ " MB" in
  let plain := Dict.get_default "total-size-plain"
                 (Dict.get_default "original-file-size" VNone m) m in
  t <- truthy plain ;;
  orig_size <- lift (py_int (if t then plain else VInt 0)) ;;
  let orig_size_str :=
    if orig_size =? 0 then "n/a" else PyStr.of_Z (orig_size / MB) +:+ " MB" in
  _ <- print [PStr (fmt (name basebackup) size_str orig_size_str lm_str)] ;;
  if verbose then (m <- load_dict meta ;; print [PStr "    metadata:"; PDict m])
  else ret ().

Definition print_header (caption : string) : M pworld () :=
  _ <- print [PStr caption; PStr (String "010" "")] ;;
  _ <- print [PStr (fmt "Basebackup" "Backup size" "Orig size" "Start time")] ;;
  print [PStr (fmt (PyStr.replicate_char 40 "-") (PyStr.replicate_char 11 "-")
                 (PyStr.replicate_char 11 "-") (PyStr.replicate_char 20 "-"))].

Definition print_basebackup_list (basebackups : list BaseBackupInfo)
    (caption : string) (verbose : bool) : M pworld () :=
  _ <- print_header caption ;;
  for_each (sorted_by_name basebackups) (print_entry verbose).

(** * [HTTPRestore] *)

Record HTTPRestore := {
  host : string;
  port : string;
  sites : list string
}.

(** [self._url(path, site)] *)
Definition _url (self : HTTPRestore) (path site : string) : string :=
  "http://" +:+ host self +:+ ":" +:+ port self +:+ "/" +:+ site +:+ "/" +:+ path.

(** [self.session.get(url).json()]: the request is issued, then the
    answer is decoded. *)
Definition session_get_json (url : string) : M pworld json :=
  λ w, ({| heap := heap w; stdout := stdout w; requests := requests w ++ [url] |},
        http_get_json url).

(** The Python objects of a decoded document: children first, then the
    container, each at a new address.  A key that occurs twice in an object
    keeps its first position and its last value, as in [dict(pairs)]. *)
Fixpoint materialize (j : json) (w : pworld) {struct j} : pworld * value :=
  match j with
  | JNull => (w, VNone)
  | JBool b => (w, VBool b)
  | JInt n => (w, VInt n)
  | JString s => (w, VStr s)
  | JArray items =>
      let '(w1, vs) := map_state materialize items w in
      let '(w2, l) := new_object (OList vs) w1 in (w2, VRef l)
  | JObject fields =>
      let '(w1, vs) := map_state (λ kv, let '(_, j) := kv in materialize j) fields w in
      let '(w2, l) := new_object (ODict (Dict.build (zip fields.*1 vs))) w1 in
      (w2, VRef l)
  end.

(** [v[k]] for a string key. *)
Definition subscript_value (v : value) (k : string) : M pworld value :=
  match v with
  | VRef l => (d <- load_dict l ;; lift (subscript d k))
  | _ => raise (TypeError "subscript")
  end.

(** The elements that [for x in v] visits. *)
Definition iterate (v : value) : M pworld (list value) :=
  match v with
  | VRef l =>
      λ w, match heap w !! l with
           | Some (OList items) => (w, Return items)
           | Some (ODict d) => (w, Return ((λ kv, VStr kv.1) <$> d))
           | None => (w, Raise (TypeError "iter"))
           end
  | VStr s => ret ((λ c, VStr (String c "")) <$> list_ascii_of_string s)
  | _ => raise (TypeError "iter")
  end.

(** [BaseBackupInfo(name=basebackup["name"], data=basebackup, site=site)].
    The fields have their declared types: a name that is not a string or
    data that is not a dictionary is reported as a [TypeError]. *)
Definition make_info (site : string) (basebackup : value) : M pworld BaseBackupInfo :=
  n <- subscript_value basebackup "name" ;;
  match n, basebackup with
  | VStr n, VRef l => ret {| name := n; site := site; data := l |}
  | _, _ => raise (TypeError "BaseBackupInfo")
  end.

Fixpoint collect {A B} (f : A → M pworld B) (l : list A) : M pworld (list B) :=
  match l with
  | [] => ret []
  | x :: r => (y <- f x ;; ys <- collect f r ;; ret (y :: ys))
  end.

(** The body of the outer loop of [HTTPRestore.list_basebackups]: the
    entries of one site. *)
Definition list_site_basebackups (self : HTTPRestore) (site : string)
    : M pworld (list BaseBackupInfo) :=
  response <- session_get_json (_url self "basebackup" site) ;;
  doc <- (λ w, let '(w', v) := materialize response w in (w', Return v)) ;;
  bbs <- subscript_value doc "basebackups" ;;
  items <- iterate bbs ;;
  collect (make_info site) items.

Definition list_basebackups (self : HTTPRestore) : M pworld (list BaseBackupInfo) :=
  per_site <- collect (list_site_basebackups self) (sites self) ;;
  ret (concat per_site).

(** An [ObjectStore]: its sites and its implementation of the abstract
    method [list_basebackups]. *)
Record ObjectStore := {
  store_sites : list string;
  store_list_basebackups : M pworld (list BaseBackupInfo)
}.

Definition HTTPRestore_store (self : HTTPRestore) : ObjectStore :=
  {| store_sites := sites self; store_list_basebackups := list_basebackups self |}.

(** [ObjectStore.show_basebackup_list] *)
Definition show_basebackup_list (self : ObjectStore) (verbose : bool) : M pworld () :=
  result <- store_list_basebackups self ;;
  match store_sites self with
  | [] => raise IndexError
  | site0 :: _ =>
      let caption := "Available " +:+ repr_str site0 +:+ " basebackups:" in
      print_basebackup_list result caption verbose
  end.

End Listing.

(** * Assertions about computations on the object-store state *)

(** [hoare P m Q E]: started in a state satisfying [P], the computation [m]
    ends in a state satisfying [Q a] when it returns [a] and [E] when it
    raises. *)
Definition hoare {A} (P : pworld → Prop) (m : M pworld A)
    (Q : A → pworld → Prop) (E : pworld → Prop) : Prop :=
  ∀ w, P w → match m w with
             | (w', Return a) => Q a w'
             | (w', Raise _) => E w'
             end.

(** A computation that leaves the state as it found it. *)
Definition stable {A} (m : M pworld A) : Prop := ∀ w, (m w).1 = w.

(** Every object of [h0] is still in the heap, unchanged. *)
Definition frame (h0 : gmap loc object) (w : pworld) : Prop :=
  ∀ l o, h0 !! l = Some o → heap w !! l = Some o.

(** So far [o] has been printed. *)
Definition printed (o : list (list print_arg)) (w : pworld) : Prop := stdout w = o.

(** * A concrete runtime for the examples *)

Module Parse.

Definition digit (c : ascii) : option Z :=
  let n := Z.of_nat (nat_of_ascii c) in
  if (48 <=? n) && (n <=? 57) then Some (n - 48) else None.

Fixpoint digits_go (acc : Z) (s : string) : option Z :=
  match s with
  | EmptyString => Some acc
  | String c r =>
      match digit c with
      | Some d => digits_go (acc * 10 + d) r
      | None => None
      end
  end.

(** A non-empty run of decimal digits. *)
Definition digits (s : string) : option Z :=
  match s with
  | EmptyString => None
  | _ => digits_go 0 s
  end.

(** [s[i:i+n]] *)
Definition slice (i n : nat) (s : string) : string := PyStr.take n (PyStr.drop i s).

(** A UTC offset in microseconds: nothing (taken as UTC), [Z], [GMT],
    [UTC] or [+HH:MM] / [-HH:MM]. *)
Definition tz_offset (s : string) : option Z :=
  if bool_decide (s = "") || bool_decide (s = "Z") || bool_decide (s = " GMT")
     || bool_decide (s = " UTC") || bool_decide (s = "+00:00") then Some 0
  else
    match s with
    | String sign r =>
        match digits (slice 0 2 r), digits (slice 3 2 r) with
        | Some hh, Some mm =>
            let off := hh * Datetime.us_per_hour + mm * Datetime.us_per_minute in
            if negb (bool_decide (slice 2 1 r = ":")) || negb (Nat.eqb (String.length r) 5)
            then None
            else if bool_decide (sign = "+"%char) then Some off
            else if bool_decide (sign = "-"%char) then Some (- off)
            else None
        | _, _ => None
        end
    | EmptyString => None
    end.

(** Timestamps of the shape [YYYY-MM-DD HH:MM:SS] (or with [T]), an optional
    six-digit fraction, and a zone as in [tz_offset]; a timestamp without a
    zone is taken as UTC, as [parse_timestamp] does by default. *)
Definition timestamp (ts : string) : outcome Datetime.datetime :=
  let bad := Raise (ValueError ts) in
  let sep := slice 10 1 ts in
  if negb (bool_decide (slice 4 1 ts = "-")) || negb (bool_decide (slice 7 1 ts = "-"))
     || negb (bool_decide (sep = " ") || bool_decide (sep = "T"))
     || negb (bool_decide (slice 13 1 ts = ":")) || negb (bool_decide (slice 16 1 ts = ":"))
  then bad
  else
    match digits (slice 0 4 ts), digits (slice 5 2 ts), digits (slice 8 2 ts),
          digits (slice 11 2 ts), digits (slice 14 2 ts), digits (slice 17 2 ts) with
    | Some y, Some m, Some d, Some hh, Some mm, Some ss =>
        let rest := PyStr.drop 19 ts in
        let '(us, rest) :=
          if bool_decide (slice 0 1 rest = ".")
          then (digits (slice 1 6 rest), PyStr.drop 7 rest)
          else (Some 0, rest) in
        match us, tz_offset rest with
        | Some us, Some off =>
            if (1 <=? y) && (y <=? 9999) && (1 <=? m) && (m <=? 12) && (1 <=? d)
               && (d <=? Datetime.days_in_month y m) && (hh <? 24) && (mm <? 60)
               && (ss <? 60)
            then Return (Datetime.mk y m d hh mm ss us (Some off))
            else bad
        | _, _ => bad
        end
    | _, _, _, _, _, _ => bad
    end.

(** [int(s)] for an optional sign followed by decimal digits. *)
Definition int (s : string) : outcome Z :=
  match s with
  | String "-" r => match digits r with Some n => Return (- n) | None => Raise (ValueError s) end
  | String "+" r => match digits r with Some n => Return n | None => Raise (ValueError s) end
  | _ => match digits s with Some n => Return n | None => Raise (ValueError s) end
  end.

End Parse.

(** A runtime whose HTTP server answers as [server] says. *)
Definition runtime_with (server : string → outcome json) : Runtime := {|
  parse_timestamp := Parse.timestamp;
  int_of_str := Parse.int;
  repr_str := λ s, "'" +:+ s +:+ "'";
  http_get_json := server
|}.

Definition offline : Runtime := runtime_with (λ url, Raise (ConnectionError url)).

(** * Listings used in the examples *)

(** Two backups that share the name ["a"] and differ in their start time. *)
Definition twins_heap : gmap loc object :=
  {[ 0%nat := ODict [("name", VStr "a"); ("size", VInt 3145728); ("metadata", VRef 2%nat)];
     1%nat := ODict [("name", VStr "a"); ("size", VInt 1048576); ("metadata", VRef 3%nat)];
     2%nat := ODict [("start-time", VStr "2022-12-10T09:00:00+02:00");
                     ("total-size-plain", VStr "5242880")];
     3%nat := ODict [("start-time", VDatetime (Datetime.mk 2022 12 11 8 0 0 0 None))] ]}.
Definition twin1 : BaseBackupInfo := {| name := "a"; site := "s"; data := 0%nat |}.
Definition twin2 : BaseBackupInfo := {| name := "a"; site := "s"; data := 1%nat |}.
Definition twins_world : pworld :=
  {| heap := twins_heap; stdout := []; requests := [] |}.

(** The order that the listing is printed in. *)
Definition name_le (a b : BaseBackupInfo) : Prop := (name a ≤ name b)%string.

(** What one entry contributes to the listing: its row, which starts with
    its name, and with [verbose] the line of remaining metadata. *)
Definition entry_output (verbose : bool) (b : BaseBackupInfo)
    (out : list (list print_arg)) : Prop :=
  ∃ size orig_size time meta,
    out = [PStr (fmt (name b) size orig_size time)]
          :: (if verbose then [[PStr "    metadata:"; PDict meta]] else []).

(** The three lines above the rows. *)
Definition header_output (caption : string) : list (list print_arg) :=
  [ [PStr caption; PStr (String "010" "")];
    [PStr (fmt "Basebackup" "Backup size" "Orig size" "Start time")];
    [PStr (fmt (PyStr.replicate_char 40 "-") (PyStr.replicate_char 11 "-")
             (PyStr.replicate_char 11 "-") (PyStr.replicate_char 20 "-"))] ].

(** The same two dictionaries listed under different names. *)
Definition entry_a : BaseBackupInfo := {| name := "2022-12-10_0"; site := "s"; data := 0%nat |}.
Definition entry_b : BaseBackupInfo := {| name := "2022-12-11_0"; site := "s"; data := 1%nat |}.

(** * Decoded documents and the objects that stand for them *)

(** The member [k] of a JSON object: the last one, if the key is repeated. *)
Definition json_get (k : string) (fields : list (string * json)) : option json :=
  foldl (λ acc kv, if decide (k = kv.1) then Some kv.2 else acc) None fields.

(** [represents h v j]: in the heap [h] the value [v] is the Python form
    of the document [j]. *)
Inductive represents (h : gmap loc object) : value → json → Prop :=
  | rep_null : represents h VNone JNull
  | rep_bool b : represents h (VBool b) (JBool b)
  | rep_int n : represents h (VInt n) (JInt n)
  | rep_string s : represents h (VStr s) (JString s)
  | rep_array l vs items :
      h !! l = Some (OList vs) →
      Forall2 (represents h) vs items →
      represents h (VRef l) (JArray items)
  | rep_object l vs fields :
      h !! l = Some (ODict (Dict.build (zip fields.*1 vs))) →
      Forall2 (represents h) vs fields.*2 →
      represents h (VRef l) (JObject fields).

(** What [materialize] guarantees for one document. *)
Definition materialized (j : json) : Prop :=
  ∀ w, represents (heap (materialize j w).1) (materialize j w).2 j
       ∧ frame (heap w) (materialize j w).1
       ∧ stdout (materialize j w).1 = stdout w
       ∧ requests (materialize j w).1 = requests w.

(** The name and the document of one element of a listing. *)
Definition named_element (e : json) : option (string * json) :=
  match e with
  | JObject fields =>
      match json_get "name" fields with
      | Some (JString n) => Some (n, e)
      | _ => None
      end
  | _ => None
  end.

Fixpoint named_elements (es : list json) : option (list (string * json)) :=
  match es with
  | [] => Some []
  | e :: r =>
      match named_element e, named_elements r with
      | Some x, Some xs => Some (x :: xs)
      | _, _ => None
      end
  end.

(** The elements of the ["basebackups"] array of a well-formed answer. *)
Definition listing_of (doc : json) : option (list (string * json)) :=
  match doc with
  | JObject fields =>
      match json_get "basebackups" fields with
      | Some (JArray es) => named_elements es
      | _ => None
      end
  | _ => None
  end.

(** What a run over [sites] is expected to list when every site answers
    with a well-formed document: site, name and element, in site order. *)
Fixpoint expected_listing `{!Runtime} (self : HTTPRestore) (sites : list string)
    : option (list (string * (string * json))) :=
  match sites with
  | [] => Some []
  | s :: r =>
      match http_get_json (_url self "basebackup" s) with
      | Return doc =>
          match listing_of doc, expected_listing self r with
          | Some es, Some rest => Some (((λ x, (s, x)) <$> es) ++ rest)
          | _, _ => None
          end
      | Raise _ => None
      end
  end.

(** The entry [b] lists the element [x] of site [x.1]. *)
Definition lists_element (h : gmap loc object) (b : BaseBackupInfo)
    (x : string * (string * json)) : Prop :=
  site b = x.1 ∧ name b = x.2.1 ∧ represents h (VRef (data b)) x.2.2.

(** A server with two sites. *)
Definition two_sites (url : string) : outcome json :=
  if bool_decide (url = "http://localhost:16000/alpha/basebackup") then
    Return (JObject [("basebackups",
      JArray [JObject [("name", JString "2022-12-10_0"); ("size", JInt 3145728);
                       ("metadata", JObject [("start-time", JString "2022-12-10T09:00:00+02:00")])];
              JObject [("name", JString "2022-12-09_0"); ("size", JInt 1048576);
                       ("metadata", JObject [("start-time", JString "2022-12-09T09:00:00Z")])]])])
  else if bool_decide (url = "http://localhost:16000/beta/basebackup") then
    Return (JObject [("basebackups",
      JArray [JObject [("name", JString "2022-12-11_0"); ("size", JInt 0);
                       ("metadata", JObject [("start-time", JString "2022-12-11T09:00:00Z")])]])])
  else Raise (ConnectionError url).

Definition two_sites_restore : HTTPRestore :=
  {| host := "localhost"; port := "16000"; sites := ["alpha"; "beta"] |}.
Definition empty_world : pworld := {| heap := ∅; stdout := []; requests := [] |}.

(** * Delta hashes of earlier backups *)

Module Delta.

(** The [format] field of a backup entry (section 3 of the specification). *)
Inductive BaseBackupFormat : Type := v1 | v2 | delta_v1 | delta_v2.

Global Instance BaseBackupFormat_eq_dec : EqDecision BaseBackupFormat.
Proof. solve_decision. Defined.

(** An element of [get_remote_basebackups_info]: the name and the
    [format] of its metadata. *)
Record remote_basebackup := {
  bb_name : string;
  bb_format : BaseBackupFormat
}.

(** The manifest blob of a backup, as far as the hashes go:
    [delta_stats.hashes], when the manifest has [delta_stats]. *)
Record manifest := {
  delta_stats_hashes : option (gmap string Z)
}.

(** Modelled from the spec: which manifests the delta engine reads
    (section 4.E, step 1, and section 9): those of format [delta-v1] and
    [delta-v2] and those that the [local-tar-delta-stats] mode writes, which
    have the format [v2] and carry [delta_stats], as [backup2] and [backup3]
    of [test_fetch_all_data_files_hashes] do; [v1] manifests are skipped. *)
Definition carries_hashes (f : BaseBackupFormat) : bool :=
  match f with
  | v2 | delta_v1 | delta_v2 => true
  | v1 => false
  end.

Section Fetch.
(** [download_backup_meta_file], by the key of the manifest blob. *)
Variable download : string → outcome manifest.
Variable prefix : string.

Definition manifest_key (b : remote_basebackup) : string :=
  os_path_join prefix ["basebackup"; bb_name b].

(** Modelled from the spec: [fetch_all_data_files_hashes] of
    [pghoard/basebackup/base.py] (section 4.E, step 1), which is not among
    the sources: for each listed backup of a format that carries hashes,
    fetch the manifest blob and merge its [delta_stats.hashes] into one map
    from digest to length, a later manifest overriding an earlier one.  The
    first component of the state is the list of blobs fetched so far.
    [select] says which formats are read. *)
Fixpoint fetch_from (select : BaseBackupFormat → bool)
    (backups : list remote_basebackup) (fetched : list string)
    (hashes : gmap string Z) : list string * outcome (gmap string Z) :=
  match backups with
  | [] => (fetched, Return hashes)
  | b :: r =>
      if select (bb_format b) then
        match download (manifest_key b) with
        | Return m =>
            fetch_from select r (fetched ++ [manifest_key b])
              (match delta_stats_hashes m with
               | Some hs => hs ∪ hashes
               | None => hashes
               end)
        | Raise e => (fetched ++ [manifest_key b], Raise e)
        end
      else fetch_from select r fetched hashes
  end.

Definition fetch_all_data_files_hashes (backups : list remote_basebackup)
    : list string * outcome (gmap string Z) :=
  fetch_from carries_hashes backups [] ∅.

End Fetch.

(** The backup [b] is read and its manifest holds [h] with length [n]. *)
Definition contributes (download : string → outcome manifest) (prefix : string)
    (select : BaseBackupFormat → bool) (b : remote_basebackup) (h : string) (n : Z)
    : Prop :=
  select (bb_format b) = true
  ∧ ∃ m hs, download (manifest_key prefix b) = Return m
            ∧ delta_stats_hashes m = Some hs ∧ hs !! h = Some n.

(** The listing and the manifests of [test_fetch_all_data_files_hashes]. *)
Definition test_backups : list remote_basebackup :=
  [ {| bb_name := "backup0"; bb_format := v1 |};
    {| bb_name := "backup1"; bb_format := v2 |};
    {| bb_name := "backup2"; bb_format := v2 |};
    {| bb_name := "backup3"; bb_format := v2 |};
    {| bb_name := "backup4"; bb_format := delta_v1 |};
    {| bb_name := "backup5"; bb_format := delta_v2 |} ].

Definition hash_a : string := "8ee55c458dde7fd7ea43b946dfb3c9713a360280ee2927e600b9d6d4630ef3fd".
Definition hash_b : string := "7e0c70d50c0ccd9ca4cb8c6837fbfffb4ef7e885aa1c6370fcfc307541a03e27".
Definition hash_c : string := "7e0c70d50c0ccd9ca4cb8c6837fbfffb4ef7e885aa1c6370fcfc307541a03e28".

Definition fake_download_backup_meta_file (key : string) : outcome manifest :=
  if bool_decide (key = "a/b/c/basebackup/backup2") then
    Return {| delta_stats_hashes := Some {[ hash_a := 1636; hash_b := 8192 ]} |}
  else if bool_decide (key = "a/b/c/basebackup/backup3") then
    Return {| delta_stats_hashes := Some {[ hash_a := 1636; hash_c := 800 ]} |}
  else if bool_decide (key = "a/b/c/basebackup/backup4") then
    Return {| delta_stats_hashes := Some ∅ |}
  else Return {| delta_stats_hashes := None |}.

Definition test_expected : gmap string Z :=
  {[ hash_a := 1636; hash_b := 8192; hash_c := 800 ]}.

End Delta.

(** * The backup label *)

Module Label.

(** A tar archive as the sequence of its members: name and content. *)
Definition tar_archive := list (string * string).

(** [tfile.add(path, arcname=name)] for a file with the given content. *)
Definition tar_add (name content : string) (tar : tar_archive) : tar_archive :=
  tar ++ [(name, content)].

(** [tar.extractfile(name).read()]: the last member of that name. *)
Definition tar_extractfile (tar : tar_archive) (name : string) : outcome string :=
  foldl (λ acc m, if decide (m.1 = name) then Return m.2 else acc)
        (Raise (KeyError name)) tar.

(** [s.strip(c)] *)
Fixpoint lstrip_char (c : ascii) (s : string) : string :=
  match s with
  | String d r => if decide (d = c) then lstrip_char c r else s
  | EmptyString => ""
  end.
Definition strip_char (c : ascii) (s : string) : string :=
  String.rev (lstrip_char c (String.rev (lstrip_char c s))).

(** What has been found so far: the segment and the start time. *)
Definition found : Type := option string * option string.

(** Modelled from the spec: one line of the label (section 6, "Backup label
    extraction").  A line [START WAL LOCATION: <lsn> (file <segment>)]
    gives the segment, its sixth word without the parenthesis; a line
    [START TIME: <datetime>] gives the start time, read as a timestamp and
    written as an ISO 8601 time in UTC. *)
Definition scan_line (st : found) (line : string) : outcome found :=
  if PyStr.startswith "START WAL LOCATION" line then
    match String.words line !! 5%nat with
    | Some w => Return (Some (strip_char ")" w), st.2)
    | None => Raise IndexError
    end
  else if PyStr.startswith "START TIME: " line then
    match Parse.timestamp (PyStr.drop 12 line) with
    | Return t =>
        match Datetime.tzinfo t with
        | Some off =>
            match Datetime.astimezone_utc t off with
            | Some u => Return (st.1, Some (Datetime.isoformat u))
            | None => Raise OverflowError
            end
        | None => Return (st.1, Some (Datetime.isoformat t))
        end
    | Raise e => Raise e
    end
  else Return st.

Fixpoint scan (lines : list string) (st : found) : outcome found :=
  match lines with
  | [] => Return st
  | l :: r => outcome_bind (scan r) (scan_line st l)
  end.

(** Modelled from the spec: [parse_backup_label] of
    [pghoard/basebackup/base.py], which is not among the sources: the pair
    [(segment, iso8601_utc_time)] of a textual label. *)
Definition parse_backup_label (text : string) : outcome (string * string) :=
  outcome_bind
    (λ st : found,
       match st with
       | (Some segment, Some time) => Return (segment, time)
       | (None, _) => Raise (UnboundLocalError "start_wal_segment")
       | (_, None) => Raise (UnboundLocalError "start_time")
       end)
    (scan (PyStr.split (ascii_of_nat 10) text) (None, None)).

(** Modelled from the spec: [parse_backup_label_in_tar], which is not among
    the sources: the label is read from the member [backup_label] of the
    archive and parsed as text. *)
Definition parse_backup_label_in_tar (tar : tar_archive) : outcome (string * string) :=
  outcome_bind parse_backup_label (tar_extractfile tar "backup_label").

Definition nl : string := String (ascii_of_nat 10) "".

Definition wal_line : string :=
  "START WAL LOCATION: 0/4000028 (file 000000010000000000000004)".
Definition time_line : string := "START TIME: 2015-02-12 14:07:19 GMT".

(** The label of [test_parse_backup_label]. *)
Definition test_label : string :=
  wal_line +:+ nl +:+ "CHECKPOINT LOCATION: 0/4000060" +:+ nl
  +:+ "BACKUP METHOD: streamed" +:+ nl +:+ "BACKUP FROM: master" +:+ nl
  +:+ time_line +:+ nl +:+ "LABEL: pg_basebackup base backup" +:+ nl.

End Label.

(** * The scheduler *)

Module Scheduler.

(** The schedule fields of a site. *)
Record site_config := {
  basebackup_interval_hours : option Q;
  basebackup_hour : option Z;
  basebackup_minute : option Z
}.

Inductive BackupReason : Type := scheduled | requested.

Global Instance BackupReason_eq_dec : EqDecision BackupReason.
Proof. solve_decision. Defined.

(** The metadata of an existing backup entry that the scheduler reads. *)
Record backup_entry := {
  start_time : Datetime.datetime;
  decision_time : Datetime.datetime;
  backup_reason : BackupReason;
  normalized_backup_time : option string
}.

(** The metadata stub of a backup that is to be started. *)
Record new_backup := {
  new_backup_reason : BackupReason;
  backup_decision_time : string;
  new_normalized_backup_time : option string
}.

(** [timedelta(hours=h)] in microseconds. *)
Definition interval_us (h : Q) : Z := Qfloor (h * (3600000000 # 1)).

(** Microseconds from 0001-01-01T00:00:00 UTC to the instant [dt]. *)
Definition utc_us (dt : Datetime.datetime) : Z :=
  Datetime.wall_us dt - from_option id 0 (Datetime.tzinfo dt).

(** Modelled from the spec: step 2 of the algorithm of section 4.F.  The
    nearest past instant [<hour>:<minute>:00] UTC, shifted by whole
    multiples of the interval to the last such instant that is not after
    [now]. *)
Definition normalized_us (hour minute step now : Z) : Z :=
  let day_start := now / Datetime.us_per_day * Datetime.us_per_day in
  let today := day_start + hour * Datetime.us_per_hour + minute * Datetime.us_per_minute in
  let anchor := if today <=? now then today else today - Datetime.us_per_day in
  anchor + (now - anchor) / step * step.

(** Modelled from the spec: [normalized(now)] of section 4.F as the string
    stored in the metadata; [None] when no schedule is configured. *)
Definition get_normalized_backup_time (cfg : site_config) (now : Datetime.datetime)
    : outcome (option string) :=
  match basebackup_hour cfg, basebackup_minute cfg, basebackup_interval_hours cfg with
  | Some h, Some m, Some i =>
      match Datetime.of_wall_us (normalized_us h m (interval_us i) (utc_us now))
              Datetime.utc with
      | Some t => Return (Some (Datetime.isoformat t))
      | None => Raise OverflowError
      end
  | _, _, _ => Return None
  end.

(** Modelled from the spec: the elapsed-time condition of step 4 as section
    4.F words it: a whole interval has passed since the start of the most
    recent backup. *)
Definition elapsed_as_specified (cfg : site_config) (basebackups : list backup_entry)
    (now : Datetime.datetime) : bool :=
  match basebackup_interval_hours cfg, last basebackups with
  | Some i, Some l => interval_us i <=? utc_us now - utc_us (start_time l)
  | _, _ => false
  end.

(** Modelled from the spec: the elapsed-time condition of step 4, with the
    measure that [test_get_new_backup_details] bears out: half an interval
    has passed since the decision time of the most recent backup whose
    reason is [scheduled], if there is one.  Backups that were requested do
    not count (lines 811 to 823 of the test), and with an interval of 12
    hours a scheduled backup decided 2 hours ago holds a new one back (line
    801) while one decided 8 hours ago does not (lines 804 to 809). *)
Definition elapsed_since_scheduled (cfg : site_config) (basebackups : list backup_entry)
    (now : Datetime.datetime) : bool :=
  match basebackup_interval_hours cfg with
  | Some i =>
      match last (filter (λ b, backup_reason b = scheduled) basebackups) with
      | Some b =>
          utc_us (decision_time b) + interval_us (i / (2 # 1)) <=? utc_us now
      | None => true
      end
  | None => false
  end.

Section Decide.
(** The elapsed-time condition of step 4. *)
Variable elapsed : site_config → list backup_entry → Datetime.datetime → bool.

(** Modelled from the spec: steps 1 to 5 of section 4.F for a given
    elapsed-time condition.
    [running] says that a backup of the site is running, [manual] that the
    manual trigger is set; [basebackups] are the existing entries, the most
    recent last. *)
Definition decide (running manual : bool) (cfg : site_config)
    (basebackups : list backup_entry) (now : Datetime.datetime)
    : outcome (option new_backup) :=
  if running then Return None
  else
    match get_normalized_backup_time cfg now with
    | Raise e => Raise e
    | Return normalized =>
        let yes reason :=
          Return (Some {| new_backup_reason := reason;
                          backup_decision_time := Datetime.isoformat now;
                          new_normalized_backup_time := normalized |}) in
        if manual then yes requested
        else
          match last basebackups with
          | None => yes scheduled
          | Some l =>
              let differs := negb (bool_decide (normalized = normalized_backup_time l)) in
              if differs && elapsed cfg basebackups now then yes scheduled
              else Return None
          end
    end.

End Decide.

(** Modelled from the spec: [get_new_backup_details] of
    [pghoard/pghoard.py], which is not among the sources; steps 1 to 5 of
    section 4.F, with the elapsed-time condition of step 4 as
    [test_get_new_backup_details] has it.  With the condition as the section
    words it the decision at lines 804 to 809 of the test would be no, where
    the test asserts a backup. *)
Definition get_new_backup_details : bool → bool → site_config → list backup_entry →
    Datetime.datetime → outcome (option new_backup) :=
  decide elapsed_since_scheduled.

(** Modelled from the spec: the function with the elapsed-time condition
    worded as in section 4.F. *)
Definition specified_get_new_backup_details : bool → bool → site_config →
    list backup_entry → Datetime.datetime → outcome (option new_backup) :=
  decide elapsed_as_specified.



(** The site of [test_get_new_backup_details]. *)
Definition test_config : site_config :=
  {| basebackup_interval_hours := Some (3 # 2);
     basebackup_hour := Some 13;
     basebackup_minute := Some 10 |}.

Definition at_time (y m d hh mm ss : Z) : Datetime.datetime :=
  Datetime.mk y m d hh mm ss 0 Datetime.utc.

(** The existing backup of the test, for 2022-12-18: started an hour
    before 15:20:30, normalized to 14:40. *)
Definition test_entry : backup_entry :=
  {| start_time := at_time 2022 12 18 14 20 30;
     decision_time := at_time 2022 12 18 14 20 30;
     backup_reason := scheduled;
     normalized_backup_time := Some "2022-12-18T14:40:00+00:00" |}.

(** The other site configurations of the test: the site before the test
    gives it a schedule, the schedule 13:10 before the test sets an
    interval, and the schedule 14:50 with an interval of 12 hours.  The
    interval that the site has before the test sets one is taken to be 24
    hours; the test shows only that it reaches back from 15:20:30 to 13:10. *)
Definition default_config : site_config :=
  {| basebackup_interval_hours := Some (24 # 1);
     basebackup_hour := None;
     basebackup_minute := None |}.
Definition daily_config : site_config :=
  {| basebackup_interval_hours := Some (24 # 1);
     basebackup_hour := Some 13;
     basebackup_minute := Some 10 |}.
Definition half_day_config : site_config :=
  {| basebackup_interval_hours := Some (12 # 1);
     basebackup_hour := Some 14;
     basebackup_minute := Some 50 |}.

(** The requested backup that the test appends (lines 813 to 821), with
    the normalized time that it is given first and the one it is given
    then. *)
Definition requested_entry (normalized : string) : backup_entry :=
  {| start_time := at_time 2022 12 18 21 20 30;
     decision_time := at_time 2022 12 18 14 20 30;
     backup_reason := requested;
     normalized_backup_time := Some normalized |}.

End Scheduler.

(** * The file walker and the chunk splitter *)

Module Walker.

(** A data directory after the exclusion list has been applied: files with
    their size, directories with their children. *)
Inductive tree : Type :=
  | File (name : string) (size : Z)
  | Dir (name : string) (children : list tree).

Definition tree_name (t : tree) : string :=
  match t with
  | File n _ => n
  | Dir n _ => n
  end.

(** Siblings in lexical order. *)
Fixpoint insert_tree (t : tree) (l : list tree) : list tree :=
  match l with
  | [] => [t]
  | x :: r => if String.leb (tree_name t) (tree_name x) then t :: x :: r
              else x :: insert_tree t r
  end.

Fixpoint sort_tree (t : tree) : tree :=
  match t with
  | File n s => File n s
  | Dir n cs => Dir n (foldr insert_tree [] (sort_tree <$> cs))
  end.

Definition sort_children (cs : list tree) : list tree :=
  foldr insert_tree [] (sort_tree <$> cs).

(** An entry of the walk.  [rel_path] is the path below the data
    directory, component by component. *)
Record entry := {
  rel_path : list string;
  is_dir : bool;
  file_size : Z
}.

(** The path in the archive, below [pgdata]. *)
Definition archive_path (e : entry) : string := PyStr.join "/" ("pgdata" :: rel_path e).

(** The path on disk, below the data directory [pgdata_dir]. *)
Definition local_path (pgdata_dir : string) (e : entry) : string :=
  PyStr.join "/" (pgdata_dir :: rel_path e).

(** Only the entries directly below the root must not be missing. *)
Definition missing_ok (e : entry) : bool := negb (Nat.eqb (length (rel_path e)) 1).

(** What the walker yields: an entry on entering a directory, an entry
    for a file, and a mark on leaving a directory. *)
Inductive event : Type :=
  | Enter (e : entry)
  | Add (e : entry)
  | Leave.

(** Modelled from the spec: the file walker of section 4.C
    ([find_files_to_backup], which is not among the sources), without
    tablespaces: depth first, a directory before its contents. *)
Fixpoint walk (parent : list string) (t : tree) : list event :=
  match t with
  | File n s => [Add {| rel_path := parent ++ [n]; is_dir := false; file_size := s |}]
  | Dir n cs =>
      Enter {| rel_path := parent ++ [n]; is_dir := true; file_size := 0 |}
      :: concat (walk (parent ++ [n]) <$> cs) ++ [Leave]
  end.

Definition walk_all (parent : list string) (cs : list tree) : list event :=
  concat (walk parent <$> cs).

Definition find_files_to_backup (pgdata : list tree) : list event :=
  walk_all [] (sort_children pgdata).

(** The state of the splitter. *)
Record split_state := {
  total_file_count : Z;
  one_chunk_size : Z;
  one_chunk_files : list entry;
  chunks : list (list entry);
  entered_folders : list entry
}.

Section Split.
(** The rule that closes the current chunk: from its size, the size of
    the next entry and the target. *)
Variable closes : Z → Z → Z → bool.
Variable target_chunk_size : Z.

(** Modelled from the spec: one entry of the walk (section 4.C.1).  The
    chunk is closed first if the rule says so, and the next chunk starts
    with the directories entered so far; directories count as zero. *)
Definition visit (st : split_state) (e : entry) (entering : bool) : split_state :=
  let size := if is_dir e then 0 else file_size e in
  let st1 :=
    if closes (one_chunk_size st) size target_chunk_size then
      {| total_file_count := total_file_count st;
         one_chunk_size := 0;
         one_chunk_files := entered_folders st;
         chunks := chunks st ++ [one_chunk_files st];
         entered_folders := entered_folders st |}
    else st in
  {| total_file_count := total_file_count st1 + 1;
     one_chunk_size := one_chunk_size st1 + size;
     one_chunk_files := one_chunk_files st1 ++ [e];
     chunks := chunks st1;
     entered_folders :=
       if entering then entered_folders st1 ++ [e] else entered_folders st1 |}.

Definition step (st : split_state) (ev : event) : split_state :=
  match ev with
  | Enter e => visit st e true
  | Add e => visit st e false
  | Leave =>
      {| total_file_count := total_file_count st;
         one_chunk_size := one_chunk_size st;
         one_chunk_files := one_chunk_files st;
         chunks := chunks st;
         entered_folders := removelast (entered_folders st) |}
  end.

Definition initial : split_state :=
  {| total_file_count := 0; one_chunk_size := 0; one_chunk_files := [];
     chunks := []; entered_folders := [] |}.

Definition split_events (evs : list event) : Z * list (list entry) :=
  let st := foldl step initial evs in
  (total_file_count st, chunks st ++ [one_chunk_files st]).

(** Modelled from the spec: [find_and_split_files_to_backup] of section
    4.C.1, which is not among the sources, for [tablespaces = {}]: the
    entries of the walk in order, a new chunk starting with the
    directories that are entered at that point. *)
Definition find_and_split_files_to_backup (pgdata : list tree)
    : Z * list (list entry) :=
  split_events (find_files_to_backup pgdata).

End Split.

(** Modelled from the spec: the rule of section 4.C.1.  The accumulated
    file sizes of a chunk stay within the target, so a chunk that holds
    data is closed when the next entry would exceed it. *)
Definition within_target (size next target : Z) : bool :=
  (0 <? size) && (target <? size + next).

(** [anc] is a directory above the entry at [path], below the root. *)
Definition ancestor_of (anc path : list string) : Prop :=
  ∃ k : nat, (1 ≤ k < length path)%nat ∧ anc = take k path.

(** Every entry of the chunk has all directories above it earlier in the
    chunk, as directory entries. *)
Definition self_contained (chunk : list entry) : Prop :=
  ∀ (i : nat) (e : entry) (anc : list string),
    chunk !! i = Some e → ancestor_of anc (rel_path e) →
    ∃ (j : nat) (a : entry),
      (j < i)%nat ∧ chunk !! j = Some a ∧ rel_path a = anc ∧ is_dir a = true.

(** The entered directories are those on the way to [p], outermost first. *)
Definition chain (p : list string) (entered : list entry) : Prop :=
  rel_path <$> entered = (λ k, take k p) <$> seq 1 (length p)
  ∧ Forall (λ e, is_dir e = true) entered.

(** The chunk holds a directory entry for every directory on the way to [p]. *)
Definition holds_dirs (p : list string) (chunk : list entry) : Prop :=
  ∀ k : nat, (1 ≤ k ≤ length p)%nat →
    ∃ (j : nat) (a : entry),
      chunk !! j = Some a ∧ rel_path a = take k p ∧ is_dir a = true.

(** What holds of the splitter while the walk is inside the directory [p]. *)
Definition inside (p : list string) (st : split_state) : Prop :=
  chain p (entered_folders st)
  ∧ self_contained (one_chunk_files st)
  ∧ holds_dirs p (one_chunk_files st)
  ∧ Forall self_contained (chunks st).

(** The tree of [test_find_and_split_files_to_backup]. *)
Definition test_tree : list tree :=
  [ Dir "split_top"
      [ Dir "split_sub" [File "f3" 50000; File "f1" 50000; File "f2" 50000];
        File "f2" 50000; File "f1" 50000; File "f3" 50000 ] ].

End Walker.

(** * Further descriptions of the listing *)

(** Lines 143 to 147 of [print_basebackup_list] as a function of the popped
    [start-time]: a string is parsed, an aware time is moved to UTC and
    loses its zone, a naive time is taken as it is. *)
Definition start_time_of `{!Runtime} (lm : value) : outcome Datetime.datetime :=
  outcome_bind
    (λ lm,
       match lm with
       | VDatetime t =>
           match Datetime.tzinfo t with
           | Some off =>
               match Datetime.astimezone_utc t off with
               | Some u => Return (Datetime.replace_tzinfo_None u)
               | None => Raise OverflowError
               end
           | None => Return t
           end
       | _ => Raise (AttributeError "tzinfo")
       end)
    (match lm with
     | VStr s => outcome_bind (λ t, Return (VDatetime t)) (parse_timestamp s)
     | v => Return v
     end).

(** The [Start time] column: [lm.isoformat()[:19] + "Z"]. *)
Definition time_column (t : Datetime.datetime) : string :=
  PyStr.take 19 (Datetime.isoformat t) +:+ "Z".

(** The [Backup size] column: ["{} MB".format(n // 1024 ** 2)]. *)
Definition size_column (n : Z) : string := PyStr.of_Z (n / MB) +:+ " MB".

(** The state after [args] has been printed. *)
Definition after_print (args : list print_arg) (w : pworld) : pworld :=
  {| heap := heap w; stdout := stdout w ++ [args]; requests := requests w |}.

(** The state after the object [o] has been put at [l]. *)
Definition with_object (l : loc) (o : object) (w : pworld) : pworld :=
  {| heap := <[l := o]> (heap w); stdout := stdout w; requests := requests w |}.

(** An entry whose metadata has a naive start time and whose data has no
    [size], although the metadata has [total-size-enc]. *)
Definition sizeless_world : pworld :=
  {| heap := {[ 0%nat := ODict [("name", VStr "a"); ("metadata", VRef 1%nat)];
                1%nat := ODict [("start-time",
                                 VDatetime (Datetime.mk 2022 12 11 8 0 0 0 None));
                                ("total-size-enc", VInt 5)] ]};
     stdout := []; requests := [] |}.
Definition sizeless : BaseBackupInfo := {| name := "a"; site := "s"; data := 0%nat |}.

(** The server of [two_sites] with a third site that answers without a
    listing; a site it does not know, such as [gamma], cannot be reached. *)
Definition patchy_sites (url : string) : outcome json :=
  if bool_decide (url = "http://localhost:16000/delta/basebackup") then
    Return (JObject [("status", JString "ok")])
  else two_sites url.

Definition gamma_restore : HTTPRestore :=
  {| host := "localhost"; port := "16000"; sites := ["alpha"; "gamma"; "beta"] |}.
Definition delta_restore : HTTPRestore :=
  {| host := "localhost"; port := "16000"; sites := ["alpha"; "delta"; "beta"] |}.

(** * [BucketObjectStore] *)

(** The part of the configuration that [BucketObjectStore] reads itself:
    [config["backup_sites"]], with the string options of every site. *)
Record BucketConfig := {
  backup_sites : option (gmap string (gmap string string))
}.

Record BucketObjectStore := {
  bucket_config : BucketConfig;
  bucket_sites : list string
}.

(** [BucketObjectStore.get_site_prefix]:
    [self.config["backup_sites"][site]["prefix"]]. *)
Definition get_site_prefix (self : BucketObjectStore) (site : string) : outcome string :=
  match backup_sites (bucket_config self) with
  | None => Raise (KeyError "backup_sites")
  | Some by_site =>
      match by_site !! site with
      | None => Raise (KeyError site)
      | Some options =>
          match options !! "prefix" with
          | None => Raise (KeyError "prefix")
          | Some p => Return p
          end
      end
  end.

(** What [BucketObjectStore.list_basebackups] calls outside the module:
    [pghoard.common.get_object_storage_config] and rohmu's [get_transfer],
    which makes a transfer object of type [T] from a storage
    configuration of type [C]. *)
Class Buckets (C T : Type) := {
  get_object_storage_config : BucketConfig → string → outcome C;
  get_transfer : C → outcome T
}.

(** A [BaseBackupInfoFromBucket] with its [storage] attribute.  The
    transfer object is given by its state when the entry was made. *)
Record ListedBaseBackup (T : Type) := {
  listed_storage : T;
  listed_backup :> BaseBackupInfoFromBucket
}.
Arguments listed_storage {T} l.
Arguments listed_backup {T} l.

(** The dictionary that [list_path] returns for one entry, as a document:
    its [name], [size] and [metadata].  The [last_modified] member, which
    the module does not read, is left out. *)
Definition entry_json (e : list_entry) : json :=
  JObject [("name", JString (entry_name e));
           ("size", JInt (entry_size e));
           ("metadata",
            JObject ((λ kv, (kv.1, JString kv.2)) <$> map_to_list (entry_metadata e)))].

Section BucketListing.
Context {C T : Type} `{!BaseTransfer T} `{!Buckets C T}.

(** [BaseBackupInfoFromBucket(storage=storage, name=result["name"],
    prefix=self.get_site_prefix(site), site=site, data=result)] *)
Definition make_bucket_info (self : BucketObjectStore) (storage : T) (site : string)
    (result : value) : M pworld (ListedBaseBackup T) :=
  b <- make_info site result ;;
  p <- lift (get_site_prefix self site) ;;
  ret {| listed_storage := storage; listed_backup := {| info := b; prefix := p |} |}.

(** The body of the outer loop of [BucketObjectStore.list_basebackups]. *)
Definition bucket_list_site (self : BucketObjectStore) (site : string)
    : M pworld (list (ListedBaseBackup T)) :=
  storage_config <- lift (get_object_storage_config (bucket_config self) site) ;;
  storage <- lift (get_transfer storage_config) ;;
  p <- lift (get_site_prefix self site) ;;
  let '(storage, listed) := list_path (os_path_join p ["basebackup"]) storage in
  results <- lift listed ;;
  results <- (λ w, let '(w', v) := materialize (JArray (entry_json <$> results)) w in
                   (w', Return v)) ;;
  items <- iterate results ;;
  collect (make_bucket_info self storage site) items.

(** [BucketObjectStore.list_basebackups] *)
Definition bucket_list_basebackups (self : BucketObjectStore)
    : M pworld (list (ListedBaseBackup T)) :=
  per_site <- collect (bucket_list_site self) (bucket_sites self) ;;
  ret (concat per_site).

(** What one site is expected to list: its transfer object after the
    listing, its prefix, and the entries below [prefix/basebackup]. *)
Definition bucket_site_listing (self : BucketObjectStore) (site : string)
    : option (T * string * list list_entry) :=
  match get_object_storage_config (bucket_config self) site with
  | Return storage_config =>
      match get_transfer storage_config, get_site_prefix self site with
      | Return storage, Return p =>
          match list_path (os_path_join p ["basebackup"]) storage with
          | (storage, Return results) => Some (storage, p, results)
          | _ => None
          end
      | _, _ => None
      end
  | Raise _ => None
  end.

Fixpoint expected_bucket_listing (self : BucketObjectStore) (sites : list string)
    : option (list (string * (T * string) * list_entry)) :=
  match sites with
  | [] => Some []
  | s :: r =>
      match bucket_site_listing self s, expected_bucket_listing self r with
      | Some (storage, p, results), Some rest =>
          Some (((λ e, (s, (storage, p), e)) <$> results) ++ rest)
      | _, _ => None
      end
  end.

(** The entry [b] lists the object [x.2] of site [x.1.1]. *)
Definition lists_object (h : gmap loc object) (b : ListedBaseBackup T)
    (x : string * (T * string) * list_entry) : Prop :=
  site b = x.1.1 ∧ listed_storage b = x.1.2.1 ∧ prefix b = x.1.2.2
  ∧ name b = entry_name x.2
  ∧ represents h (VRef (data b)) (entry_json x.2).

End BucketListing.

(** Two sites on local stores; the site [gamma] has no prefix. *)
Definition alpha_store : LocalTransfer.t :=
  LocalTransfer.mk
    {[ "alpha/basebackup/2022-12-10_0" := ([], {[ "start-time" := "2022-12-10T09:00:00Z" ]});
       "alpha/preservation_request/x" := ([], ∅) ]} true.
Definition beta_store : LocalTransfer.t :=
  LocalTransfer.mk
    {[ "beta/basebackup/2022-12-11_0" := ([], {[ "start-time" := "2022-12-11T09:00:00Z" ]}) ]}
    true.

Definition test_buckets : Buckets string LocalTransfer.t := {|
  get_object_storage_config := λ _ site, Return site;
  get_transfer := λ c, if bool_decide (c = "alpha") then Return alpha_store
                       else Return beta_store
|}.

Definition test_bucket_store (sites : list string) : BucketObjectStore :=
  {| bucket_config :=
       {| backup_sites := Some {[ "alpha" := {[ "prefix" := "alpha" ]};
                                  "beta" := {[ "prefix" := "beta" ]};
                                  "gamma" := ∅ ]} |};
     bucket_sites := sites |}.

Definition alpha_entry : list_entry :=
  {| entry_name := "alpha/basebackup/2022-12-10_0"; entry_size := 0;
     entry_metadata := {[ "start-time" := "2022-12-10T09:00:00Z" ]} |}.
Definition beta_entry : list_entry :=
  {| entry_name := "beta/basebackup/2022-12-11_0"; entry_size := 0;
     entry_metadata := {[ "start-time" := "2022-12-11T09:00:00Z" ]} |}.

(** An entry without [metadata], and one whose metadata has no
    [start-time]. *)
Definition bare_world : pworld :=
  {| heap := {[ 0%nat := ODict [("name", VStr "a"); ("size", VInt 1)];
                1%nat := ODict [("name", VStr "b"); ("size", VInt 1);
                                ("metadata", VRef 2%nat)];
                2%nat := ODict [("total-size-enc", VInt 5)] ]};
     stdout := []; requests := [] |}.
Definition bare_a : BaseBackupInfo := {| name := "a"; site := "s"; data := 0%nat |}.
Definition bare_b : BaseBackupInfo := {| name := "b"; site := "s"; data := 1%nat |}.

(** A server whose listing has an element without a name. *)
Definition nameless_site (url : string) : outcome json :=
  Return (JObject [("basebackups",
    JArray [JObject [("name", JString "2022-12-10_0"); ("size", JInt 1)];
            JObject [("size", JInt 2)];
            JObject [("name", JString "2022-12-12_0"); ("size", JInt 3)]])]).
Definition alpha_restore : HTTPRestore :=
  {| host := "localhost"; port := "16000"; sites := ["alpha"] |}.

(** Entries with integer sizes in their metadata: [total-size-plain] and
    [original-file-size], [original-file-size] alone, a [total-size-plain]
    of 0, and an entry whose data has no [size]. *)
Definition sized_world : pworld :=
  let started := VDatetime (Datetime.mk 2022 12 11 8 0 0 0 None) in
  {| heap := {[ 0%nat := ODict [("name", VStr "c"); ("size", VInt 1048576);
                                ("metadata", VRef 1%nat)];
                1%nat := ODict [("start-time", started);
                                ("total-size-plain", VInt 5242880);
                                ("original-file-size", VInt 1048576)];
                2%nat := ODict [("name", VStr "d"); ("size", VInt 1048576);
                                ("metadata", VRef 3%nat)];
                3%nat := ODict [("start-time", started);
                                ("original-file-size", VInt 3145728)];
                4%nat := ODict [("name", VStr "e"); ("size", VInt 1048576);
                                ("metadata", VRef 5%nat)];
                5%nat := ODict [("start-time", started);
                                ("total-size-plain", VInt 0);
                                ("original-file-size", VInt 3145728)];
                6%nat := ODict [("name", VStr "f"); ("metadata", VRef 7%nat)];
                7%nat := ODict [("start-time", started)] ]};
     stdout := []; requests := [] |}.
Definition sized_c : BaseBackupInfo := {| name := "c"; site := "s"; data := 0%nat |}.
Definition sized_d : BaseBackupInfo := {| name := "d"; site := "s"; data := 2%nat |}.
Definition sized_e : BaseBackupInfo := {| name := "e"; site := "s"; data := 4%nat |}.
Definition sized_f : BaseBackupInfo := {| name := "f"; site := "s"; data := 6%nat |}.




(** * Checks of the embedding on the values the tests use *)

Example str_of_utc_datetime :
  Datetime.str (Datetime.mk 2022 12 18 10 20 30 123456 Datetime.utc)
  = "2022-12-18 10:20:30.123456+00:00".
Proof. reflexivity. Qed.

Example str_of_naive_datetime :
  Datetime.str (Datetime.mk 22 1 8 1 2 3 45 None) = "0022-01-08 01:02:03.000045".
Proof. reflexivity. Qed.

Example str_of_offset_datetime :
  Datetime.str (Datetime.mk 2022 12 18 10 20 30 0 (Some (-19815000000)))
  = "2022-12-18 10:20:30-05:30:15".
Proof. reflexivity. Qed.

Example ord2ymd_738507 : Datetime.ord2ymd 738507 = (2022, 12, 18).
Proof. reflexivity. Qed.

Example ymd2ord_2022_12_18 : Datetime.ymd2ord 2022 12 18 = 738507.
Proof. reflexivity. Qed.

Example Path_name_nested : Path_name "a/b/c" = "c". Proof. reflexivity. Qed.

Example Path_name_trailing : Path_name "a/b/" = "b". Proof. reflexivity. Qed.

Example Path_name_dot : Path_name "a/." = "a". Proof. reflexivity. Qed.

Example Path_name_root : Path_name "/" = "". Proof. reflexivity. Qed.

Example Path_name_plain : Path_name "2022_12_10" = "2022_12_10". Proof. reflexivity. Qed.

Example os_path_join_plain :
  os_path_join "site_name" ["preservation_request"; "x"] = "site_name/preservation_request/x".
Proof. reflexivity. Qed.

Example os_path_join_empty :
  os_path_join "" ["preservation_request"; "x"] = "preservation_request/x".
Proof. reflexivity. Qed.

Example os_path_join_slash :
  os_path_join "a/" ["preservation_request"; "x"] = "a/preservation_request/x".
Proof. reflexivity. Qed.

Example os_path_join_absolute : os_path_join "a" ["p"; "/x"] = "/x".
Proof. reflexivity. Qed.

(** * Preservation requests *)

Section StringFacts.

Lemma app_cons (c : ascii) (a b : string) : String c a +:+ b = String c (a +:+ b).
Proof. reflexivity. Qed.

Lemma app_nil_l_s (b : string) : "" +:+ b = b.
Proof. reflexivity. Qed.

Lemma app_empty_r (s : string) : s +:+ "" = s.
Proof. induction s as [|c s IH]; [done | by rewrite app_cons, IH]. Qed.

Lemma app_assoc_s (a b c : string) : (a +:+ b) +:+ c = a +:+ b +:+ c.
Proof. induction a as [|x a IH]; [done | by rewrite !app_cons, IH]. Qed.

Lemma last_char_app (a : string) (c : ascii) (r : string) :
  PyStr.last_char (a +:+ String c r) = PyStr.last_char (String c r).
Proof.
  induction a as [|x a IH]; [done|].
  rewrite app_cons. cbn [PyStr.last_char]. rewrite IH.
  destruct a; reflexivity.
Qed.

Lemma chars_rev_app (a b : string) :
  list_ascii_of_string (String.rev_app a b)
  = rev (list_ascii_of_string a) ++ list_ascii_of_string b.
Proof.
  revert b. induction a as [|c a IH]; intros b; simpl; [done|].
  rewrite IH. simpl. by rewrite <- app_assoc.
Qed.

(** No field returned by [split] contains the separator. *)
Lemma split_go_no_sep (sep : ascii) (s cur x : string) :
  ¬ In sep (list_ascii_of_string cur) →
  In x (PyStr.split_go sep cur s) →
  ¬ In sep (list_ascii_of_string x).
Proof.
  revert cur. induction s as [|c s IH]; intros cur Hcur Hx; simpl in Hx.
  - destruct Hx as [<-|[]]. unfold String.rev. rewrite chars_rev_app.
    rewrite in_app_iff, <- in_rev. simpl. tauto.
  - destruct (decide (c = sep)) as [->|Hne].
    + destruct Hx as [<-|Hx].
      * unfold String.rev. rewrite chars_rev_app.
        rewrite in_app_iff, <- in_rev. simpl. tauto.
      * apply (IH ""); [simpl; tauto | done].
    + apply (IH (String c cur)); [|done]. simpl. intros [->|?]; tauto.
Qed.

Lemma last_In_or_default {A} (l : list A) (d : A) :
  List.last l d = d ∨ In (List.last l d) l.
Proof.
  induction l as [|a l IH]; [by left|].
  destruct l as [|b l]; [right; by left|].
  destruct IH as [IH|IH]; [left; exact IH| right; right; exact IH].
Qed.

Lemma Path_name_no_slash (n : string) :
  ¬ In "/"%char (list_ascii_of_string (Path_name n)).
Proof.
  unfold Path_name.
  destruct (last_In_or_default (Path_parts n) "") as [->|Hin]; [simpl; tauto|].
  unfold Path_parts in Hin. apply list_elem_of_In, list_elem_of_filter in Hin.
  destruct Hin as [_ Hin]. apply list_elem_of_In in Hin.
  eapply split_go_no_sep; [|exact Hin]. simpl. tauto.
Qed.

(** A request name never starts with a slash, so [os.path.join] never
    discards the prefix. *)
Lemma request_name_not_absolute (n rest : string) :
  PyStr.startswith "/" (Path_name n +:+ "_" +:+ rest) = false.
Proof.
  pose proof (Path_name_no_slash n) as H.
  destruct (Path_name n) as [|c r]; [reflexivity|].
  unfold PyStr.startswith. rewrite app_cons. cbn [String.prefix].
  destruct (ascii_dec "/" c) as [e|]; [|reflexivity].
  subst c. exfalso. apply H. simpl. by left.
Qed.

Lemma os_path_join_request (p n rest : string) :
  os_path_join p ["preservation_request"; Path_name n +:+ "_" +:+ rest]
  = request_key p (Path_name n +:+ "_" +:+ rest).
Proof.
  unfold os_path_join, request_key. cbn [foldl].
  set (leaf := Path_name n +:+ "_" +:+ rest).
  set (base := if bool_decide (p = "") || PyStr.endswith_char "/" p then p else p +:+ "/").
  assert (join2 p "preservation_request" = base +:+ "preservation_request") as ->.
  { unfold join2, base. change (PyStr.startswith "/" "preservation_request") with false.
    cbv iota. destruct (bool_decide (p = "") || PyStr.endswith_char "/" p); [done|].
    by rewrite app_assoc_s. }
  unfold join2. unfold leaf at 1. rewrite request_name_not_absolute.
  assert (bool_decide (base +:+ "preservation_request" = "") = false) as ->.
  { apply bool_decide_eq_false. destruct base; discriminate. }
  assert (PyStr.endswith_char "/" (base +:+ "preservation_request") = false) as ->.
  { unfold PyStr.endswith_char. by rewrite last_char_app. }
  cbn [orb]. rewrite !app_assoc_s. reflexivity.
Qed.

Lemma request_key_claimed (p leaf : string) :
  p ≠ "" → PyStr.endswith_char "/" p = false →
  request_key p leaf = claimed_request_key p leaf.
Proof.
  intros Hp Hs. unfold request_key, claimed_request_key.
  rewrite Hs. rewrite bool_decide_eq_false_2 by done. cbn [orb].
  by rewrite app_assoc_s.
Qed.

End StringFacts.

Section PreservationFacts.
Context {S : Type} `{!BaseTransfer S}.

(** The request performs exactly one driver call: an empty blob under
    [request_key], with the two-entry metadata; the leaf name comes back
    when the driver returns. *)
Lemma request_backup_preservation_call (self : BaseBackupInfoFromBucket)
    (preserve_until : Datetime.datetime) (w : world S) :
  let backup_name := Path_name (name self) in
  let leaf := backup_name +:+ "_" +:+ Datetime.str preserve_until in
  request_backup_preservation self preserve_until w
  = (let '(s', r) := store_file_from_memory (request_key (prefix self) leaf) []
                       (preservation_metadata backup_name preserve_until) (storage w) in
     ({| storage := s'; log := log w |}, outcome_bind (λ _, Return leaf) r)).
Proof.
  intros backup_name leaf. subst backup_name leaf.
  unfold request_backup_preservation. cbv zeta. rewrite os_path_join_request.
  unfold bind, M_bind, on_storage.
  destruct (store_file_from_memory _ _ _ (storage w)) as [s' [[]|e]]; reflexivity.
Qed.

Lemma cancel_backup_preservation_call (self : BaseBackupInfoFromBucket)
    (n rest : string) (w : world S) :
  cancel_backup_preservation self (Path_name n +:+ "_" +:+ rest) w
  = on_storage (delete_key (request_key (prefix self) (Path_name n +:+ "_" +:+ rest))) w.
Proof. unfold cancel_backup_preservation. by rewrite os_path_join_request. Qed.

End PreservationFacts.

Lemma preservation_metadata_lookup (b : string) (pu : Datetime.datetime) :
  preservation_metadata b pu !! "preserve-backup" = Some b
  ∧ preservation_metadata b pu !! "preserve-until" = Some (Datetime.str pu)
  ∧ dom (preservation_metadata b pu) = {[ "preserve-backup"; "preserve-until" ]}.
Proof.
  unfold preservation_metadata. split; [|split].
  - by rewrite lookup_insert_eq.
  - rewrite lookup_insert_ne by done. by rewrite lookup_singleton_eq.
  - rewrite dom_insert_L, dom_singleton_L. done.
Qed.

(** ** C1 *)

(** C1, as the code has it: for every backup object, deadline and driver,
    [request_backup_preservation] makes one driver call that stores the
    empty blob under [os.path.join(prefix, "preservation_request", leaf)]
    with [leaf = Path(name).name + "_" + str(preserve_until)] and metadata
    exactly [{preserve-backup, preserve-until}], and returns [leaf] when the
    driver returns.  The key is [prefix + "/preservation_request/" + leaf]
    when the prefix is neither empty nor ends in a slash; otherwise no slash
    is put after the prefix.  On the local store the blob is there
    afterwards, and for the backup of the test the stored deadline reads
    ["2022-12-18 10:20:30.123456+00:00"]. *)
Theorem request_backup_preservation_stores_marker
    (self : BaseBackupInfoFromBucket) (preserve_until : Datetime.datetime) :
  let backup_name := Path_name (name self) in
  let leaf := backup_name +:+ "_" +:+ Datetime.str preserve_until in
  let key := request_key (prefix self) leaf in
  let md := preservation_metadata backup_name preserve_until in
  (∀ (S : Type) (T : BaseTransfer S) (w : world S),
     request_backup_preservation self preserve_until w
     = (let '(s', r) := store_file_from_memory key [] md (storage w) in
        ({| storage := s'; log := log w |}, outcome_bind (λ _, Return leaf) r)))
  ∧ (∀ w : world LocalTransfer.t,
       LocalTransfer.accessible (storage w) = true →
       ∃ w', request_backup_preservation self preserve_until w = (w', Return leaf)
             ∧ LocalTransfer.blobs (storage w')
               = <[key := ([], md)]> (LocalTransfer.blobs (storage w))
             ∧ LocalTransfer.blobs (storage w') !! key = Some ([], md))
  ∧ md !! "preserve-backup" = Some backup_name
  ∧ md !! "preserve-until" = Some (Datetime.str preserve_until)
  ∧ dom md = {[ "preserve-backup"; "preserve-until" ]}
  ∧ (prefix self ≠ "" → PyStr.endswith_char "/" (prefix self) = false →
     key = claimed_request_key (prefix self) leaf)
  ∧ (name self = "2022_12_10" → prefix self = "site_name" →
     preserve_until = test_preserve_until →
     key = "site_name/preservation_request/2022_12_10_2022-12-18 10:20:30.123456+00:00"
     ∧ md !! "preserve-until" = Some "2022-12-18 10:20:30.123456+00:00"
     ∧ md !! "preserve-backup" = Some "2022_12_10").
Proof.
  intros backup_name leaf key md.
  destruct (preservation_metadata_lookup backup_name preserve_until) as (Hb & Hu & Hd).
  split; [|split; [|split; [exact Hb|split; [exact Hu|split; [exact Hd|split]]]]].
  - intros S T w. apply request_backup_preservation_call.
  - intros w Hacc. rewrite request_backup_preservation_call.
    fold backup_name leaf key md. cbn [store_file_from_memory LocalTransfer.transfer].
    unfold LocalTransfer.store. rewrite Hacc. cbn.
    eexists. split; [reflexivity|]. cbn. split; [done|]. by rewrite lookup_insert_eq.
  - apply request_key_claimed.
  - intros Hname Hprefix Huntil. split; [|split].
    + subst key leaf backup_name. rewrite Hname, Hprefix, Huntil. reflexivity.
    + subst md backup_name. rewrite Hu, Huntil. reflexivity.
    + subst md backup_name. rewrite Hb, Hname. reflexivity.
Qed.

Lemma request_backup_preservation_stores_marker_witness :
  ∃ w', request_backup_preservation (test_backup "site_name") test_preserve_until fresh_world
        = (w', Return "2022_12_10_2022-12-18 10:20:30.123456+00:00")
        ∧ LocalTransfer.blobs (storage w')
            !! "site_name/preservation_request/2022_12_10_2022-12-18 10:20:30.123456+00:00"
          = Some ([], preservation_metadata "2022_12_10" test_preserve_until)
        ∧ preservation_metadata "2022_12_10" test_preserve_until !! "preserve-until"
          = Some "2022-12-18 10:20:30.123456+00:00".
Proof.
  pose proof (request_backup_preservation_stores_marker
                (test_backup "site_name") test_preserve_until) as H.
  cbv zeta in H. destruct H as (_ & Hloc & _ & _ & _ & Hkey & Htest).
  destruct (Hloc fresh_world eq_refl) as (w' & Hrun & _ & Hlook).
  destruct (Htest eq_refl eq_refl eq_refl) as (Hk & Hu & _).
  specialize (Hkey ltac:(discriminate) eq_refl).
  exists w'. split; [exact Hrun|]. split; [|exact Hu].
  rewrite <- Hk. exact Hlook.
Defined.

(** C1 as stated fails when the prefix ends in a slash (or is empty): the
    marker is stored without a doubled slash, so nothing is stored under
    [prefix + "/preservation_request/" + leaf]. *)
Lemma request_backup_preservation_claimed_key_counterexample :
  let self := test_backup "site_name/" in
  let leaf := "2022_12_10_2022-12-18 10:20:30.123456+00:00" in
  let w' := (request_backup_preservation self test_preserve_until fresh_world).1 in
  (request_backup_preservation self test_preserve_until fresh_world).2 = Return leaf
  ∧ claimed_request_key "site_name/" leaf
    = "site_name//preservation_request/2022_12_10_2022-12-18 10:20:30.123456+00:00"
  ∧ LocalTransfer.blobs (storage w') !! claimed_request_key "site_name/" leaf = None
  ∧ LocalTransfer.blobs (storage w')
      !! "site_name/preservation_request/2022_12_10_2022-12-18 10:20:30.123456+00:00"
    = Some ([], preservation_metadata "2022_12_10" test_preserve_until).
Proof.
  cbv zeta. split; [compute_done|]. split; [compute_done|].
  split; compute_done.
Qed.

(** ** C2 *)

(** After a successful store the local driver finds the key and deletes it. *)
Lemma local_delete_after_store (key : string) (data : bytes)
    (md : gmap string string) (s : LocalTransfer.t) :
  LocalTransfer.accessible s = true →
  ∃ s1 s2, LocalTransfer.store key data md s = (s1, Return ())
           ∧ LocalTransfer.delete key s1 = (s2, Return ())
           ∧ LocalTransfer.blobs s2 = delete key (LocalTransfer.blobs s)
           ∧ LocalTransfer.accessible s2 = true.
Proof.
  intros Hacc. unfold LocalTransfer.store. rewrite Hacc.
  eexists _, _. split; [reflexivity|].
  unfold LocalTransfer.delete. cbn. rewrite lookup_insert_eq.
  split; [reflexivity|]. cbn. split; [apply delete_insert_eq | reflexivity].
Qed.

(** A key that holds no blob is not listed under any path. *)
Lemma local_list_absent (key dir : string) (s s' : LocalTransfer.t)
    (es : list list_entry) :
  LocalTransfer.blobs s !! key = None →
  LocalTransfer.list dir s = (s', Return es) →
  ∀ e, e ∈ es → entry_name e ≠ key.
Proof.
  intros Hnone Hlist e He Heq. unfold LocalTransfer.list in Hlist.
  destruct (LocalTransfer.accessible s); [|discriminate].
  injection Hlist as _ <-.
  apply list_elem_of_fmap in He as ([k v] & -> & Hin).
  apply list_elem_of_filter in Hin as [_ Hin].
  apply elem_of_map_to_list in Hin. cbn in Heq. subst k. congruence.
Qed.

(** C2: the name returned by [request_backup_preservation] makes
    [cancel_backup_preservation] delete the very key that the request
    stored, for every backup object, deadline and driver; on the local
    store the round trip succeeds, leaves every other blob as it was, and
    no listing shows the request any more. *)
Theorem cancel_backup_preservation_removes_request
    (self : BaseBackupInfoFromBucket) (preserve_until : Datetime.datetime) :
  let backup_name := Path_name (name self) in
  let leaf := backup_name +:+ "_" +:+ Datetime.str preserve_until in
  let key := request_key (prefix self) leaf in
  let md := preservation_metadata backup_name preserve_until in
  (∀ (S : Type) (T : BaseTransfer S) (w : world S),
     request_backup_preservation self preserve_until w
     = (let '(s', r) := store_file_from_memory key [] md (storage w) in
        ({| storage := s'; log := log w |}, outcome_bind (λ _, Return leaf) r))
     ∧ cancel_backup_preservation self leaf w = on_storage (delete_key key) w)
  ∧ (∀ w : world LocalTransfer.t,
       LocalTransfer.accessible (storage w) = true →
       ∃ w1 w2,
         request_backup_preservation self preserve_until w = (w1, Return leaf)
         ∧ cancel_backup_preservation self leaf w1 = (w2, Return ())
         ∧ LocalTransfer.blobs (storage w1) !! key = Some ([], md)
         ∧ LocalTransfer.blobs (storage w2) = delete key (LocalTransfer.blobs (storage w))
         ∧ LocalTransfer.blobs (storage w2) !! key = None
         ∧ (∀ k, k ≠ key →
              LocalTransfer.blobs (storage w2) !! k = LocalTransfer.blobs (storage w) !! k)
         ∧ (∀ dir w3 es, on_storage (list_path dir) w2 = (w3, Return es) →
              ∀ e, e ∈ es → entry_name e ≠ key)).
Proof.
  intros backup_name leaf key md. split.
  - intros S T w. split; [apply request_backup_preservation_call|].
    apply cancel_backup_preservation_call.
  - intros w Hacc.
    destruct (local_delete_after_store key [] md (storage w) Hacc)
      as (s1 & s2 & Hst & Hdel & Hblobs & Hacc2).
    exists {| storage := s1; log := log w |}, {| storage := s2; log := log w |}.
    assert (LocalTransfer.blobs s1 !! key = Some ([], md)) as Hs1.
    { unfold LocalTransfer.store in Hst. rewrite Hacc in Hst.
      injection Hst as <-. cbn. apply lookup_insert_eq. }
    split.
    { rewrite request_backup_preservation_call. fold backup_name leaf key md.
      cbn [store_file_from_memory LocalTransfer.transfer]. by rewrite Hst. }
    split.
    { subst key md leaf backup_name. rewrite cancel_backup_preservation_call.
      unfold on_storage.
      cbn [delete_key LocalTransfer.transfer storage log]. by rewrite Hdel. }
    split; [exact Hs1|]. split; [exact Hblobs|].
    assert (LocalTransfer.blobs s2 !! key = None) as Hnone.
    { rewrite Hblobs. apply lookup_delete_eq. }
    split; [exact Hnone|]. split.
    { intros k Hk. cbn. rewrite Hblobs. by apply lookup_delete_ne. }
    intros dir w3 es Hl. unfold on_storage in Hl. cbn in Hl.
    destruct (LocalTransfer.list dir s2) as [s3 r] eqn:E.
    injection Hl as _ ->. eapply local_list_absent; eauto.
Qed.

Lemma cancel_backup_preservation_removes_request_witness :
  ∃ w2, (r <- request_backup_preservation (test_backup "site_name") test_preserve_until ;;
         cancel_backup_preservation (test_backup "site_name") r) fresh_world
        = (w2, Return ())
        ∧ LocalTransfer.blobs (storage w2) = ∅.
Proof.
  pose proof (cancel_backup_preservation_removes_request
                (test_backup "site_name") test_preserve_until) as H.
  cbv zeta in H. destruct H as [_ H].
  destruct (H fresh_world eq_refl) as (w1 & w2 & Hreq & Hcan & _ & Hblobs & _).
  exists w2. split.
  - unfold bind, M_bind. rewrite Hreq. exact Hcan.
  - rewrite Hblobs. reflexivity.
Defined.

(** ** C3 *)

(** C3: the [try_] variants swallow every [Exception]: if the request
    raises one, [try_request_backup_preservation] logs it and returns
    [None]; if the cancellation raises one, [try_cancel_backup_preservation]
    logs it and returns normally; neither ever raises an [Exception]; and
    when the request returns a name, the [try_] variant returns the same. *)
Theorem try_variants_swallow_storage_errors
    (S : Type) (T : BaseTransfer S) (self : BaseBackupInfoFromBucket)
    (preserve_until : Datetime.datetime) (request_name : string) (w : world S) :
  (∀ w' e, request_backup_preservation self preserve_until w = (w', Raise e) →
           is_Exception e = true →
           try_request_backup_preservation self preserve_until w
           = ({| storage := storage w';
                 log := log w' ++ [("Could not request backup preservation", e)] |},
              Return None))
  ∧ (∀ w' e, cancel_backup_preservation self request_name w = (w', Raise e) →
             is_Exception e = true →
             try_cancel_backup_preservation self request_name w
             = ({| storage := storage w';
                   log := log w' ++ [("Could not cancel backup preservation", e)] |},
                Return ()))
  ∧ (∀ w' r, request_backup_preservation self preserve_until w = (w', Return r) →
             try_request_backup_preservation self preserve_until w = (w', Return (Some r)))
  ∧ (∀ w', cancel_backup_preservation self request_name w = (w', Return ()) →
           try_cancel_backup_preservation self request_name w = (w', Return ()))
  ∧ (∀ e, (try_request_backup_preservation self preserve_until w).2 = Raise e →
          is_Exception e = false)
  ∧ (∀ e, (try_cancel_backup_preservation self request_name w).2 = Raise e →
          is_Exception e = false).
Proof.
  unfold try_request_backup_preservation, try_cancel_backup_preservation,
    try_except_Exception, bind, M_bind, ret, log_exception.
  repeat split.
  - intros w' e -> ->. reflexivity.
  - intros w' e -> ->. reflexivity.
  - intros w' r ->. reflexivity.
  - intros w' ->. reflexivity.
  - intros e. destruct (request_backup_preservation self preserve_until w) as [w' [r|e']];
      cbn; [discriminate|].
    destruct (is_Exception e') eqn:E; cbn; [discriminate|]. by intros [= <-].
  - intros e. destruct (cancel_backup_preservation self request_name w) as [w' [r|e']];
      cbn; [discriminate|].
    destruct (is_Exception e') eqn:E; cbn; [discriminate|]. by intros [= <-].
Qed.

Lemma try_variants_swallow_storage_errors_witness :
  try_request_backup_preservation (test_backup "site_name") test_preserve_until locked_world
  = ({| storage := LocalTransfer.mk ∅ false;
        log := [("Could not request backup preservation",
                 PermissionError
                   "site_name/preservation_request/2022_12_10_2022-12-18 10:20:30.123456+00:00")] |},
     Return None)
  ∧ try_cancel_backup_preservation (test_backup "site_name") "x" locked_world
    = ({| storage := LocalTransfer.mk ∅ false;
          log := [("Could not cancel backup preservation",
                   PermissionError "site_name/preservation_request/x")] |},
       Return ())
  ∧ try_request_backup_preservation (test_backup "site_name") test_preserve_until fresh_world
    = ((request_backup_preservation (test_backup "site_name") test_preserve_until
          fresh_world).1,
       Return (Some "2022_12_10_2022-12-18 10:20:30.123456+00:00")).
Proof.
  pose proof (try_variants_swallow_storage_errors _ _ (test_backup "site_name")
                test_preserve_until "x" locked_world) as (Hreq & Hcan & _).
  pose proof (try_variants_swallow_storage_errors _ _ (test_backup "site_name")
                test_preserve_until "x" fresh_world) as (_ & _ & Hok & _).
  split; [|split].
  - exact (Hreq _ _ eq_refl eq_refl).
  - exact (Hcan _ _ eq_refl eq_refl).
  - exact (Hok _ _ eq_refl).
Defined.

(** [KeyboardInterrupt] and [SystemExit] are not [Exception]s and pass
    through the [try_] variants, as through any [except Exception]. *)
Lemma try_request_passes_base_exceptions
    (S : Type) (T : BaseTransfer S) (self : BaseBackupInfoFromBucket)
    (preserve_until : Datetime.datetime) (w w' : world S) (e : exn) :
  request_backup_preservation self preserve_until w = (w', Raise e) →
  is_Exception e = false →
  try_request_backup_preservation self preserve_until w = (w', Raise e).
Proof.
  intros H He. unfold try_request_backup_preservation, try_except_Exception,
    bind, M_bind. by rewrite H, He.
Qed.

(** * Reasoning rules for computations on the object-store state *)

Section HoareRules.
Context {A B : Type}.

Lemma hoare_bind (P : pworld → Prop) (m : M pworld A) (f : A → M pworld B)
    (Q : A → pworld → Prop) (R : B → pworld → Prop) (E : pworld → Prop) :
  hoare P m Q E → (∀ a, hoare (Q a) (f a) R E) → hoare P (a <- m ;; f a) R E.
Proof.
  intros Hm Hf w HP. specialize (Hm w HP). unfold bind, M_bind.
  destruct (m w) as [w' [a|e]]; [|exact Hm]. exact (Hf a w' Hm).
Qed.

Lemma hoare_stable_bind (P : pworld → Prop) (m : M pworld A) (f : A → M pworld B)
    (R : B → pworld → Prop) (E : pworld → Prop) :
  stable m → (∀ w, P w → E w) → (∀ a, hoare P (f a) R E) →
  hoare P (a <- m ;; f a) R E.
Proof.
  intros Hs HPE Hf w HP. unfold bind, M_bind. specialize (Hs w).
  destruct (m w) as [w' [a|e]]; cbn in Hs; subst w'; [exact (Hf a w HP) | auto].
Qed.

Lemma stable_bind (m : M pworld A) (f : A → M pworld B) :
  stable m → (∀ a, stable (f a)) → stable (a <- m ;; f a).
Proof.
  intros Hm Hf w. unfold bind, M_bind. specialize (Hm w).
  destruct (m w) as [w' [a|e]]; cbn in Hm; subst w'; [apply Hf | reflexivity].
Qed.

Lemma stable_ret (a : A) : stable (ret a : M pworld A).
Proof. intros w. reflexivity. Qed.

Lemma stable_raise (e : exn) : stable (raise e : M pworld A).
Proof. intros w. reflexivity. Qed.

Lemma stable_lift (o : outcome A) : stable (lift o : M pworld A).
Proof. intros w. reflexivity. Qed.

End HoareRules.

Lemma stable_load_dict (l : loc) : stable (load_dict l).
Proof. intros w. unfold load_dict. destruct (heap w !! l) as [[]|]; reflexivity. Qed.

Lemma stable_truthy (v : value) : stable (truthy v).
Proof.
  intros w. destruct v; try reflexivity. cbn.
  destruct (heap w !! l) as [[]|]; reflexivity.
Qed.

Create HintDb stable.
Global Hint Resolve stable_ret stable_raise stable_lift stable_load_dict
  stable_truthy : stable.

Lemma hoare_ret {A} (P : pworld → Prop) (a : A) (Q : A → pworld → Prop)
    (E : pworld → Prop) :
  (∀ w, P w → Q a w) → hoare P (ret a) Q E.
Proof. intros H w HP. cbn. auto. Qed.

Lemma hoare_raise {A} (P : pworld → Prop) (e : exn) (Q : A → pworld → Prop)
    (E : pworld → Prop) :
  (∀ w, P w → E w) → hoare P (raise e) Q E.
Proof. intros H w HP. cbn. auto. Qed.

(** ** The heap is only extended *)

Section Frame.
Context `{!Runtime}.
Variable h0 : gmap loc object.

Lemma frame_print (args : list print_arg) :
  hoare (frame h0) (print args) (λ _, frame h0) (frame h0).
Proof. intros w HP. exact HP. Qed.

(** A copy lives at an address that [h0] does not use. *)
Lemma frame_copy (v : value) :
  hoare (frame h0) (copy v) (λ l w, h0 !! l = None ∧ frame h0 w) (frame h0).
Proof.
  intros w HP. destruct v; try exact HP. cbn.
  destruct (heap w !! l) as [o|] eqn:E; [|exact HP].
  unfold alloc, new_object. cbn.
  pose proof (is_fresh (dom (heap w))) as Hfresh.
  set (l' := fresh (dom (heap w))) in *.
  assert (h0 !! l' = None) as Hnone.
  { destruct (h0 !! l') as [o'|] eqn:E'; [|done].
    exfalso. apply Hfresh. apply elem_of_dom. exists o'. by apply HP. }
  split; [exact Hnone|].
  intros k ok Hk. cbn. rewrite lookup_insert_ne; [by apply HP | congruence].
Qed.

(** Popping from an object outside [h0] leaves [h0] alone. *)
Lemma frame_pop (l : loc) (k : string) :
  h0 !! l = None →
  hoare (frame h0) (pop l k) (λ _, frame h0) (frame h0).
Proof.
  intros Hl w HP. unfold pop.
  destruct (heap w !! l) as [[d|d]|]; try exact HP.
  destruct (Dict.get k d); [|exact HP].
  intros j oj Hj. cbn. rewrite lookup_insert_ne; [by apply HP | congruence].
Qed.

Lemma frame_print_entry (verbose : bool) (b : BaseBackupInfo) :
  hoare (frame h0) (print_entry verbose b) (λ _, frame h0) (frame h0).
Proof.
  unfold print_entry.
  apply hoare_stable_bind; [auto with stable | auto |]. intros d.
  apply hoare_stable_bind; [auto with stable | auto |]. intros md.
  eapply hoare_bind; [apply frame_copy|]. intros meta w [Hmeta Hw]. revert w Hw.
  change (hoare (frame h0) ?m ?Q ?E) with (hoare (frame h0) m Q E).
  eapply hoare_bind; [by apply frame_pop|]. intros lm.
  apply hoare_stable_bind; [|auto|].
  { destruct lm; auto with stable.
    apply stable_bind; auto with stable. }
  intros lm1.
  apply hoare_stable_bind; [destruct lm1; auto with stable | auto |]. intros t.
  apply hoare_stable_bind; [|auto|].
  { destruct (Datetime.tzinfo t); auto with stable.
    destruct (Datetime.astimezone_utc t z); auto with stable. }
  intros t1.
  apply hoare_stable_bind; [auto with stable | auto |]. intros d1.
  apply hoare_stable_bind; [auto with stable | auto |]. intros size.
  apply hoare_stable_bind; [auto with stable | auto |]. intros m.
  apply hoare_stable_bind; [auto with stable | auto |]. intros enc.
  apply hoare_stable_bind; [auto with stable | auto |]. intros tr.
  apply hoare_stable_bind; [auto with stable | auto |]. intros orig.
  eapply hoare_bind; [apply frame_print|]. intros [].
  destruct verbose; [|by apply hoare_ret].
  apply hoare_stable_bind; [auto with stable | auto |]. intros m2.
  apply frame_print.
Qed.

Lemma frame_for_each (verbose : bool) (bs : list BaseBackupInfo) :
  hoare (frame h0) (for_each bs (print_entry verbose)) (λ _, frame h0) (frame h0).
Proof.
  induction bs as [|b bs IH]; [by apply hoare_ret|].
  cbn [for_each]. eapply hoare_bind; [apply frame_print_entry|]. intros []. exact IH.
Qed.

Lemma frame_print_basebackup_list (bs : list BaseBackupInfo) (caption : string)
    (verbose : bool) :
  hoare (frame h0) (print_basebackup_list bs caption verbose)
    (λ _, frame h0) (frame h0).
Proof.
  unfold print_basebackup_list, print_header.
  apply hoare_bind with (Q := λ _, frame h0); [|intros []; apply frame_for_each].
  apply hoare_bind with (Q := λ _, frame h0); [apply frame_print|]. intros [].
  apply hoare_bind with (Q := λ _, frame h0); [apply frame_print|]. intros [].
  apply frame_print.
Qed.

End Frame.

Example parse_timestamp_gmt :
  Parse.timestamp "2015-02-12 14:07:19 GMT"
  = Return (Datetime.mk 2015 2 12 14 7 19 0 Datetime.utc).
Proof. reflexivity. Qed.

Example parse_timestamp_offset :
  Parse.timestamp "2022-12-18T10:20:30.123456+02:00"
  = Return (Datetime.mk 2022 12 18 10 20 30 123456 (Some 7200000000)).
Proof. reflexivity. Qed.

Example parse_timestamp_bad : Parse.timestamp "yesterday" = Raise (ValueError "yesterday").
Proof. reflexivity. Qed.

Example parse_int_examples :
  Parse.int "1048576" = Return 1048576 ∧ Parse.int "-3" = Return (-3)
  ∧ Parse.int "12a" = Raise (ValueError "12a").
Proof. repeat split. Qed.

Example astimezone_example :
  Datetime.astimezone_utc (Datetime.mk 2023 1 1 0 30 0 0 (Some 7200000000)) 7200000000
  = Some (Datetime.mk 2022 12 31 22 30 0 0 Datetime.utc).
Proof. reflexivity. Qed.

(** ** C10 *)

(** [pop] is destructive: on an object that the caller shares it would be
    seen by the caller. *)
Lemma pop_removes_key_in_place :
  let w := {| heap := {[ 7%nat := ODict [("start-time", VNone); ("x", VInt 1)] ]};
              stdout := []; requests := [] |} in
  (pop 7%nat "start-time" w).2 = Return VNone
  ∧ heap (pop 7%nat "start-time" w).1 !! 7%nat = Some (ODict [("x", VInt 1)]).
Proof. split; reflexivity. Qed.

(** C10: whatever the listing and whether or not printing fails, every
    object that was in the heap before [print_basebackup_list] is in the
    heap afterwards with the same contents; in particular the [data]
    dictionary of every entry and the [metadata] dictionary inside it,
    which still holds [start-time].  The key is removed from a copy at an
    address that was not in use. *)
Theorem print_basebackup_list_leaves_input_unchanged
    (R : Runtime) (basebackups : list BaseBackupInfo) (caption : string)
    (verbose : bool) (w : pworld) :
  let w' := (print_basebackup_list basebackups caption verbose w).1 in
  (∀ l o, heap w !! l = Some o → heap w' !! l = Some o)
  ∧ (∀ b d lm m,
       b ∈ basebackups →
       heap w !! data b = Some (ODict d) →
       Dict.get "metadata" d = Some (VRef lm) →
       heap w !! lm = Some (ODict m) →
       heap w' !! data b = Some (ODict d) ∧ heap w' !! lm = Some (ODict m)).
Proof.
  intros w'.
  assert (frame (heap w) w') as Hframe.
  { pose proof (frame_print_basebackup_list (heap w) basebackups caption verbose w) as H.
    subst w'. destruct (print_basebackup_list basebackups caption verbose w) as [w1 [[]|e]];
      apply H; by intros l o. }
  split; [exact Hframe|].
  intros b d lm m _ Hd _ Hm. split; auto.
Qed.

Lemma print_basebackup_list_leaves_input_unchanged_witness :
  let w' := (@print_basebackup_list offline [twin2; twin1] "Available basebackups" true
               twins_world).1 in
  heap w' !! 0%nat
  = Some (ODict [("name", VStr "a"); ("size", VInt 3145728); ("metadata", VRef 2%nat)])
  ∧ heap w' !! 2%nat
    = Some (ODict [("start-time", VStr "2022-12-10T09:00:00+02:00");
                   ("total-size-plain", VStr "5242880")]).
Proof.
  pose proof (print_basebackup_list_leaves_input_unchanged offline [twin2; twin1]
                "Available basebackups" true twins_world) as [_ H].
  refine (H twin1 _ 2%nat _ _ _ _ _);
    [ apply list_elem_of_In; right; left; reflexivity
    | reflexivity | reflexivity | reflexivity ].
Defined.

(** * The order of the listing *)

Section SortedByName.

Lemma name_le_total (a b : BaseBackupInfo) : name_le a b ∨ name_le b a.
Proof. unfold name_le. destruct (total (≤)%string (name a) (name b)); auto. Qed.

Lemma name_le_trans (a b c : BaseBackupInfo) : name_le a b → name_le b c → name_le a c.
Proof. unfold name_le. intros. by etrans. Qed.

Lemma insert_by_name_perm (b : BaseBackupInfo) (l : list BaseBackupInfo) :
  insert_by_name b l ≡ₚ b :: l.
Proof.
  induction l as [|x r IH]; [done|]. cbn.
  destruct (String.leb (name b) (name x)); [done|].
  rewrite IH. apply Permutation_swap.
Qed.

Lemma sorted_by_name_perm (l : list BaseBackupInfo) : sorted_by_name l ≡ₚ l.
Proof.
  induction l as [|b r IH]; [done|]. cbn.
  rewrite insert_by_name_perm. by rewrite IH.
Qed.

Lemma insert_by_name_sorted (b : BaseBackupInfo) (l : list BaseBackupInfo) :
  StronglySorted name_le l → StronglySorted name_le (insert_by_name b l).
Proof.
  induction 1 as [|x r Hr IH Hx]; cbn.
  - constructor; [constructor | constructor].
  - destruct (String.leb (name b) (name x)) eqn:E.
    + assert (name_le b x) as Hbx by (unfold name_le, String.le; by rewrite E).
      constructor; [by constructor|].
      constructor; [exact Hbx|].
      eapply Forall_impl; [exact Hx|]. intros y Hy. by eapply name_le_trans.
    + assert (name_le x b) as Hxb.
      { destruct (name_le_total b x) as [H|H]; [|exact H].
        unfold name_le, String.le in H. rewrite E in H. destruct H. }
      constructor; [exact IH|].
      rewrite insert_by_name_perm. by constructor.
Qed.

Lemma sorted_by_name_sorted (l : list BaseBackupInfo) :
  StronglySorted name_le (sorted_by_name l).
Proof.
  induction l as [|b r IH]; cbn; [constructor | by apply insert_by_name_sorted].
Qed.

(** [sorted] is stable: an entry is put in front of the entries of the
    same name that follow it. *)
Lemma insert_by_name_front (b x : BaseBackupInfo) (r : list BaseBackupInfo) :
  name b = name x → insert_by_name b (x :: r) = b :: x :: r.
Proof.
  intros E. cbn. rewrite E.
  assert (String.leb (name x) (name x) = true) as ->; [|done].
  pose proof (reflexivity (R := (≤)%string) (name x)) as H.
  unfold String.le in H. by destruct (String.leb (name x) (name x)).
Qed.

(** Two sorted arrangements of entries with pairwise distinct names are equal. *)
Lemma sorted_unique_names (l1 l2 : list BaseBackupInfo) :
  StronglySorted name_le l1 → StronglySorted name_le l2 →
  l1 ≡ₚ l2 → NoDup (name <$> l1) → l1 = l2.
Proof.
  intros H1. revert l2. induction H1 as [|a1 r1 Hr1 IH Ha1]; intros l2 H2 Hp Hnd.
  - by apply Permutation_nil in Hp.
  - destruct H2 as [|a2 r2 Hr2 Ha2].
    { symmetry in Hp. by apply Permutation_nil in Hp. }
    assert (a1 = a2) as ->.
    { assert (a1 ∈ a2 :: r2) as Hin1 by (rewrite <- Hp; left).
      assert (a2 ∈ a1 :: r1) as Hin2 by (rewrite Hp; left).
      apply elem_of_cons in Hin1 as [?|Hin1]; [done|].
      apply elem_of_cons in Hin2 as [?|Hin2]; [done|].
      exfalso.
      rewrite Forall_forall in Ha1, Ha2.
      assert (name a1 = name a2) as E.
      { apply (anti_symm (≤)%string); [apply (Ha1 _ Hin2) | apply (Ha2 _ Hin1)]. }
      cbn in Hnd. apply NoDup_cons in Hnd as [Hnot _]. apply Hnot.
      rewrite E. apply list_elem_of_fmap. by exists a2. }
    f_equal. apply IH; [done | by eapply Permutation_cons_inv |].
    cbn in Hnd. by apply NoDup_cons in Hnd as [_ ?].
Qed.

Lemma sorted_by_name_permutation_invariant (l1 l2 : list BaseBackupInfo) :
  l1 ≡ₚ l2 → NoDup (name <$> l1) → sorted_by_name l1 = sorted_by_name l2.
Proof.
  intros Hp Hnd. apply sorted_unique_names; try apply sorted_by_name_sorted.
  - by rewrite !sorted_by_name_perm.
  - assert (name <$> sorted_by_name l1 ≡ₚ name <$> l1) as ->; [|exact Hnd].
    apply fmap_Permutation, sorted_by_name_perm.
Qed.

End SortedByName.

(** * What the listing prints *)

Section Printed.
Context `{!Runtime}.

Lemma printed_copy (o : list (list print_arg)) (v : value) :
  hoare (printed o) (copy v) (λ _, printed o) (λ _, True).
Proof.
  intros w HP. destruct v; try exact I. cbn.
  destruct (heap w !! l); [exact HP | exact I].
Qed.

Lemma printed_pop (o : list (list print_arg)) (l : loc) (k : string) :
  hoare (printed o) (pop l k) (λ _, printed o) (λ _, True).
Proof.
  intros w HP. unfold pop. destruct (heap w !! l) as [[d|d]|]; try exact I.
  destruct (Dict.get k d); [exact HP | exact I].
Qed.

Lemma printed_print (o : list (list print_arg)) (args : list print_arg) :
  hoare (printed o) (print args) (λ _, printed (o ++ [args])) (λ _, True).
Proof. intros w HP. unfold printed in *. cbn. by rewrite HP. Qed.

Lemma printed_print_entry (o : list (list print_arg)) (verbose : bool)
    (b : BaseBackupInfo) :
  hoare (printed o) (print_entry verbose b)
    (λ _ w, ∃ out, entry_output verbose b out ∧ stdout w = o ++ out) (λ _, True).
Proof.
  unfold print_entry.
  apply hoare_stable_bind; [auto with stable | auto |]. intros d.
  apply hoare_stable_bind; [auto with stable | auto |]. intros md.
  apply hoare_bind with (Q := λ _, printed o); [apply printed_copy|]. intros meta.
  apply hoare_bind with (Q := λ _, printed o); [apply printed_pop|]. intros lm.
  apply hoare_stable_bind; [|auto|].
  { destruct lm; auto with stable.
    apply stable_bind; auto with stable. }
  intros lm1.
  apply hoare_stable_bind; [destruct lm1; auto with stable | auto |]. intros t.
  apply hoare_stable_bind; [|auto|].
  { destruct (Datetime.tzinfo t); auto with stable.
    destruct (Datetime.astimezone_utc t z); auto with stable. }
  intros t1.
  apply hoare_stable_bind; [auto with stable | auto |]. intros d1.
  apply hoare_stable_bind; [auto with stable | auto |]. intros size.
  apply hoare_stable_bind; [auto with stable | auto |]. intros m.
  apply hoare_stable_bind; [auto with stable | auto |]. intros enc.
  apply hoare_stable_bind; [auto with stable | auto |]. intros tr.
  apply hoare_stable_bind; [auto with stable | auto |]. intros orig.
  eapply hoare_bind; [apply printed_print|]. intros [].
  destruct verbose.
  - apply hoare_stable_bind; [auto with stable | auto |]. intros m2.
    intros w Hw. cbn. unfold printed in Hw. rewrite Hw.
    eexists. split; [by eexists _, _, _, _|]. by rewrite <- app_assoc.
  - apply hoare_ret. intros w Hw. eexists. split; [by eexists _, _, _, []|exact Hw].
Qed.

Lemma printed_for_each (verbose : bool) (bs : list BaseBackupInfo) :
  ∀ o, hoare (printed o) (for_each bs (print_entry verbose))
         (λ _ w, ∃ rows, Forall2 (entry_output verbose) bs rows
                         ∧ stdout w = o ++ concat rows) (λ _, True).
Proof.
  induction bs as [|b bs IH]; intros o.
  - apply hoare_ret. intros w Hw. exists []. split; [constructor|].
    cbn. by rewrite app_nil_r.
  - cbn [for_each]. eapply hoare_bind; [apply printed_print_entry|].
    intros [] w (out & Hout & Hw).
    specialize (IH (o ++ out) w Hw).
    destruct (for_each bs (print_entry verbose) w) as [w' [[]|e]]; [|exact I].
    destruct IH as (rows & Hrows & Hw').
    exists (out :: rows). split; [by constructor|].
    cbn. by rewrite Hw', <- app_assoc.
Qed.

Lemma printed_print_basebackup_list (bs : list BaseBackupInfo) (caption : string)
    (verbose : bool) (o : list (list print_arg)) :
  hoare (printed o) (print_basebackup_list bs caption verbose)
    (λ _ w, ∃ rows, Forall2 (entry_output verbose) (sorted_by_name bs) rows
                    ∧ stdout w = o ++ header_output caption ++ concat rows)
    (λ _, True).
Proof.
  unfold print_basebackup_list, print_header.
  apply hoare_bind with (Q := λ _, printed (o ++ header_output caption)).
  - eapply hoare_bind; [apply printed_print|]. intros [].
    eapply hoare_bind; [apply printed_print|]. intros [].
    intros w Hw. cbn. unfold printed in *. rewrite Hw.
    unfold header_output. by rewrite <- !app_assoc.
  - intros [] w Hw.
    pose proof (printed_for_each verbose (sorted_by_name bs) _ w Hw) as H'.
    destruct (for_each _ _ w) as [w' [[]|e]]; [|exact I].
    destruct H' as (rows & Hrows & Hw'). exists rows. split; [done|].
    by rewrite Hw', <- app_assoc.
Qed.

End Printed.

(** ** C9 *)

(** Stability in full: the entries of one name come out in input order. *)
Lemma insert_by_name_filter (n : string) (b : BaseBackupInfo) (l : list BaseBackupInfo) :
  filter (λ x, name x = n) (insert_by_name b l) = filter (λ x, name x = n) (b :: l).
Proof.
  induction l as [|x r IH]; [done|]. cbn [insert_by_name].
  destruct (String.leb (name b) (name x)) eqn:E; [done|].
  assert (name x ≠ name b) as Hne.
  { intros Heq. rewrite Heq in E.
    pose proof (reflexivity (R := (≤)%string) (name b)) as H.
    unfold String.le in H. by rewrite E in H. }
  rewrite (filter_cons _ x), IH, !filter_cons.
  destruct (decide (name x = n)) as [Hx|Hx], (decide (name b = n)) as [Hb|Hb];
    try done. congruence.
Qed.

Lemma sorted_by_name_stable (n : string) (l : list BaseBackupInfo) :
  filter (λ x, name x = n) (sorted_by_name l) = filter (λ x, name x = n) l.
Proof.
  induction l as [|b r IH]; [done|]. cbn [sorted_by_name].
  rewrite insert_by_name_filter, !filter_cons, IH. done.
Qed.

(** C9, as the code has it: [print_basebackup_list] prints the three header
    lines and then, for each entry of the listing exactly once and in
    ascending order of name, the row of that entry (followed by its
    metadata line when verbose).  Entries of the same name are printed in
    input order, so the output is the same for every permutation of a
    listing whose names are pairwise distinct.  [show_basebackup_list]
    prints the result of [list_basebackups] in this way. *)
Theorem print_basebackup_list_rows_in_name_order
    (R : Runtime) (basebackups : list BaseBackupInfo) (caption : string)
    (verbose : bool) (w : pworld) :
  StronglySorted name_le (sorted_by_name basebackups)
  ∧ sorted_by_name basebackups ≡ₚ basebackups
  ∧ (∀ n, filter (λ x, name x = n) (sorted_by_name basebackups)
          = filter (λ x, name x = n) basebackups)
  ∧ (∀ w', print_basebackup_list basebackups caption verbose w = (w', Return ()) →
           ∃ rows, Forall2 (entry_output verbose) (sorted_by_name basebackups) rows
                   ∧ stdout w' = stdout w ++ header_output caption ++ concat rows)
  ∧ (∀ basebackups',
       basebackups ≡ₚ basebackups' → NoDup (name <$> basebackups) →
       print_basebackup_list basebackups' caption verbose w
       = print_basebackup_list basebackups caption verbose w)
  ∧ (∀ (self : ObjectStore) w',
       show_basebackup_list self verbose w = (w', Return ()) →
       ∃ result w1 site0 rows,
         store_list_basebackups self w = (w1, Return result)
         ∧ head (store_sites self) = Some site0
         ∧ Forall2 (entry_output verbose) (sorted_by_name result) rows
         ∧ stdout w' = stdout w1
                       ++ header_output ("Available " +:+ repr_str site0 +:+ " basebackups:")
                       ++ concat rows).
Proof.
  split; [apply sorted_by_name_sorted|].
  split; [apply sorted_by_name_perm|].
  split; [intros n; apply sorted_by_name_stable|].
  split; [|split].
  - intros w' Hrun.
    pose proof (printed_print_basebackup_list basebackups caption verbose (stdout w) w
                  eq_refl) as H.
    rewrite Hrun in H. exact H.
  - intros bs' Hp Hnd. unfold print_basebackup_list.
    by rewrite (sorted_by_name_permutation_invariant _ _ Hp Hnd).
  - intros self w' Hrun. unfold show_basebackup_list, bind, M_bind in Hrun.
    destruct (store_list_basebackups self w) as [w1 [result|e]]; [|discriminate].
    destruct (store_sites self) as [|site0 rest]; [discriminate|].
    exists result, w1, site0.
    pose proof (printed_print_basebackup_list result
                  ("Available " +:+ repr_str site0 +:+ " basebackups:") verbose
                  (stdout w1) w1 eq_refl) as H.
    rewrite Hrun in H. destruct H as (rows & Hrows & Hout).
    exists rows. auto.
Qed.

Lemma print_basebackup_list_rows_in_name_order_witness :
  @print_basebackup_list offline [entry_b; entry_a] "Available basebackups" true twins_world
  = @print_basebackup_list offline [entry_a; entry_b] "Available basebackups" true twins_world
  ∧ ∃ rows,
      Forall2 (entry_output true) [entry_a; entry_b] rows
      ∧ stdout (@print_basebackup_list offline [entry_b; entry_a] "Available basebackups"
                  true twins_world).1
        = header_output "Available basebackups" ++ concat rows.
Proof.
  pose proof (print_basebackup_list_rows_in_name_order offline [entry_a; entry_b]
                "Available basebackups" true twins_world) as (_ & _ & _ & _ & Hperm & _).
  pose proof (print_basebackup_list_rows_in_name_order offline [entry_b; entry_a]
                "Available basebackups" true twins_world) as (_ & _ & _ & Hrows & _).
  split.
  - apply Hperm; [apply Permutation_swap|].
    cbn. apply NoDup_cons. split; [|apply NoDup_singleton].
    rewrite list_elem_of_singleton. discriminate.
  - destruct (@print_basebackup_list offline [entry_b; entry_a] "Available basebackups"
                true twins_world) as [w' r] eqn:Hrun.
    assert (r = Return ()) as -> by (vm_compute in Hrun; congruence).
    exact (Hrows w' eq_refl).
Defined.

(** C9 as stated fails for two entries of the same name: each order of the
    input prints the rows in that order. *)
Lemma print_basebackup_list_permutation_counterexample :
  let run bs := @print_basebackup_list offline bs "Available basebackups" false twins_world in
  [twin1; twin2] ≡ₚ [twin2; twin1]
  ∧ (run [twin1; twin2]).2 = Return ()
  ∧ (run [twin2; twin1]).2 = Return ()
  ∧ stdout (run [twin1; twin2]).1
    = header_output "Available basebackups"
      ++ [[PStr (fmt "a" "3 MB" "5 MB" "2022-12-10T07:00:00Z")];
          [PStr (fmt "a" "1 MB" "n/a" "2022-12-11T08:00:00Z")]]
  ∧ stdout (run [twin2; twin1]).1
    = header_output "Available basebackups"
      ++ [[PStr (fmt "a" "1 MB" "n/a" "2022-12-11T08:00:00Z")];
          [PStr (fmt "a" "3 MB" "5 MB" "2022-12-10T07:00:00Z")]]
  ∧ stdout (run [twin1; twin2]).1 ≠ stdout (run [twin2; twin1]).1.
Proof.
  cbv zeta. split; [apply Permutation_swap|].
  split; [compute_done|]. split; [compute_done|].
  split; [compute_done|]. split; [compute_done|].
  vm_compute. discriminate.
Qed.

(** * Decoded documents as Python objects *)

Section JsonInduction.
Variable P : json → Prop.
Hypothesis HNull : P JNull.
Hypothesis HBool : ∀ b, P (JBool b).
Hypothesis HInt : ∀ n, P (JInt n).
Hypothesis HString : ∀ s, P (JString s).
Hypothesis HArray : ∀ items, Forall P items → P (JArray items).
Hypothesis HObject : ∀ fields, Forall P fields.*2 → P (JObject fields).

Fixpoint json_nested_ind (j : json) : P j :=
  match j with
  | JNull => HNull
  | JBool b => HBool b
  | JInt n => HInt n
  | JString s => HString s
  | JArray items =>
      HArray items
        ((fix go (l : list json) : Forall P l :=
            match l with
            | [] => @List.Forall_nil _ P
            | x :: r => @List.Forall_cons _ P x _ (json_nested_ind x) (go r)
            end) items)
  | JObject fields =>
      HObject fields
        ((fix go (l : list (string * json)) : Forall P l.*2 :=
            match l with
            | [] => @List.Forall_nil _ P
            | (k, x) :: r => @List.Forall_cons _ P x _ (json_nested_ind x) (go r)
            end) fields)
  end.

End JsonInduction.

Lemma frame_refl (w : pworld) : frame (heap w) w.
Proof. by intros l o. Qed.

Lemma frame_trans (h : gmap loc object) (w1 w2 : pworld) :
  frame h w1 → frame (heap w1) w2 → frame h w2.
Proof. intros H1 H2 l o Hl. by apply H2, H1. Qed.

Lemma new_object_spec (o : object) (w : pworld) :
  heap (new_object o w).1 !! (new_object o w).2 = Some o
  ∧ frame (heap w) (new_object o w).1
  ∧ stdout (new_object o w).1 = stdout w
  ∧ requests (new_object o w).1 = requests w.
Proof.
  unfold new_object. cbn. split; [apply lookup_insert_eq|]. split; [|done].
  intros l ol Hl. cbn. rewrite lookup_insert_ne; [done|].
  intros <-. apply (is_fresh (dom (heap w))). apply elem_of_dom. by exists ol.
Qed.

Lemma Forall2_impl_each {A B} (R R' : A → B → Prop) (xs : list A) (ys : list B) :
  Forall2 R xs ys → Forall (λ y, ∀ x, R x y → R' x y) ys → Forall2 R' xs ys.
Proof.
  induction 1 as [|x y xs ys Hxy _ IH]; intros Hall; [constructor|].
  apply Forall_cons in Hall as [Hy Hys]. constructor; auto.
Qed.

(** Objects that are only added to do not change what a value stands for. *)
Lemma represents_mono (h h' : gmap loc object) (j : json) :
  (∀ l o, h !! l = Some o → h' !! l = Some o) →
  ∀ v, represents h v j → represents h' v j.
Proof.
  intros Hsub. induction j as [| | | |items IH|fields IH] using json_nested_ind;
    intros v Hv; inversion Hv; subst.
  - constructor.
  - constructor.
  - constructor.
  - constructor.
  - econstructor; [by apply Hsub|]. by eapply Forall2_impl_each.
  - econstructor; [by apply Hsub|]. by eapply Forall2_impl_each.
Qed.

Lemma map_state_materialized {A} (f : A → json) (l : list A)
    (mat : A → pworld → pworld * value) :
  (∀ x w, mat x w = materialize (f x) w) →
  Forall materialized (f <$> l) →
  ∀ w, Forall2 (represents (heap (map_state mat l w).1)) (map_state mat l w).2 (f <$> l)
       ∧ frame (heap w) (map_state mat l w).1
       ∧ stdout (map_state mat l w).1 = stdout w
       ∧ requests (map_state mat l w).1 = requests w.
Proof.
  intros Hmat. induction l as [|x r IH]; intros Hall w; cbn.
  - split; [constructor|]. split; [apply frame_refl | done].
  - cbn in Hall. apply Forall_cons in Hall as [Hx Hr].
    rewrite Hmat. destruct (Hx w) as (Hrep & Hfr & Hout & Hreq).
    destruct (materialize (f x) w) as [w1 v]. cbn [fst snd] in *.
    destruct (IH Hr w1) as (Hreps & Hfr2 & Hout2 & Hreq2).
    destruct (map_state mat r w1) as [w2 vs]. cbn [fst snd] in *.
    split; [|split; [by eapply frame_trans | split; congruence]].
    constructor; [|exact Hreps]. eapply represents_mono; [exact Hfr2 | exact Hrep].
Qed.

Lemma materialize_spec (j : json) : materialized j.
Proof.
  induction j as [| | | |items IH|fields IH] using json_nested_ind; intros w;
    try (cbn; split; [constructor | split; [apply frame_refl | done]]).
  - cbn [materialize].
    pose proof (map_state_materialized id items materialize (λ _ _, eq_refl)) as H.
    rewrite list_fmap_id in H. destruct (H IH w) as (Hreps & Hfr & Hout & Hreq).
    destruct (map_state materialize items w) as [w1 vs]. cbn [fst snd] in *.
    destruct (new_object_spec (OList vs) w1) as (Hl & Hfr2 & Hout2 & Hreq2).
    destruct (new_object (OList vs) w1) as [w2 l]. cbn [fst snd] in *.
    split; [|split; [by eapply frame_trans | split; congruence]].
    econstructor; [exact Hl|].
    eapply Forall2_impl; [exact Hreps|]. intros v x. by apply represents_mono.
  - cbn [materialize].
    pose proof (map_state_materialized snd fields
                  (λ kv, let '(_, j) := kv in materialize j)) as H.
    destruct (H ltac:(by intros [] ?) IH w) as (Hreps & Hfr & Hout & Hreq).
    destruct (map_state _ fields w) as [w1 vs]. cbn [fst snd] in *.
    set (d := ODict (Dict.build (zip fields.*1 vs))).
    destruct (new_object_spec d w1) as (Hl & Hfr2 & Hout2 & Hreq2).
    destruct (new_object d w1) as [w2 l]. cbn [fst snd] in *.
    split; [|split; [by eapply frame_trans | split; congruence]].
    econstructor; [exact Hl|].
    eapply Forall2_impl; [exact Hreps|]. intros v x. by apply represents_mono.
Qed.

(** ** Members of a decoded object *)

Lemma dict_get_set (k k' : string) (v : value) (d : list (string * value)) :
  Dict.get k (Dict.set k' v d) = if decide (k = k') then Some v else Dict.get k d.
Proof.
  induction d as [|[k0 v0] r IH]; cbn.
  - destruct (decide (k = k')); done.
  - destruct (decide (k' = k0)) as [->|Hne]; cbn.
    + destruct (decide (k = k0)); done.
    + destruct (decide (k = k0)) as [->|]; [|exact IH].
      by destruct (decide (k0 = k')); [congruence|].
Qed.

Lemma json_get_represented (h : gmap loc object) (k : string)
    (fields : list (string * json)) (vs : list value) (j : json) :
  Forall2 (represents h) vs fields.*2 →
  json_get k fields = Some j →
  ∃ v, Dict.get k (Dict.build (zip fields.*1 vs)) = Some v ∧ represents h v j.
Proof.
  unfold json_get, Dict.build.
  assert (∀ (acc : list (string * value)) (accj : option json),
            match accj with
            | Some j => ∃ v, Dict.get k acc = Some v ∧ represents h v j
            | None => True
            end →
            ∀ vs, Forall2 (represents h) vs fields.*2 →
            match foldl (λ a kv, if decide (k = kv.1) then Some kv.2 else a) accj fields with
            | Some j => ∃ v, Dict.get k (foldl (λ a kv, Dict.set kv.1 kv.2 a) acc
                                           (zip fields.*1 vs)) = Some v
                             ∧ represents h v j
            | None => True
            end) as Hgen.
  { clear vs j. induction fields as [|[k0 j0] r IH]; intros acc accj Hacc vs Hvs.
    - inversion Hvs; subst. exact Hacc.
    - inversion Hvs as [|v ? vs' ? Hv Hvs']; subst. cbn.
      apply IH; [|exact Hvs'].
      cbn. destruct (decide (k = k0)) as [->|Hne].
      + exists v. rewrite dict_get_set. by destruct (decide (k0 = k0)).
      + destruct accj as [ja|]; [|done].
        destruct Hacc as (va & Hga & Hra). exists va.
        rewrite dict_get_set. by destruct (decide (k = k0)). }
  intros Hvs Hget. specialize (Hgen [] None I vs Hvs). by rewrite Hget in Hgen.
Qed.

(** ** C8 *)

Section HttpListing.
Context `{!Runtime}.

Lemma lists_element_mono (h h' : gmap loc object) (b : BaseBackupInfo)
    (x : string * (string * json)) :
  (∀ l o, h !! l = Some o → h' !! l = Some o) →
  lists_element h b x → lists_element h' b x.
Proof.
  intros Hsub (Hs & Hn & Hr). repeat split; [done..|]. by eapply represents_mono.
Qed.

Lemma make_info_named (site : string) (w : pworld) (v : value) (e : json)
    (x : string * json) :
  represents (heap w) v e → named_element e = Some x →
  ∃ b, make_info site v w = (w, Return b) ∧ lists_element (heap w) b (site, x).
Proof.
  intros Hv Hx. destruct e as [| | | | |fields]; try discriminate. cbn in Hx.
  destruct (json_get "name" fields) as [[| | |n| |]|] eqn:Hget; try discriminate.
  injection Hx as <-.
  inversion Hv as [| | | | |l vs ? Hl Hvs]; subst.
  destruct (json_get_represented _ _ _ _ _ Hvs Hget) as (vn & Hvn & Hrn).
  inversion Hrn; subst.
  exists {| name := n; site := site; data := l |}. split; [|by repeat split].
  unfold make_info, subscript_value, bind, M_bind, load_dict, lift, subscript.
  by rewrite Hl, Hvn.
Qed.

Lemma collect_make_info (site : string) (w : pworld) (es : list json) :
  ∀ vs xs,
    Forall2 (represents (heap w)) vs es → named_elements es = Some xs →
    ∃ infos, collect (make_info site) vs w = (w, Return infos)
             ∧ Forall2 (lists_element (heap w)) infos ((λ x, (site, x)) <$> xs).
Proof.
  induction es as [|e r IH]; intros vs xs Hvs Hxs.
  - inversion Hvs; subst. injection Hxs as <-. exists []. split; [done | constructor].
  - inversion Hvs as [|v ? vs' ? Hv Hvs']; subst. cbn in Hxs.
    destruct (named_element e) as [x|] eqn:Hx; [|discriminate].
    destruct (named_elements r) as [xr|] eqn:Hr; [|discriminate].
    injection Hxs as <-.
    destruct (make_info_named site w v e x Hv Hx) as (b & Hb & Hbx).
    destruct (IH vs' xr Hvs' eq_refl) as (infos & Hrun & Hall).
    exists (b :: infos). split; [|by constructor].
    cbn [collect]. unfold bind, M_bind. rewrite Hb. fold (@bind pworld).
    unfold bind, M_bind. by rewrite Hrun.
Qed.

(** One site: one request, and one entry per element of the answer. *)
Lemma list_site_basebackups_spec (self : HTTPRestore) (site : string) (w : pworld)
    (doc : json) (xs : list (string * json)) :
  http_get_json (_url self "basebackup" site) = Return doc →
  listing_of doc = Some xs →
  ∃ w' infos,
    list_site_basebackups self site w = (w', Return infos)
    ∧ requests w' = requests w ++ [_url self "basebackup" site]
    ∧ stdout w' = stdout w
    ∧ frame (heap w) w'
    ∧ Forall2 (lists_element (heap w')) infos ((λ x, (site, x)) <$> xs).
Proof.
  intros Hget Hxs. destruct doc as [| | | | |fields]; try discriminate. cbn in Hxs.
  destruct (json_get "basebackups" fields) as [[| | | |es|]|] eqn:Hbb; try discriminate.
  set (w0 := {| heap := heap w; stdout := stdout w;
                requests := requests w ++ [_url self "basebackup" site] |}).
  destruct (materialize_spec (JObject fields) w0) as (Hrep & Hfr & Hout & Hreq).
  destruct (materialize (JObject fields) w0) as [w1 v] eqn:Hmat. cbn [fst snd] in *.
  inversion Hrep as [| | | | |l vs ? Hl Hvs]; subst.
  destruct (json_get_represented _ _ _ _ _ Hvs Hbb) as (va & Hva & Hra).
  inversion Hra as [| | | |la items ? Hla Hitems|]; subst.
  destruct (collect_make_info site w1 es items xs Hitems Hxs) as (infos & Hrun & Hall).
  exists w1, infos. split; [|by repeat split].
  unfold list_site_basebackups, session_get_json, bind, M_bind. rewrite Hget.
  fold w0. rewrite Hmat.
  unfold subscript_value, bind, M_bind, load_dict, lift, subscript. rewrite Hl, Hva.
  unfold iterate. rewrite Hla. exact Hrun.
Qed.

Lemma collect_sites_spec (self : HTTPRestore) (ss : list string) :
  ∀ w exp,
    expected_listing self ss = Some exp →
    ∃ w' per_site,
      collect (list_site_basebackups self) ss w = (w', Return per_site)
      ∧ requests w' = requests w ++ (_url self "basebackup" <$> ss)
      ∧ stdout w' = stdout w
      ∧ frame (heap w) w'
      ∧ Forall2 (lists_element (heap w')) (concat per_site) exp.
Proof.
  induction ss as [|s r IH]; intros w exp Hexp.
  - injection Hexp as <-. exists w, []. cbn. rewrite app_nil_r.
    repeat split; [apply frame_refl | constructor].
  - cbn in Hexp.
    destruct (http_get_json (_url self "basebackup" s)) as [doc|] eqn:Hget; [|discriminate].
    destruct (listing_of doc) as [xs|] eqn:Hxs; [|discriminate].
    destruct (expected_listing self r) as [rest|] eqn:Hrest; [|discriminate].
    injection Hexp as <-.
    destruct (list_site_basebackups_spec self s w doc xs Hget Hxs)
      as (w1 & infos & Hrun1 & Hreq1 & Hout1 & Hfr1 & Hall1).
    destruct (IH w1 rest eq_refl) as (w2 & per & Hrun2 & Hreq2 & Hout2 & Hfr2 & Hall2).
    exists w2, (infos :: per). split.
    { cbn [collect]. unfold bind, M_bind. rewrite Hrun1. fold (@bind pworld).
      unfold bind, M_bind. by rewrite Hrun2. }
    split; [rewrite Hreq2, Hreq1; cbn; by rewrite <- app_assoc|].
    split; [congruence|]. split; [by eapply frame_trans|].
    cbn [concat]. apply Forall2_app; [|exact Hall2].
    eapply Forall2_impl; [exact Hall1|]. intros b x. by apply lists_element_mono.
Qed.

End HttpListing.

Lemma lists_element_names (h : gmap loc object) (result : list BaseBackupInfo)
    (exp : list (string * (string * json))) :
  Forall2 (lists_element h) result exp →
  name <$> result = (λ x, x.2.1) <$> exp ∧ site <$> result = (λ x, x.1) <$> exp.
Proof.
  induction 1 as [|b x bs xs (Hs & Hn & _) _ [IHn IHs]]; [done|].
  cbn. by rewrite Hs, Hn, IHn, IHs.
Qed.

(** C8: when every configured site answers [GET http://host:port/site/basebackup]
    with a document whose ["basebackups"] member is an array of objects with
    a string ["name"], [HTTPRestore.list_basebackups] requests exactly these
    URLs in site order and returns, concatenated in site order, one entry
    per element of each array: its name is the element's ["name"], its site
    the requested site, and its data the dictionary that stands for the
    whole element.  Nothing is printed and no existing object is changed. *)
Theorem http_list_basebackups_one_entry_per_element
    (R : Runtime) (self : HTTPRestore) (w : pworld)
    (exp : list (string * (string * json))) :
  expected_listing self (sites self) = Some exp →
  ∃ w' result,
    list_basebackups self w = (w', Return result)
    ∧ requests w'
      = requests w
        ++ ((λ s, "http://" +:+ host self +:+ ":" +:+ port self +:+ "/" +:+ s
                  +:+ "/basebackup") <$> sites self)
    ∧ length result = length exp
    ∧ Forall2 (lists_element (heap w')) result exp
    ∧ frame (heap w) w'
    ∧ stdout w' = stdout w.
Proof.
  intros Hexp.
  destruct (collect_sites_spec self (sites self) w exp Hexp)
    as (w' & per & Hrun & Hreq & Hout & Hfr & Hall).
  exists w', (concat per). split.
  { unfold list_basebackups, bind, M_bind. by rewrite Hrun. }
  split; [exact Hreq|]. split; [by eapply Forall2_length|]. auto.
Qed.

Lemma http_list_basebackups_one_entry_per_element_witness :
  ∃ w' result,
    @list_basebackups (runtime_with two_sites) two_sites_restore empty_world
    = (w', Return result)
    ∧ requests w' = ["http://localhost:16000/alpha/basebackup";
                     "http://localhost:16000/beta/basebackup"]
    ∧ (name <$> result) = ["2022-12-10_0"; "2022-12-09_0"; "2022-12-11_0"]
    ∧ (site <$> result) = ["alpha"; "alpha"; "beta"].
Proof.
  destruct (@expected_listing (runtime_with two_sites) two_sites_restore
              (sites two_sites_restore)) as [exp|] eqn:Hexp;
    vm_compute in Hexp; [|discriminate].
  destruct (http_list_basebackups_one_entry_per_element (runtime_with two_sites)
              two_sites_restore empty_world exp)
    as (w' & result & Hrun & Hreq & _ & Hall & _).
  { rewrite <- Hexp. vm_compute. reflexivity. }
  exists w', result. split; [exact Hrun|]. split; [exact Hreq|].
  destruct (lists_element_names _ _ _ Hall) as [Hn Hs]. rewrite Hn, Hs.
  injection Hexp as <-. split; reflexivity.
Defined.

(** * Delta hashes of earlier backups *)

Section FetchFacts.
Import Delta.
Variable download : string → outcome manifest.
Variable prefix : string.
Variable select : BaseBackupFormat → bool.

Lemma fetch_from_spec (backups : list remote_basebackup) :
  ∀ fetched hashes fetched' result,
    fetch_from download prefix select backups fetched hashes = (fetched', Return result) →
    fetched' = fetched ++ (manifest_key prefix <$> filter (λ b, select (bb_format b) = true) backups)
    ∧ (∀ h n, result !! h = Some n →
              hashes !! h = Some n
              ∨ ∃ b, b ∈ backups ∧ contributes download prefix select b h n)
    ∧ (∀ h, is_Some (hashes !! h) → is_Some (result !! h))
    ∧ (∀ b h n, b ∈ backups → contributes download prefix select b h n →
                is_Some (result !! h)).
Proof.
  induction backups as [|b r IH]; intros fetched hashes fetched' result Hrun;
    cbn [fetch_from] in Hrun.
  - injection Hrun as <- <-. rewrite app_nil_r. repeat split; auto.
    intros b h n Hb. by apply elem_of_nil in Hb.
  - rewrite filter_cons. destruct (select (bb_format b)) eqn:Hsel.
    + destruct (download (manifest_key prefix b)) as [m|e] eqn:Hd; [|discriminate].
      destruct (IH _ _ _ _ Hrun) as (Hf & Hfrom & Hkeep & Hall).
      rewrite decide_True by done.
      split; [rewrite Hf, <- app_assoc; done|].
      split; [|split].
      * intros h n Hh. destruct (Hfrom h n Hh) as [Hacc|(b' & Hb' & Hc)].
        -- destruct (delta_stats_hashes m) as [hs|] eqn:Hm; [|by left].
           apply lookup_union_Some_raw in Hacc as [Hhs|[_ Hold]]; [|by left].
           right. exists b. split; [left|]. split; [done|]. by exists m, hs.
        -- right. exists b'. split; [by right | done].
      * intros h Hh. apply Hkeep.
        destruct (delta_stats_hashes m) as [hs|]; [|done].
        destruct Hh as [n Hn]. destruct (hs !! h) as [n'|] eqn:Hhs.
        -- exists n'. by apply lookup_union_Some_l.
        -- exists n. rewrite lookup_union_r; done.
      * intros b' h n Hb' Hc. apply elem_of_cons in Hb' as [->|Hb']; [|by eapply Hall].
        apply Hkeep. destruct Hc as (_ & m' & hs & Hd' & Hm' & Hh).
        rewrite Hd in Hd'. injection Hd' as <-. rewrite Hm'.
        exists n. by apply lookup_union_Some_l.
    + destruct (IH _ _ _ _ Hrun) as (Hf & Hfrom & Hkeep & Hall).
      rewrite decide_False by done.
      split; [done|]. split; [|split; [done|]].
      * intros h n Hh. destruct (Hfrom h n Hh) as [?|(b' & Hb' & Hc)]; [by left|].
        right. exists b'. split; [by right | done].
      * intros b' h n Hb' Hc. apply elem_of_cons in Hb' as [->|Hb']; [|by eapply Hall].
        destruct Hc as [Hc _]. congruence.
Qed.

End FetchFacts.

(** ** C6 *)

(** C6: [fetch_all_data_files_hashes] fetches the manifest blob of exactly
    those listed backups whose format is [delta-v1] or [delta-v2] or the
    [v2] of the [local-tar-delta-stats] mode, in listing order, skipping
    [v1], and returns the union of the [delta_stats.hashes] maps of the
    fetched manifests that have [delta_stats]: every digest of the result
    comes with its length from such a manifest, and every digest of such a
    manifest is in the result, so no other manifest contributes.  On the
    listing of the test the result is the three digests expected there. *)
Theorem fetch_all_data_files_hashes_union
    (download : string → outcome Delta.manifest) (prefix : string)
    (backups : list Delta.remote_basebackup)
    (fetched : list string) (result : gmap string Z) :
  Delta.fetch_all_data_files_hashes download prefix backups = (fetched, Return result) →
  fetched = Delta.manifest_key prefix
              <$> filter (λ b, Delta.carries_hashes (Delta.bb_format b) = true) backups
  ∧ (∀ f, Delta.carries_hashes f = true ↔ f ≠ Delta.v1)
  ∧ (∀ h n, result !! h = Some n →
            ∃ b, b ∈ backups ∧ Delta.contributes download prefix Delta.carries_hashes b h n)
  ∧ (∀ b h n, b ∈ backups → Delta.contributes download prefix Delta.carries_hashes b h n →
              is_Some (result !! h))
  ∧ Delta.fetch_all_data_files_hashes Delta.fake_download_backup_meta_file "a/b/c"
      Delta.test_backups
    = ([ "a/b/c/basebackup/backup1"; "a/b/c/basebackup/backup2";
         "a/b/c/basebackup/backup3"; "a/b/c/basebackup/backup4";
         "a/b/c/basebackup/backup5" ], Return Delta.test_expected).
Proof.
  intros Hrun. unfold Delta.fetch_all_data_files_hashes in Hrun.
  destruct (fetch_from_spec _ _ _ _ _ _ _ _ Hrun) as (Hf & Hfrom & _ & Hall).
  split; [exact Hf|]. split; [|split; [|split; [exact Hall|]]].
  - intros []; split; intros H; try done.
  - intros h n Hh. destruct (Hfrom h n Hh) as [Hempty|H]; [|exact H].
    by rewrite lookup_empty in Hempty.
  - compute_done.
Qed.

Lemma fetch_all_data_files_hashes_union_witness :
  ∃ b, b ∈ Delta.test_backups
       ∧ Delta.bb_format b = Delta.v2
       ∧ Delta.contributes Delta.fake_download_backup_meta_file "a/b/c" Delta.carries_hashes
           b Delta.hash_b 8192.
Proof.
  pose proof (fetch_all_data_files_hashes_union Delta.fake_download_backup_meta_file
                "a/b/c" Delta.test_backups
                [ "a/b/c/basebackup/backup1"; "a/b/c/basebackup/backup2";
                  "a/b/c/basebackup/backup3"; "a/b/c/basebackup/backup4";
                  "a/b/c/basebackup/backup5" ] Delta.test_expected) as H.
  destruct H as (_ & _ & Hfrom & _); [compute_done|].
  destruct (Hfrom Delta.hash_b 8192) as (b & Hb & Hc); [compute_done|].
  exists b. split; [exact Hb|]. split; [|exact Hc].
  destruct Hc as (_ & m & hs & Hd & Hm & Hh).
  unfold Delta.test_backups in Hb.
  repeat (apply elem_of_cons in Hb as [->|Hb]); try (by apply elem_of_nil in Hb);
    try reflexivity; exfalso; vm_compute in Hd; injection Hd as <-;
    vm_compute in Hm; try discriminate; injection Hm as <-; vm_compute in Hh; discriminate.
Defined.

(** * The backup label *)

Section LabelFacts.
Import Label.

Example parse_test_label :
  parse_backup_label test_label
  = Return ("000000010000000000000004", "2015-02-12T14:07:19+00:00").
Proof. vm_compute. reflexivity. Qed.

Lemma scan_wal_line (st : found) :
  scan_line st wal_line = Return (Some "000000010000000000000004", st.2).
Proof. destruct st. reflexivity. Qed.

Lemma scan_time_line (st : found) :
  scan_line st time_line = Return (st.1, Some "2015-02-12T14:07:19+00:00").
Proof. destruct st. vm_compute. reflexivity. Qed.

Lemma scan_other_line (st : found) (line : string) :
  PyStr.startswith "START WAL LOCATION" line = false →
  PyStr.startswith "START TIME: " line = false →
  scan_line st line = Return st.
Proof. intros H1 H2. unfold scan_line. by rewrite H1, H2. Qed.

(** Scanning lines among which only [wal_line] and [time_line] carry the
    two prefixes ends with what these two lines say. *)
Lemma scan_only_known_lines (lines : list string) :
  (∀ l, In l lines → PyStr.startswith "START WAL LOCATION" l = true → l = wal_line) →
  (∀ l, In l lines → PyStr.startswith "START TIME: " l = true → l = time_line) →
  ∀ st, ∃ st',
    scan lines st = Return st'
    ∧ (In wal_line lines ∨ st.1 = Some "000000010000000000000004" →
       st'.1 = Some "000000010000000000000004")
    ∧ (In time_line lines ∨ st.2 = Some "2015-02-12T14:07:19+00:00" →
       st'.2 = Some "2015-02-12T14:07:19+00:00").
Proof.
  induction lines as [|l r IH]; intros Hw Ht st.
  - exists st. cbn. repeat split; intros [[]|H]; exact H.
  - assert (∀ x, In x r → PyStr.startswith "START WAL LOCATION" x = true → x = wal_line)
      as Hw' by (intros x Hx; apply Hw; by right).
    assert (∀ x, In x r → PyStr.startswith "START TIME: " x = true → x = time_line)
      as Ht' by (intros x Hx; apply Ht; by right).
    cbn [scan].
    destruct (PyStr.startswith "START WAL LOCATION" l) eqn:E1.
    { rewrite (Hw l (or_introl eq_refl) E1), scan_wal_line. cbn [outcome_bind].
      destruct (IH Hw' Ht' (Some "000000010000000000000004", st.2))
        as (st' & Hrun & H1 & H2).
      exists st'. split; [exact Hrun|]. split.
      - intros _. apply H1. by right.
      - intros [[Heq|Hin]|Hst]; apply H2; cbn; auto.
        discriminate Heq. }
    destruct (PyStr.startswith "START TIME: " l) eqn:E2.
    { rewrite (Ht l (or_introl eq_refl) E2), scan_time_line. cbn [outcome_bind].
      destruct (IH Hw' Ht' (st.1, Some "2015-02-12T14:07:19+00:00"))
        as (st' & Hrun & H1 & H2).
      exists st'. split; [exact Hrun|]. split.
      - intros [[Heq|Hin]|Hst]; apply H1; cbn; auto.
        discriminate Heq.
      - intros _. apply H2. by right. }
    rewrite (scan_other_line st l E1 E2). cbn [outcome_bind].
    destruct (IH Hw' Ht' st) as (st' & Hrun & H1 & H2).
    exists st'. split; [exact Hrun|]. split.
    + intros [[Heq|Hin]|Hst]; apply H1; auto.
      exfalso. subst l. discriminate.
    + intros [[Heq|Hin]|Hst]; apply H2; auto.
      exfalso. subst l. discriminate.
Qed.


Lemma tar_extractfile_add (tar : tar_archive) (name content : string) :
  tar_extractfile (tar_add name content tar) name = Return content.
Proof.
  unfold tar_extractfile, tar_add. rewrite foldl_app. cbn.
  by rewrite decide_True.
Qed.

End LabelFacts.

(** ** C7 *)

(** C7: a label among whose lines are
    [START WAL LOCATION: 0/4000028 (file 000000010000000000000004)] and
    [START TIME: 2015-02-12 14:07:19 GMT], and no other line with one of
    these two prefixes, parses to
    [("000000010000000000000004", "2015-02-12T14:07:19+00:00")]; the label
    of the test is such a label; and for every label text and archive,
    parsing the label out of the archive it was added to as [backup_label]
    gives what parsing the text gives. *)
Theorem parse_backup_label_segment_and_time (text : string) (tar : Label.tar_archive) :
  let lines := PyStr.split (ascii_of_nat 10) text in
  (In Label.wal_line lines → In Label.time_line lines →
   (∀ l, In l lines → PyStr.startswith "START WAL LOCATION" l = true → l = Label.wal_line) →
   (∀ l, In l lines → PyStr.startswith "START TIME: " l = true → l = Label.time_line) →
   Label.parse_backup_label text
   = Return ("000000010000000000000004", "2015-02-12T14:07:19+00:00"))
  ∧ Label.parse_backup_label Label.test_label
    = Return ("000000010000000000000004", "2015-02-12T14:07:19+00:00")
  ∧ Label.parse_backup_label_in_tar (Label.tar_add "backup_label" text tar)
    = Label.parse_backup_label text
  ∧ (Label.tar_extractfile tar "backup_label" = Return text →
     Label.parse_backup_label_in_tar tar = Label.parse_backup_label text).
Proof.
  intros lines. split; [|split; [|split]].
  - intros Hw Ht Honly_w Honly_t. unfold Label.parse_backup_label. fold lines.
    destruct (scan_only_known_lines lines Honly_w Honly_t (None, None))
      as ([seg time] & -> & H1 & H2).
    cbn in H1, H2. rewrite H1, H2 by (by left). reflexivity.
  - apply parse_test_label.
  - unfold Label.parse_backup_label_in_tar. by rewrite tar_extractfile_add.
  - intros H. unfold Label.parse_backup_label_in_tar. by rewrite H.
Qed.

Lemma parse_backup_label_segment_and_time_witness :
  Label.parse_backup_label
    (Label.time_line +:+ Label.nl +:+ "LABEL: x" +:+ Label.nl +:+ Label.wal_line)
  = Return ("000000010000000000000004", "2015-02-12T14:07:19+00:00")
  ∧ Label.parse_backup_label_in_tar [("backup_label", Label.test_label); ("base", "")]
    = Label.parse_backup_label Label.test_label.
Proof.
  pose proof (parse_backup_label_segment_and_time
                (Label.time_line +:+ Label.nl +:+ "LABEL: x" +:+ Label.nl +:+ Label.wal_line)
                []) as (H & _).
  pose proof (parse_backup_label_segment_and_time Label.test_label
                [("backup_label", Label.test_label); ("base", "")]) as (_ & _ & _ & H').
  split; [|exact (H' eq_refl)].
  apply H.
  - vm_compute. tauto.
  - vm_compute. tauto.
  - intros l Hl Hp. vm_compute in Hl.
    destruct Hl as [<-|[<-|[<-|[]]]]; [discriminate | discriminate | reflexivity].
  - intros l Hl Hp. vm_compute in Hl.
    destruct Hl as [<-|[<-|[<-|[]]]]; [reflexivity | discriminate | discriminate].
Defined.

(** * The scheduler *)

Section SchedulerFacts.
Import Scheduler.






Lemma isoformat_utc_on_day (y m d hh mm ss : Z) :
  Datetime.isoformat (Datetime.mk y m d hh mm ss 0 Datetime.utc)
  = Datetime.format_date y m d
    +:+ String "T" (PyStr.fmt_0d 2 hh +:+ ":" +:+ PyStr.fmt_0d 2 mm +:+ ":"
                    +:+ PyStr.fmt_0d 2 ss) +:+ "+00:00".
Proof. reflexivity. Qed.

End SchedulerFacts.

(** ** C4 *)

(** The cases of [test_get_new_backup_details], in the order of the test,
    for 2022-12-18. *)
Example test_get_new_backup_details_cases :
  let now := Scheduler.at_time 2022 12 18 15 20 30 in
  let now2 := Scheduler.at_time 2022 12 18 16 20 30 in
  let now3 := Scheduler.at_time 2022 12 18 22 20 30 in
  let yes reason now normalized :=
    Return (Some {| Scheduler.new_backup_reason := reason;
                    Scheduler.backup_decision_time := Datetime.isoformat now;
                    Scheduler.new_normalized_backup_time := normalized |}) in
  let name01 := Scheduler.test_entry in
  let name02 := Scheduler.requested_entry in
  Scheduler.get_new_backup_details false false Scheduler.default_config [] now
  = yes Scheduler.scheduled now None
  ∧ Scheduler.get_new_backup_details false false Scheduler.daily_config [] now
    = yes Scheduler.scheduled now (Some "2022-12-18T13:10:00+00:00")
  ∧ Scheduler.get_new_backup_details false false Scheduler.test_config [] now
    = yes Scheduler.scheduled now (Some "2022-12-18T14:40:00+00:00")
  ∧ Scheduler.get_new_backup_details false false Scheduler.test_config [name01] now
    = Return None
  ∧ Scheduler.get_new_backup_details false false Scheduler.test_config [name01] now2
    = yes Scheduler.scheduled now2 (Some "2022-12-18T16:10:00+00:00")
  ∧ Scheduler.get_new_backup_details false false Scheduler.half_day_config [name01] now2
    = Return None
  ∧ Scheduler.get_new_backup_details false false Scheduler.half_day_config [name01] now3
    = yes Scheduler.scheduled now3 (Some "2022-12-18T14:50:00+00:00")
  ∧ Scheduler.get_new_backup_details false false Scheduler.half_day_config
      [name01; name02 "2022-12-18T14:50:00+00:00different"] now3
    = yes Scheduler.scheduled now3 (Some "2022-12-18T14:50:00+00:00")
  ∧ Scheduler.get_new_backup_details false false Scheduler.half_day_config
      [name01; name02 "2022-12-18T14:50:00+00:00"] now3
    = Return None
  ∧ Scheduler.get_new_backup_details false true Scheduler.half_day_config
      [name01; name02 "2022-12-18T14:50:00+00:00"] now3
    = yes Scheduler.requested now3 (Some "2022-12-18T14:50:00+00:00").
Proof. cbv zeta. repeat split; vm_compute; reflexivity. Qed.

(** With the elapsed-time condition as section 4.F words it, a whole
    interval since the start of the last backup, the scheduler would decide
    against the backup that lines 804 to 809 of the test assert: the last
    backup started 8 hours before, the interval is 12 hours. *)
Example specified_elapsed_condition_against_test :
  Scheduler.specified_get_new_backup_details false false Scheduler.half_day_config
    [Scheduler.test_entry] (Scheduler.at_time 2022 12 18 22 20 30)
  = Return None
  ∧ Scheduler.get_new_backup_details false false Scheduler.half_day_config
      [Scheduler.test_entry] (Scheduler.at_time 2022 12 18 22 20 30)
    = Return (Some {| Scheduler.new_backup_reason := Scheduler.scheduled;
                      Scheduler.backup_decision_time := "2022-12-18T22:20:30+00:00";
                      Scheduler.new_normalized_backup_time :=
                        Some "2022-12-18T14:50:00+00:00" |}).
Proof. split; vm_compute; reflexivity. Qed.



(** * The chunk splitter *)

Section SplitterFacts.
Import Walker.

Section TreeInduction.
Variable P : tree → Prop.
Hypothesis HFile : ∀ n s, P (File n s).
Hypothesis HDir : ∀ n cs, Forall P cs → P (Dir n cs).

Fixpoint tree_nested_ind (t : tree) : P t :=
  match t with
  | File n s => HFile n s
  | Dir n cs =>
      HDir n cs
        ((fix go (l : list tree) : Forall P l :=
            match l with
            | [] => @List.Forall_nil _ P
            | x :: r => @List.Forall_cons _ P x _ (tree_nested_ind x) (go r)
            end) cs)
  end.

End TreeInduction.

Lemma chain_lookup (p : list string) (entered : list entry) (i : nat) (e : entry) :
  chain p entered → entered !! i = Some e →
  (i < length p)%nat ∧ rel_path e = take (S i) p ∧ is_dir e = true.
Proof.
  intros [Hpaths Hdirs] Hi.
  assert ((rel_path <$> entered) !! i = Some (rel_path e)) as Hl
    by (by rewrite list_lookup_fmap, Hi).
  rewrite Hpaths, list_lookup_fmap in Hl.
  destruct (seq 1 (length p) !! i) as [k|] eqn:Hk; [|discriminate].
  apply lookup_seq in Hk as [-> Hlt]. cbn in Hl. injection Hl as Hl.
  split; [done|]. split; [done|].
  rewrite Forall_forall in Hdirs. apply Hdirs. by eapply list_elem_of_lookup_2.
Qed.

Lemma chain_length (p : list string) (entered : list entry) :
  chain p entered → length entered = length p.
Proof.
  intros [Hpaths _]. apply (f_equal length) in Hpaths.
  by rewrite !length_fmap, length_seq in Hpaths.
Qed.

Lemma chain_holds_dirs (p : list string) (entered : list entry) :
  chain p entered → holds_dirs p entered.
Proof.
  intros Hc k [Hk1 Hk2].
  destruct (lookup_lt_is_Some_2 entered (k - 1)) as [a Ha].
  { rewrite (chain_length p) by done. lia. }
  destruct (chain_lookup p entered _ a Hc Ha) as (_ & Hp & Hd).
  exists (k - 1)%nat, a. replace (S (k - 1)) with k in Hp by lia. done.
Qed.

Lemma chain_self_contained (p : list string) (entered : list entry) :
  chain p entered → self_contained entered.
Proof.
  intros Hc i e anc Hi (k & [Hk1 Hk2] & ->).
  destruct (chain_lookup p entered i e Hc Hi) as (Hlt & Hp & _).
  rewrite Hp in *. rewrite length_take in Hk2.
  destruct (chain_holds_dirs p entered Hc k) as (j & a & Hj & Hpa & Hda); [lia|].
  destruct (chain_lookup p entered j a Hc Hj) as (_ & Hpa' & _).
  assert (j = (k - 1)%nat) as ->.
  { rewrite Hpa in Hpa'. apply (f_equal length) in Hpa'.
    rewrite !length_take in Hpa'. lia. }
  exists (k - 1)%nat, a. split; [lia|]. split; [done|]. split; [|done].
  rewrite Hpa, take_take. f_equal. lia.
Qed.

Lemma holds_dirs_snoc (p : list string) (chunk : list entry) (e : entry) :
  holds_dirs p chunk → holds_dirs p (chunk ++ [e]).
Proof.
  intros H k Hk. destruct (H k Hk) as (j & a & Hj & Ha).
  exists j, a. split; [|done]. by apply lookup_app_l_Some.
Qed.

(** The directories above a child of [p] are those on the way to [p]. *)
Lemma ancestor_of_child (p : list string) (n : string) (anc : list string) :
  ancestor_of anc (p ++ [n]) → ∃ k : nat, (1 ≤ k ≤ length p)%nat ∧ anc = take k p.
Proof.
  intros (k & [Hk1 Hk2] & ->). rewrite length_app in Hk2. cbn in Hk2.
  exists k. split; [lia|]. rewrite take_app_le by lia. done.
Qed.

Lemma self_contained_snoc (p : list string) (n : string) (chunk : list entry)
    (e : entry) :
  self_contained chunk → holds_dirs p chunk → rel_path e = p ++ [n] →
  self_contained (chunk ++ [e]).
Proof.
  intros Hsc Hh He i x anc Hi Hanc.
  destruct (decide (i < length chunk)%nat) as [Hlt|Hge].
  - rewrite lookup_app_l in Hi by done.
    destruct (Hsc i x anc Hi Hanc) as (j & a & Hj & Ha & Hrest).
    exists j, a. split; [done|]. split; [|done]. by apply lookup_app_l_Some.
  - assert (i = length chunk) as ->.
    { apply lookup_lt_Some in Hi. rewrite length_app in Hi. cbn in Hi. lia. }
    rewrite list_lookup_middle in Hi by done. injection Hi as <-.
    rewrite He in Hanc. destruct (ancestor_of_child p n anc Hanc) as (k & Hk & ->).
    destruct (Hh k Hk) as (j & a & Hj & Ha).
    exists j, a. split; [by eapply lookup_lt_Some|]. split; [|done].
    by apply lookup_app_l_Some.
Qed.

Section Policy.
Variable closes : Z → Z → Z → bool.
Variable target : Z.

(** After the chunk has been closed, if the rule says so, and before the
    entry is appended, the state is as good as before. *)
Lemma inside_after_close (p : list string) (st : split_state) (size : Z) :
  inside p st →
  inside p (if closes (one_chunk_size st) size target then
              {| total_file_count := total_file_count st;
                 one_chunk_size := 0;
                 one_chunk_files := entered_folders st;
                 chunks := chunks st ++ [one_chunk_files st];
                 entered_folders := entered_folders st |}
            else st).
Proof.
  intros (Hc & Hsc & Hh & Hall). destruct (closes _ _ _); [|done].
  split; [done|]. split; [by eapply chain_self_contained|].
  split; [by apply chain_holds_dirs|]. cbn. apply Forall_app. split; [done|].
  by constructor.
Qed.

Lemma inside_add (p : list string) (n : string) (st : split_state) (e : entry) :
  inside p st → rel_path e = p ++ [n] → inside p (visit closes target st e false).
Proof.
  intros Hin He. unfold visit.
  pose proof (inside_after_close p st (if is_dir e then 0 else file_size e) Hin)
    as (Hc & Hsc & Hh & Hall).
  set (st1 := if closes _ _ _ then _ else st) in *.
  split; [done|]. split; [by eapply self_contained_snoc|].
  split; [by apply holds_dirs_snoc | done].
Qed.

Lemma inside_enter (p : list string) (n : string) (st : split_state) (e : entry) :
  inside p st → rel_path e = p ++ [n] → is_dir e = true →
  inside (p ++ [n]) (visit closes target st e true).
Proof.
  intros Hin He Hd. unfold visit.
  pose proof (inside_after_close p st (if is_dir e then 0 else file_size e) Hin)
    as (Hc & Hsc & Hh & Hall).
  set (st1 := if closes _ _ _ then _ else st) in *.
  unfold inside. cbn [entered_folders one_chunk_files chunks].
  split; [|split; [by eapply self_contained_snoc | split; [|done]]].
  - destruct Hc as [Hpaths Hdirs]. split.
    + rewrite fmap_app, Hpaths, length_app. cbn [length fmap list_fmap].
      rewrite Nat.add_1_r, seq_S, fmap_app. cbn [fmap list_fmap]. f_equal.
      * apply list_fmap_ext. intros i k Hk. apply lookup_seq in Hk as [-> Hlt].
        rewrite take_app_le by lia. done.
      * rewrite He. f_equal. rewrite take_ge; [done|].
        rewrite length_app. cbn. lia.
    + apply Forall_app. split; [done | by constructor].
  - intros k [Hk1 Hk2]. rewrite length_app in Hk2. cbn in Hk2.
    destruct (decide (k ≤ length p)%nat) as [Hle|Hgt].
    + destruct (Hh k) as (j & a & Hj & Ha & Hda); [lia|].
      exists j, a. split; [by apply lookup_app_l_Some|].
      rewrite take_app_le by lia. done.
    + exists (length (one_chunk_files st1)), e.
      split; [by apply list_lookup_middle|]. split; [|done].
      rewrite He. rewrite take_ge; [done|]. rewrite length_app. cbn. lia.
Qed.

Lemma inside_leave (p : list string) (n : string) (st : split_state) :
  inside (p ++ [n]) st → inside p (step closes target st Leave).
Proof.
  intros ([Hpaths Hdirs] & Hsc & Hh & Hall).
  unfold inside, step. cbn [entered_folders one_chunk_files chunks].
  split; [|split; [done | split; [|done]]].
  - assert (length (entered_folders st) = S (length p)) as Hlen.
    { apply (f_equal length) in Hpaths.
      rewrite !length_fmap, length_seq, length_app in Hpaths. cbn in Hpaths. lia. }
    destruct (entered_folders st) as [|x l] using rev_ind; [discriminate|].
    clear IHl. rewrite removelast_last.
    rewrite fmap_app, length_app in Hpaths. cbn [length fmap list_fmap] in Hpaths.
    rewrite Nat.add_1_r, seq_S, fmap_app in Hpaths. cbn [fmap list_fmap] in Hpaths.
    apply app_inj_tail in Hpaths as [Hpaths _].
    apply Forall_app in Hdirs as [Hdirs _]. split; [|done].
    rewrite Hpaths. apply list_fmap_ext. intros i k Hk.
    apply lookup_seq in Hk as [-> Hlt]. rewrite take_app_le by lia. done.
  - intros k Hk. destruct (Hh k) as (j & a & Hj & Ha & Hda).
    { rewrite length_app. cbn. lia. }
    exists j, a. split; [done|]. rewrite take_app_le in Ha by lia. done.
Qed.

(** Walking a tree below [p] keeps the state good for [p]. *)
Lemma inside_walk (t : tree) :
  ∀ p st, inside p st → inside p (foldl (step closes target) st (walk p t)).
Proof.
  induction t as [n s|n cs IH] using tree_nested_ind; intros p st Hin.
  - cbn. by apply (inside_add p n).
  - cbn [walk foldl]. rewrite foldl_app. cbn [foldl].
    apply (inside_leave p n).
    assert (∀ st', inside (p ++ [n]) st' →
              inside (p ++ [n])
                (foldl (step closes target) st' (concat (walk (p ++ [n]) <$> cs))))
      as Hcs.
    { clear Hin st. induction cs as [|c cs IHcs]; intros st' Hst'; [done|].
      apply Forall_cons in IH as [IHc IHrest].
      cbn [fmap list_fmap concat]. rewrite foldl_app. apply IHcs; [done|].
      by apply IHc. }
    apply Hcs. by apply (inside_enter p n).
Qed.

Lemma inside_walk_all (cs : list tree) :
  ∀ p st, inside p st → inside p (foldl (step closes target) st (walk_all p cs)).
Proof.
  induction cs as [|c cs IH]; intros p st Hin; [done|].
  unfold walk_all. cbn [fmap list_fmap concat]. rewrite foldl_app.
  apply IH. by apply inside_walk.
Qed.

Lemma inside_initial : inside [] initial.
Proof.
  split; [split; [done | constructor]|].
  split; [intros i e anc Hi; cbn in Hi; by rewrite lookup_nil in Hi|].
  split; [intros k Hk; cbn in Hk; lia | constructor].
Qed.

End Policy.
End SplitterFacts.

(** ** C5 *)

(** C5: for every directory tree, every target size and every rule that
    closes chunks, each chunk returned by [find_and_split_files_to_backup]
    is self-contained: every entry of the chunk has each directory above
    it, up to the data directory, as a directory entry earlier in the same
    chunk.  For the tree of the test, 50000-byte files and target 110000,
    the count is 8 and there are exactly three chunks, each starting with
    the directories above its files. *)
Theorem find_and_split_chunks_self_contained
    (closes : Z → Z → Z → bool) (target_chunk_size : Z) (pgdata : list Walker.tree) :
  Forall Walker.self_contained
    (Walker.find_and_split_files_to_backup closes target_chunk_size pgdata).2
  ∧ (Walker.find_and_split_files_to_backup Walker.within_target 110000
       Walker.test_tree).1 = 8
  ∧ map (map Walker.archive_path)
       ((Walker.find_and_split_files_to_backup Walker.within_target 110000
              Walker.test_tree).2)
    = [ ["pgdata/split_top"; "pgdata/split_top/f1"; "pgdata/split_top/f2"];
        ["pgdata/split_top"; "pgdata/split_top/f3"; "pgdata/split_top/split_sub";
         "pgdata/split_top/split_sub/f1"];
        ["pgdata/split_top"; "pgdata/split_top/split_sub";
         "pgdata/split_top/split_sub/f2"; "pgdata/split_top/split_sub/f3"] ]
  ∧ map (map Walker.is_dir)
       ((Walker.find_and_split_files_to_backup Walker.within_target 110000
              Walker.test_tree).2)
    = [ [true; false; false]; [true; false; true; false]; [true; true; false; false] ].
Proof.
  split; [|split; [|split]]; [|compute_done..].
  unfold Walker.find_and_split_files_to_backup, Walker.split_events,
    Walker.find_files_to_backup. cbn [snd].
  pose proof (inside_walk_all closes target_chunk_size (Walker.sort_children pgdata)
                [] Walker.initial (inside_initial)) as (_ & Hcur & _ & Hall).
  apply Forall_app. split; [exact Hall | by constructor].
Qed.

(** * Further properties of [print_basebackup_list] *)

Section RunRules.
Context {W A B : Type}.

Lemma bind_return (m : M W A) (k : A → M W B) (w w1 : W) (a : A) :
  m w = (w1, Return a) → (x <- m ;; k x) w = k a w1.
Proof. intros H. unfold bind, M_bind. by rewrite H. Qed.

Lemma bind_raise (m : M W A) (k : A → M W B) (w w1 : W) (e : exn) :
  m w = (w1, Raise e) → (x <- m ;; k x) w = (w1, Raise e).
Proof. intros H. unfold bind, M_bind. by rewrite H. Qed.

End RunRules.

Lemma load_dict_eq (l : loc) (d : list (string * value)) (w : pworld) :
  heap w !! l = Some (ODict d) → load_dict l w = (w, Return d).
Proof. intros H. unfold load_dict. by rewrite H. Qed.

Lemma copy_eq (l : loc) (o : object) (w : pworld) :
  heap w !! l = Some o →
  copy (VRef l) w = (with_object (fresh (dom (heap w))) o w, Return (fresh (dom (heap w)))).
Proof. intros H. cbn. by rewrite H. Qed.

Lemma pop_eq (l : loc) (k : string) (d : list (string * value)) (v : value) (w : pworld) :
  heap w !! l = Some (ODict d) → Dict.get k d = Some v →
  pop l k w = (with_object l (ODict (Dict.remove k d)) w, Return v).
Proof. intros H Hk. unfold pop. by rewrite H, Hk. Qed.

Lemma fresh_not_allocated (w : pworld) : heap w !! fresh (dom (heap w)) = None.
Proof. apply not_elem_of_dom, is_fresh. Qed.

Section Rows.
Context `{!Runtime}.

(** The three conversions of the popped start time, followed by [k]. *)
Lemma start_time_steps {A} (v : value) (k : Datetime.datetime → M pworld A) (w : pworld) :
  (lm <- match v with
         | VStr s => (t <- lift (parse_timestamp s) ;; ret (VDatetime t))
         | v => ret v
         end ;;
   lm <- match lm with
         | VDatetime t => ret t
         | _ => raise (AttributeError "tzinfo")
         end ;;
   lm <- match Datetime.tzinfo lm with
         | Some off =>
             match Datetime.astimezone_utc lm off with
             | Some u => ret (Datetime.replace_tzinfo_None u)
             | None => raise OverflowError
             end
         | None => ret lm
         end ;;
   k lm) w
  = (t <- lift (start_time_of v) ;; k t) w.
Proof.
  unfold start_time_of, bind, M_bind, lift, ret, raise.
  destruct v as [| | |s|t|l]; cbn; try reflexivity.
  - destruct (parse_timestamp s) as [t|e]; cbn; [|reflexivity].
    destruct (Datetime.tzinfo t) as [off|]; [|reflexivity].
    destruct (Datetime.astimezone_utc t off); reflexivity.
  - destruct (Datetime.tzinfo t) as [off|]; [|reflexivity].
    destruct (Datetime.astimezone_utc t off); reflexivity.
Qed.

End Rows.

Lemma dict_get_remove_ne (k k' : string) (d : list (string * value)) :
  k ≠ k' → Dict.get k (Dict.remove k' d) = Dict.get k d.
Proof.
  intros Hne. induction d as [|[k0 v0] d IH]; [reflexivity|].
  cbn [Dict.remove Dict.get].
  destruct (decide (k' = k0)) as [->|Hk'].
  - by rewrite decide_False.
  - cbn [Dict.get]. destruct (decide (k = k0)); [reflexivity|exact IH].
Qed.

Lemma dict_get_remove_eq (k : string) (d : list (string * value)) :
  NoDup d.*1 → Dict.get k (Dict.remove k d) = None.
Proof.
  induction d as [|[k0 v0] d IH]; [reflexivity|].
  intros [Hk0 Hd]%NoDup_cons. cbn [Dict.remove].
  destruct (decide (k = k0)) as [->|Hk].
  - clear IH. induction d as [|[k1 v1] d IH]; [reflexivity|].
    cbn [Dict.get]. destruct (decide (k0 = k1)) as [->|].
    + exfalso. apply Hk0. cbn. left.
    + apply IH.
      * intros Hin. apply Hk0. cbn. by right.
      * by apply NoDup_cons in Hd as [_ Hd].
  - cbn [Dict.get]. rewrite decide_False by done. by apply IH.
Qed.

Lemma truthy_runs (v : value) (w : pworld) : ∃ t, truthy v w = (w, Return t).
Proof.
  destruct v as [|b|n|s|t|l]; cbn; eauto.
  destruct (heap w !! l) as [[d|d]|]; eauto.
Qed.

Section RowsRun.
Context `{!Runtime}.

(** What [print_entry] has done when it returns, for an entry whose data
    and metadata are dictionaries. *)
Lemma print_entry_run (verbose : bool) (b : BaseBackupInfo) (w w' : pworld)
    (d m : list (string * value)) (lm : loc) :
  heap w !! data b = Some (ODict d) →
  Dict.get "metadata" d = Some (VRef lm) →
  heap w !! lm = Some (ODict m) →
  print_entry verbose b w = (w', Return ()) →
  let meta := fresh (dom (heap w)) in
  let rest := Dict.remove "start-time" m in
  let plain := Dict.get_default "total-size-plain"
                 (Dict.get_default "original-file-size" VNone m) m in
  ∃ v t size enc tr orig,
    Dict.get "start-time" m = Some v ∧ start_time_of v = Return t ∧
    Dict.get "size" d = Some size ∧
    py_int (Dict.get_default "total-size-enc" size m) = Return enc ∧
    truthy plain (with_object meta (ODict rest) w)
      = (with_object meta (ODict rest) w, Return tr) ∧
    py_int (if tr then plain else VInt 0) = Return orig ∧
    w' = (if verbose then after_print [PStr "    metadata:"; PDict rest] else id)
           (after_print
              [PStr (fmt (name b) (size_column enc)
                       (if orig =? 0 then "n/a" else size_column orig) (time_column t))]
              (with_object meta (ODict rest) w)).
Proof.
  intros Hd Hmd Hm Hrun meta rest plain.
  unfold print_entry in Hrun.
  rewrite (bind_return (load_dict (data b)) _ w w d (load_dict_eq _ _ _ Hd)) in Hrun.
  assert (Hsub : lift (subscript d "metadata") w = (w, Return (VRef lm)))
    by (unfold lift, subscript; by rewrite Hmd).
  rewrite (bind_return _ _ w w _ Hsub) in Hrun.
  rewrite (bind_return _ _ w _ _ (copy_eq _ _ _ Hm)) in Hrun.
  fold meta in Hrun.
  assert (Hmeta1 : heap (with_object meta (ODict m) w) !! meta = Some (ODict m))
    by apply lookup_insert_eq.
  destruct (Dict.get "start-time" m) as [v|] eqn:Hst; cycle 1.
  { assert (Hpop : pop meta "start-time" (with_object meta (ODict m) w)
                   = (with_object meta (ODict m) w, Raise (KeyError "start-time")))
      by (unfold pop; by rewrite Hmeta1, Hst).
    rewrite (bind_raise _ _ _ _ _ Hpop) in Hrun. discriminate. }
  rewrite (bind_return _ _ _ _ _ (pop_eq _ _ _ _ _ Hmeta1 Hst)) in Hrun.
  assert (Hw2 : with_object meta (ODict (Dict.remove "start-time" m))
                  (with_object meta (ODict m) w)
                = with_object meta (ODict rest) w).
  { unfold with_object; cbn. f_equal. apply insert_insert_eq. }
  rewrite Hw2 in Hrun. clear Hw2 Hmeta1.
  set (w2 := with_object meta (ODict rest) w) in *.
  rewrite start_time_steps in Hrun.
  destruct (start_time_of v) as [t|e] eqn:Ht; cycle 1.
  { rewrite (bind_raise _ _ w2 w2 e eq_refl) in Hrun. discriminate. }
  rewrite (bind_return _ _ w2 w2 t eq_refl) in Hrun. cbv zeta in Hrun.
  assert (Hne : data b ≠ meta).
  { intros Heq. pose proof (fresh_not_allocated w) as Hf. fold meta in Hf.
    rewrite <- Heq, Hd in Hf. discriminate. }
  assert (Hd2 : heap w2 !! data b = Some (ODict d)).
  { unfold w2, with_object; cbn. by rewrite lookup_insert_ne. }
  rewrite (bind_return _ _ w2 w2 d (load_dict_eq _ _ _ Hd2)) in Hrun.
  destruct (Dict.get "size" d) as [size|] eqn:Hsize; cycle 1.
  { assert (Hs : lift (subscript d "size") w2 = (w2, Raise (KeyError "size")))
      by (unfold lift, subscript; by rewrite Hsize).
    rewrite (bind_raise _ _ _ _ _ Hs) in Hrun. discriminate. }
  assert (Hs : lift (subscript d "size") w2 = (w2, Return size))
    by (unfold lift, subscript; by rewrite Hsize).
  rewrite (bind_return _ _ _ _ _ Hs) in Hrun. clear Hs.
  assert (Hmeta2 : heap w2 !! meta = Some (ODict rest)) by apply lookup_insert_eq.
  rewrite (bind_return _ _ w2 w2 _ (load_dict_eq _ _ _ Hmeta2)) in Hrun.
  assert (Henc_eq : Dict.get_default "total-size-enc" size rest
                    = Dict.get_default "total-size-enc" size m)
    by (unfold Dict.get_default, rest; by rewrite dict_get_remove_ne).
  assert (Hplain_eq : Dict.get_default "total-size-plain"
                        (Dict.get_default "original-file-size" VNone rest) rest = plain)
    by (unfold plain, Dict.get_default, rest; by rewrite !dict_get_remove_ne).
  rewrite Henc_eq, Hplain_eq in Hrun.
  destruct (py_int (Dict.get_default "total-size-enc" size m)) as [enc|e] eqn:Henc; cycle 1.
  { rewrite (bind_raise _ _ w2 w2 e eq_refl) in Hrun. discriminate. }
  rewrite (bind_return _ _ w2 w2 enc eq_refl) in Hrun. cbv zeta in Hrun.
  destruct (truthy_runs plain w2) as [tr Htr].
  rewrite (bind_return _ _ w2 w2 tr Htr) in Hrun.
  destruct (py_int (if tr then plain else VInt 0)) as [orig|e] eqn:Horig; cycle 1.
  { rewrite (bind_raise _ _ w2 w2 e eq_refl) in Hrun. discriminate. }
  rewrite (bind_return _ _ w2 w2 orig eq_refl) in Hrun. cbv zeta in Hrun.
  exists v, t, size, enc, tr, orig.
  do 5 (split; [done|]). split; [exact Horig|].
  unfold bind, M_bind, print in Hrun. cbn in Hrun.
  destruct verbose.
  - unfold load_dict in Hrun. cbn in Hrun.
    change (heap w2 !! meta) with (<[meta := ODict rest]> (heap w) !! meta) in Hrun.
    rewrite lookup_insert_eq in Hrun. by inversion Hrun.
  - by inversion Hrun.
Qed.

End RowsRun.

(** X1: when the loop body returns for an entry whose data and metadata
    are dictionaries, it has printed one row and, with [verbose], one more
    line.  The time column of the row is the start time of the metadata
    (parsed if it is a string, moved to UTC and made naive if it has a
    zone) in ISO form, cut after the seconds, with a [Z]; the size column
    is [int] of [total-size-enc] of the metadata, or of the [size] of the
    data when the metadata has none, in whole MB.  The extra line shows the
    metadata without [start-time]. *)
Theorem print_entry_row (R : Runtime) (verbose : bool) (b : BaseBackupInfo)
    (w w' : pworld) (d m : list (string * value)) (lm : loc) :
  heap w !! data b = Some (ODict d) →
  Dict.get "metadata" d = Some (VRef lm) →
  heap w !! lm = Some (ODict m) →
  print_entry verbose b w = (w', Return ()) →
  ∃ v t size enc orig_size_str,
    Dict.get "start-time" m = Some v ∧ start_time_of v = Return t
    ∧ Dict.get "size" d = Some size
    ∧ py_int (Dict.get_default "total-size-enc" size m) = Return enc
    ∧ stdout w'
      = stdout w
        ++ [PStr (fmt (name b) (PyStr.of_Z (enc / 1024 ^ 2) +:+ " MB") orig_size_str
                    (PyStr.take 19 (Datetime.isoformat t) +:+ "Z"))]
           :: (if verbose
               then [[PStr "    metadata:"; PDict (Dict.remove "start-time" m)]]
               else []).
Proof.
  intros Hd Hmd Hm Hrun.
  destruct (print_entry_run verbose b w w' d m lm Hd Hmd Hm Hrun)
    as (v & t & size & enc & tr & orig & Hv & Ht & Hsize & Henc & _ & _ & ->).
  exists v, t, size, enc, (if orig =? 0 then "n/a" else size_column orig).
  do 4 (split; [done|]).
  destruct verbose; cbn; [by rewrite <- app_assoc | done].
Qed.

Lemma print_entry_row_witness :
  ∃ orig_size_str,
    stdout (@print_entry offline true twin1 twins_world).1
    = [ [PStr (fmt "a" "3 MB" orig_size_str "2022-12-10T07:00:00Z")];
        [PStr "    metadata:"; PDict [("total-size-plain", VStr "5242880")]] ].
Proof.
  destruct (@print_entry offline true twin1 twins_world) as [w' r] eqn:Hrun.
  assert (r = Return ()) as -> by (by vm_compute in Hrun; injection Hrun as _ <-).
  destruct (print_entry_row offline true twin1 twins_world w'
              [("name", VStr "a"); ("size", VInt 3145728); ("metadata", VRef 2%nat)]
              [("start-time", VStr "2022-12-10T09:00:00+02:00");
               ("total-size-plain", VStr "5242880")]
              2%nat eq_refl eq_refl eq_refl Hrun)
    as (v & t & size & enc & orig & Hv & Ht & Hsize & Henc & Hout).
  injection Hv as <-. injection Hsize as <-.
  vm_compute in Ht. injection Ht as <-.
  vm_compute in Henc. injection Henc as <-.
  exists orig. exact Hout.
Defined.

(** X2: the [Orig size] column.  When the metadata has an integer
    [total-size-plain], or has none but an integer [original-file-size],
    the column shows it in whole MB, and [n/a] when it is 0; with neither
    key the column is [n/a].  A [total-size-plain] of 0 gives [n/a] whatever
    [original-file-size] is. *)
Theorem print_entry_orig_size_column (R : Runtime) (verbose : bool)
    (b : BaseBackupInfo) (w w' : pworld) (d m : list (string * value)) (lm : loc)
    (n : Z) :
  heap w !! data b = Some (ODict d) →
  Dict.get "metadata" d = Some (VRef lm) →
  heap w !! lm = Some (ODict m) →
  Dict.get "total-size-plain" m = Some (VInt n)
  ∨ (Dict.get "total-size-plain" m = None
     ∧ (Dict.get "original-file-size" m = Some (VInt n)
        ∨ (Dict.get "original-file-size" m = None ∧ n = 0))) →
  print_entry verbose b w = (w', Return ()) →
  ∃ size_str lm_str,
    stdout w' !! length (stdout w)
    = Some [PStr (fmt (name b) size_str
                    (if n =? 0 then "n/a" else PyStr.of_Z (n / 1024 ^ 2) +:+ " MB")
                    lm_str)].
Proof.
  intros Hd Hmd Hm Hplain Hrun.
  destruct (print_entry_run verbose b w w' d m lm Hd Hmd Hm Hrun)
    as (v & t & size & enc & tr & orig & _ & _ & _ & _ & Htr & Horig & ->).
  exists (size_column enc), (time_column t).
  assert (orig = n) as ->.
  { unfold Dict.get_default in Htr, Horig.
    destruct Hplain as [Hp|[Hp [Ho|[Ho ->]]]]; rewrite Hp in Htr, Horig;
      cbn in Htr, Horig; [|rewrite Ho in Htr, Horig; cbn in Htr, Horig..].
    - injection Htr as <-. destruct (Z.eqb_spec n 0) as [->|]; cbn in Horig; congruence.
    - injection Htr as <-. destruct (Z.eqb_spec n 0) as [->|]; cbn in Horig; congruence.
    - injection Htr as <-. cbn in Horig. congruence. }
  destruct verbose; cbn.
  - rewrite lookup_app_l by (rewrite length_app; cbn; lia).
    by rewrite list_lookup_middle.
  - by rewrite list_lookup_middle.
Qed.

Lemma print_entry_orig_size_column_witness :
  (∃ size_str lm_str,
     stdout (@print_entry offline false sized_c sized_world).1 !! 0%nat
     = Some [PStr (fmt "c" size_str "5 MB" lm_str)])
  ∧ (∃ size_str lm_str,
       stdout (@print_entry offline false sized_d sized_world).1 !! 0%nat
       = Some [PStr (fmt "d" size_str "3 MB" lm_str)])
  ∧ (∃ size_str lm_str,
       stdout (@print_entry offline false sized_e sized_world).1 !! 0%nat
       = Some [PStr (fmt "e" size_str "n/a" lm_str)])
  ∧ (∃ size_str lm_str,
       stdout (@print_entry offline false twin2 twins_world).1 !! 0%nat
       = Some [PStr (fmt "a" size_str "n/a" lm_str)]).
Proof.
  pose (started := VDatetime (Datetime.mk 2022 12 11 8 0 0 0 None)).
  split; [|split; [|split]].
  - destruct (@print_entry offline false sized_c sized_world) as [w' r] eqn:Hrun.
    assert (r = Return ()) as -> by (by vm_compute in Hrun; injection Hrun as _ <-).
    exact (print_entry_orig_size_column offline false sized_c sized_world w'
             [("name", VStr "c"); ("size", VInt 1048576); ("metadata", VRef 1%nat)]
             [("start-time", started); ("total-size-plain", VInt 5242880);
              ("original-file-size", VInt 1048576)]
             1%nat 5242880 eq_refl eq_refl eq_refl (or_introl eq_refl) Hrun).
  - destruct (@print_entry offline false sized_d sized_world) as [w' r] eqn:Hrun.
    assert (r = Return ()) as -> by (by vm_compute in Hrun; injection Hrun as _ <-).
    exact (print_entry_orig_size_column offline false sized_d sized_world w'
             [("name", VStr "d"); ("size", VInt 1048576); ("metadata", VRef 3%nat)]
             [("start-time", started); ("original-file-size", VInt 3145728)]
             3%nat 3145728 eq_refl eq_refl eq_refl
             (or_intror (conj eq_refl (or_introl eq_refl))) Hrun).
  - destruct (@print_entry offline false sized_e sized_world) as [w' r] eqn:Hrun.
    assert (r = Return ()) as -> by (by vm_compute in Hrun; injection Hrun as _ <-).
    exact (print_entry_orig_size_column offline false sized_e sized_world w'
             [("name", VStr "e"); ("size", VInt 1048576); ("metadata", VRef 5%nat)]
             [("start-time", started); ("total-size-plain", VInt 0);
              ("original-file-size", VInt 3145728)]
             5%nat 0 eq_refl eq_refl eq_refl (or_introl eq_refl) Hrun).
  - destruct (@print_entry offline false twin2 twins_world) as [w' r] eqn:Hrun.
    assert (r = Return ()) as -> by (by vm_compute in Hrun; injection Hrun as _ <-).
    exact (print_entry_orig_size_column offline false twin2 twins_world w'
             [("name", VStr "a"); ("size", VInt 1048576); ("metadata", VRef 3%nat)]
             [("start-time", VDatetime (Datetime.mk 2022 12 11 8 0 0 0 None))]
             3%nat 0 eq_refl eq_refl eq_refl
             (or_intror (conj eq_refl (or_intror (conj eq_refl eq_refl)))) Hrun).
Defined.

(** X3: the [size] of the data is always looked up.  For an entry whose
    data has no [size], the loop body raises [KeyError('size')] although
    the metadata may hold [total-size-enc], which would have been shown
    instead.  Nothing has been printed for the entry; the copy of its
    metadata stays behind in the heap. *)
Theorem print_entry_requires_size (R : Runtime) (verbose : bool)
    (b : BaseBackupInfo) (w : pworld) (d m : list (string * value)) (lm : loc)
    (v : value) (t : Datetime.datetime) :
  heap w !! data b = Some (ODict d) →
  Dict.get "metadata" d = Some (VRef lm) →
  heap w !! lm = Some (ODict m) →
  Dict.get "start-time" m = Some v →
  start_time_of v = Return t →
  Dict.get "size" d = None →
  print_entry verbose b w
  = ({| heap := <[fresh (dom (heap w)) := ODict (Dict.remove "start-time" m)]> (heap w);
        stdout := stdout w; requests := requests w |},
     Raise (KeyError "size")).
Proof.
  intros Hd Hmd Hm Hst Ht Hsize.
  set (meta := fresh (dom (heap w))).
  unfold print_entry.
  rewrite (bind_return (load_dict (data b)) _ w w d (load_dict_eq _ _ _ Hd)).
  assert (Hsub : lift (subscript d "metadata") w = (w, Return (VRef lm)))
    by (unfold lift, subscript; by rewrite Hmd).
  rewrite (bind_return _ _ w w _ Hsub).
  rewrite (bind_return _ _ w _ _ (copy_eq _ _ _ Hm)). fold meta.
  assert (Hmeta1 : heap (with_object meta (ODict m) w) !! meta = Some (ODict m))
    by apply lookup_insert_eq.
  rewrite (bind_return _ _ _ _ _ (pop_eq _ _ _ _ _ Hmeta1 Hst)).
  assert (Hw2 : with_object meta (ODict (Dict.remove "start-time" m))
                  (with_object meta (ODict m) w)
                = with_object meta (ODict (Dict.remove "start-time" m)) w).
  { unfold with_object; cbn. f_equal. apply insert_insert_eq. }
  rewrite Hw2. clear Hw2 Hmeta1.
  set (w2 := with_object meta (ODict (Dict.remove "start-time" m)) w).
  rewrite start_time_steps, Ht.
  rewrite (bind_return _ _ w2 w2 t eq_refl). cbv zeta.
  assert (Hd2 : heap w2 !! data b = Some (ODict d)).
  { unfold w2, with_object; cbn. rewrite lookup_insert_ne; [done|].
    intros Heq. pose proof (fresh_not_allocated w) as Hf. fold meta in Hf.
    rewrite Heq, Hd in Hf. discriminate. }
  rewrite (bind_return _ _ w2 w2 d (load_dict_eq _ _ _ Hd2)).
  assert (Hs : lift (subscript d "size") w2 = (w2, Raise (KeyError "size")))
    by (unfold lift, subscript; by rewrite Hsize).
  by rewrite (bind_raise _ _ _ _ _ Hs).
Qed.

Lemma print_entry_requires_size_witness :
  (@print_entry offline true sizeless sizeless_world).2 = Raise (KeyError "size")
  ∧ stdout (@print_entry offline true sizeless sizeless_world).1 = [].
Proof.
  rewrite (print_entry_requires_size offline true sizeless sizeless_world
             [("name", VStr "a"); ("metadata", VRef 1%nat)]
             [("start-time", VDatetime (Datetime.mk 2022 12 11 8 0 0 0 None));
              ("total-size-enc", VInt 5)]
             1%nat (VDatetime (Datetime.mk 2022 12 11 8 0 0 0 None))
             (Datetime.mk 2022 12 11 8 0 0 0 None)
             eq_refl eq_refl eq_refl eq_refl eq_refl eq_refl).
  split; reflexivity.
Defined.

(** ** What a failing listing has printed *)

Section Failure.
Context `{!Runtime}.

(** The loop body prints only at its end, after everything that can fail. *)
Lemma print_entry_raise_hoare (o : list (list print_arg)) (verbose : bool)
    (b : BaseBackupInfo) :
  hoare (printed o) (print_entry verbose b) (λ _ _, True) (printed o).
Proof.
  unfold print_entry.
  apply hoare_stable_bind; [auto with stable | auto |]. intros d.
  apply hoare_stable_bind; [auto with stable | auto |]. intros md.
  apply hoare_bind with (Q := λ _, printed o).
  { intros w HP. destruct md; try exact HP. cbn.
    destruct (heap w !! l); exact HP. }
  intros meta.
  set (P2 := λ w : pworld, printed o w ∧ ∃ dm, heap w !! meta = Some (ODict dm)).
  apply hoare_bind with (Q := λ _, P2).
  { intros w HP. unfold pop. destruct (heap w !! meta) as [[dm|dm]|]; try exact HP.
    destruct (Dict.get "start-time" dm); [|exact HP].
    split; [exact HP|]. exists (Dict.remove "start-time" dm). apply lookup_insert_eq. }
  intros lm.
  assert (HPE : ∀ w, P2 w → printed o w) by (by intros w [? _]).
  apply hoare_stable_bind; [|exact HPE|].
  { destruct lm; auto with stable. apply stable_bind; auto with stable. }
  intros lm1.
  apply hoare_stable_bind; [|exact HPE|].
  { destruct lm1; auto with stable. }
  intros lm2.
  apply hoare_stable_bind; [|exact HPE|].
  { destruct (Datetime.tzinfo lm2); auto with stable.
    destruct (Datetime.astimezone_utc lm2 z); auto with stable. }
  intros lm3. cbv zeta.
  apply hoare_stable_bind; [auto with stable | exact HPE |]. intros d2.
  apply hoare_stable_bind; [auto with stable | exact HPE |]. intros size.
  apply hoare_stable_bind; [auto with stable | exact HPE |]. intros m.
  apply hoare_stable_bind; [auto with stable | exact HPE |]. intros enc.
  apply hoare_stable_bind; [auto with stable | exact HPE |]. intros t.
  apply hoare_stable_bind; [auto with stable | exact HPE |]. intros orig.
  intros w [_ [dm Hdm]]. unfold bind, M_bind, print. cbn.
  destruct verbose; [|exact I].
  unfold load_dict. cbn. by rewrite Hdm.
Qed.

Lemma print_entry_raise_silent (verbose : bool) (b : BaseBackupInfo)
    (w w' : pworld) (e : exn) :
  print_entry verbose b w = (w', Raise e) → stdout w' = stdout w.
Proof.
  intros Hrun.
  pose proof (print_entry_raise_hoare (stdout w) verbose b w eq_refl) as Hw.
  by rewrite Hrun in Hw.
Qed.

Lemma print_entry_return_output (verbose : bool) (b : BaseBackupInfo) (w w' : pworld) :
  print_entry verbose b w = (w', Return ()) →
  ∃ out, entry_output verbose b out ∧ stdout w' = stdout w ++ out.
Proof.
  intros Hrun.
  pose proof (printed_print_entry (stdout w) verbose b w eq_refl) as Hw.
  by rewrite Hrun in Hw.
Qed.

Lemma for_each_raise_output (verbose : bool) (bs : list BaseBackupInfo) :
  ∀ w w' e,
    for_each bs (print_entry verbose) w = (w', Raise e) →
    ∃ k rows, (k < length bs)%nat
              ∧ Forall2 (entry_output verbose) (take k bs) rows
              ∧ stdout w' = stdout w ++ concat rows.
Proof.
  induction bs as [|b bs IH]; intros w w' e Hrun; [discriminate|].
  cbn [for_each] in Hrun. unfold bind, M_bind in Hrun.
  destruct (print_entry verbose b w) as [w1 [[]|e1]] eqn:Hb.
  - destruct (print_entry_return_output _ _ _ _ Hb) as (out & Hout & Hw1).
    destruct (IH w1 w' e Hrun) as (k & rows & Hk & Hrows & Hw').
    exists (S k), (out :: rows). split; [cbn; lia|]. split; [by constructor|].
    cbn. rewrite Hw', Hw1. by rewrite <- app_assoc.
  - injection Hrun as <- <-. exists 0%nat, []. split; [cbn; lia|].
    split; [constructor|]. cbn. rewrite app_nil_r.
    by eapply print_entry_raise_silent.
Qed.

End Failure.

Lemma sorted_by_name_length (l : list BaseBackupInfo) :
  length (sorted_by_name l) = length l.
Proof. by rewrite (Permutation_length (sorted_by_name_perm l)). Qed.

(** X4: a listing that fails on one of its entries stops there.  Writing
    to standard output is taken to succeed, so that an exception comes from
    the data of an entry (a missing key, a value that is no time or no
    number).  Then the heading and the complete output of the entries that
    sort before the failing one have been printed, in name order, and
    nothing of the failing entry or of the entries after it. *)
Theorem print_basebackup_list_failure_output (R : Runtime)
    (basebackups : list BaseBackupInfo) (caption : string) (verbose : bool)
    (w w' : pworld) (e : exn) :
  print_basebackup_list basebackups caption verbose w = (w', Raise e) →
  ∃ k rows,
    (k < length basebackups)%nat
    ∧ Forall2 (entry_output verbose) (take k (sorted_by_name basebackups)) rows
    ∧ stdout w' = stdout w ++ header_output caption ++ concat rows.
Proof.
  intros Hrun. unfold print_basebackup_list, print_header in Hrun.
  unfold bind at 1, M_bind in Hrun.
  match type of Hrun with
  | (let '(_, _) := ?h w in _) = _ => destruct (h w) as [w1 r1] eqn:Hh
  end.
  unfold bind, M_bind, print in Hh. cbn in Hh. injection Hh as <- <-.
  destruct (for_each_raise_output verbose _ _ _ _ Hrun) as (k & rows & Hk & Hrows & Hw').
  exists k, rows. rewrite sorted_by_name_length in Hk. split; [exact Hk|].
  split; [exact Hrows|]. rewrite Hw'. cbn. unfold header_output.
  by rewrite <- !app_assoc.
Qed.

Lemma print_basebackup_list_failure_output_witness :
  ∃ k rows,
    (k < 3)%nat
    ∧ Forall2 (entry_output false) (take k [sized_c; sized_d; sized_f]) rows
    ∧ stdout (@print_basebackup_list offline [sized_f; sized_d; sized_c]
                "Available basebackups" false sized_world).1
      = stdout sized_world ++ header_output "Available basebackups" ++ concat rows
    ∧ length (concat rows) = 2%nat
    ∧ (@print_basebackup_list offline [sized_f; sized_d; sized_c]
         "Available basebackups" false sized_world).2 = Raise (KeyError "size").
Proof.
  destruct (@print_basebackup_list offline [sized_f; sized_d; sized_c]
              "Available basebackups" false sized_world) as [w' r] eqn:Hrun.
  assert (r = Raise (KeyError "size")) as ->
    by (by vm_compute in Hrun; injection Hrun as _ <-).
  assert (length (stdout w') = 5%nat) as Hlen
    by (by vm_compute in Hrun; injection Hrun as <-).
  destruct (print_basebackup_list_failure_output offline [sized_f; sized_d; sized_c]
              "Available basebackups" false sized_world w' _ Hrun)
    as (k & rows & Hk & Hrows & Hout).
  exists k, rows. split; [exact Hk|]. split; [exact Hrows|]. split; [exact Hout|].
  split; [|reflexivity].
  cbn [fst]. rewrite Hout in Hlen. rewrite !length_app in Hlen. cbn in Hlen. lia.
Defined.

(** * Further properties of [HTTPRestore.list_basebackups] *)

Section HTTPFailures.
Context `{!Runtime}.

Lemma stable_subscript_value (v : value) (k : string) : stable (subscript_value v k).
Proof. destruct v; cbn; auto with stable. apply stable_bind; auto with stable. Qed.

Lemma stable_iterate (v : value) : stable (iterate v).
Proof.
  destruct v; cbn; auto with stable.
  intros w. destruct (heap w !! l) as [[]|]; reflexivity.
Qed.

Lemma stable_make_info (site : string) (v : value) : stable (make_info site v).
Proof.
  unfold make_info. apply stable_bind; [apply stable_subscript_value|].
  intros n. destruct n, v; auto with stable.
Qed.

Lemma stable_collect {A B} (f : A → M pworld B) (l : list A) :
  (∀ x, stable (f x)) → stable (collect f l).
Proof.
  intros Hf. induction l as [|x r IH]; cbn [collect]; [apply stable_ret|].
  apply stable_bind; [apply Hf|]. intros y.
  apply stable_bind; [exact IH|]. intros ys. apply stable_ret.
Qed.

(** One site, whatever its answer: one request, nothing printed, no object
    changed. *)
Lemma list_site_basebackups_effects (self : HTTPRestore) (site : string) (w : pworld) :
  let w' := (list_site_basebackups self site w).1 in
  requests w' = requests w ++ [_url self "basebackup" site]
  ∧ stdout w' = stdout w ∧ frame (heap w) w'.
Proof.
  cbv zeta. destruct (list_site_basebackups self site w) as [w' r] eqn:Hrun. cbn [fst].
  unfold list_site_basebackups, session_get_json in Hrun.
  unfold bind at 1, M_bind in Hrun.
  set (w0 := {| heap := heap w; stdout := stdout w;
                requests := requests w ++ [_url self "basebackup" site] |}) in Hrun.
  destruct (http_get_json (_url self "basebackup" site)) as [doc|e].
  2: { injection Hrun as <- _. split; [done|split; [done|by intros l o]]. }
  unfold bind at 1, M_bind in Hrun.
  destruct (materialize_spec doc w0) as (_ & Hfr & Hout & Hreq).
  destruct (materialize doc w0) as [w1 v]. cbn [fst snd] in *.
  assert (Hst : stable (bbs <- subscript_value v "basebackups" ;;
                        items <- iterate bbs ;; collect (make_info site) items)).
  { apply stable_bind; [apply stable_subscript_value|]. intros bbs.
    apply stable_bind; [apply stable_iterate|]. intros items.
    apply stable_collect, stable_make_info. }
  specialize (Hst w1). rewrite Hrun in Hst. cbn in Hst. subst w'.
  by rewrite Hreq, Hout.
Qed.


End HTTPFailures.

Section HTTPErrors.
Context `{!Runtime}.

Lemma json_get_None (k : string) (fields : list (string * json)) :
  json_get k fields = None → Forall (λ kv, k ≠ kv.1) fields.
Proof.
  unfold json_get.
  assert (∀ acc, foldl (λ (a : option json) (kv : string * json),
                          if decide (k = kv.1) then Some kv.2 else a) acc fields = None →
                 acc = None ∧ Forall (λ kv, k ≠ kv.1) fields) as Hgen.
  { induction fields as [|[k0 j0] r IH]; intros acc Hacc; [by split|].
    cbn in Hacc. destruct (IH _ Hacc) as [Hhd Hr].
    destruct (decide (k = k0)); [discriminate|]. split; [done|]. by constructor. }
  intros Hk. by destruct (Hgen None Hk).
Qed.

Lemma dict_get_set_ne (k k' : string) (v : value) (d : list (string * value)) :
  k ≠ k' → Dict.get k (Dict.set k' v d) = Dict.get k d.
Proof.
  intros Hne. induction d as [|[k0 v0] d IH]; cbn.
  - by rewrite decide_False.
  - destruct (decide (k' = k0)) as [->|]; cbn.
    + by rewrite !decide_False.
    + destruct (decide (k = k0)); [done | exact IH].
Qed.

Lemma dict_get_build_None (k : string) (keys : list string) (vs : list value) :
  Forall (λ k', k ≠ k') keys → Dict.get k (Dict.build (zip keys vs)) = None.
Proof.
  unfold Dict.build. intros Hkeys.
  assert (∀ acc, Dict.get k acc = None →
                 Dict.get k (foldl (λ a kv, Dict.set kv.1 kv.2 a) acc (zip keys vs)) = None)
    as Hgen; [|by apply Hgen].
  revert vs. induction Hkeys as [|k0 keys Hk0 _ IH]; intros vs acc Hacc; [done|].
  destruct vs as [|v vs]; [done|]. cbn. apply IH. by rewrite dict_get_set_ne.
Qed.

(** A site whose request fails. *)
Lemma list_site_basebackups_get_raises (self : HTTPRestore) (site : string) (e : exn)
    (w : pworld) :
  http_get_json (_url self "basebackup" site) = Raise e →
  (list_site_basebackups self site w).2 = Raise e.
Proof.
  intros Hget. unfold list_site_basebackups, session_get_json, bind, M_bind.
  by rewrite Hget.
Qed.

(** A site whose answer is an object without ["basebackups"]. *)
Lemma list_site_basebackups_missing_member (self : HTTPRestore) (site : string)
    (fields : list (string * json)) (w : pworld) :
  http_get_json (_url self "basebackup" site) = Return (JObject fields) →
  json_get "basebackups" fields = None →
  (list_site_basebackups self site w).2 = Raise (KeyError "basebackups").
Proof.
  intros Hget Hbb. unfold list_site_basebackups, session_get_json.
  unfold bind at 1, M_bind. rewrite Hget. unfold bind at 1, M_bind.
  set (w0 := {| heap := heap w; stdout := stdout w;
                requests := requests w ++ [_url self "basebackup" site] |}).
  destruct (materialize_spec (JObject fields) w0) as (Hrep & _).
  destruct (materialize (JObject fields) w0) as [w1 v]. cbn [fst snd] in *.
  inversion Hrep as [| | | | |l vs ? Hl Hvs]; subst.
  unfold bind, M_bind, subscript_value. unfold bind, M_bind, load_dict. rewrite Hl.
  unfold lift, subscript.
  rewrite dict_get_build_None; [done|].
  apply json_get_None in Hbb. apply Forall_fmap. exact Hbb.
Qed.

(** The sites before a failing one are listed; the failure of the site
    ends the run. *)
Lemma collect_sites_failing (self : HTTPRestore) (good : list string) (s : string)
    (rest : list string) (e : exn) :
  (∀ w1, (list_site_basebackups self s w1).2 = Raise e) →
  ∀ w exp,
    expected_listing self good = Some exp →
    ∃ w', collect (list_site_basebackups self) (good ++ s :: rest) w = (w', Raise e)
          ∧ requests w' = requests w ++ (_url self "basebackup" <$> good ++ [s])
          ∧ stdout w' = stdout w.
Proof.
  intros Hs. induction good as [|g good IH]; intros w exp Hexp.
  - cbn [app collect]. unfold bind at 1, M_bind.
    destruct (list_site_basebackups_effects self s w) as (Hreq & Hout & _).
    specialize (Hs w).
    destruct (list_site_basebackups self s w) as [w1 r]. cbn [fst snd] in *. subst r.
    exists w1. by repeat split.
  - cbn in Hexp.
    destruct (http_get_json (_url self "basebackup" g)) as [doc|] eqn:Hget; [|discriminate].
    destruct (listing_of doc) as [xs|] eqn:Hxs; [|discriminate].
    destruct (expected_listing self good) as [exp'|] eqn:Hgood; [|discriminate].
    destruct (list_site_basebackups_spec self g w doc xs Hget Hxs)
      as (w1 & infos & Hrun1 & Hreq1 & Hout1 & _).
    destruct (IH w1 exp' eq_refl) as (w2 & Hrun2 & Hreq2 & Hout2).
    exists w2. split.
    { cbn [app collect]. unfold bind at 1, M_bind. rewrite Hrun1.
      unfold bind at 1, M_bind. by rewrite Hrun2. }
    split; [|congruence].
    rewrite Hreq2, Hreq1. cbn. by rewrite <- app_assoc.
Qed.

End HTTPErrors.

Section HTTPAnswers.
Context `{!Runtime}.






End HTTPAnswers.



(** X6: a failure of the HTTP request for one site is the failure of
    [HTTPRestore.list_basebackups]: when the sites before [s] answer with
    well-formed documents and the request for [s] raises [e], the listing
    raises [e], the entries collected so far are lost, and the sites after
    [s] have not been contacted. *)
Theorem http_list_basebackups_request_failure (R : Runtime) (self : HTTPRestore)
    (w : pworld) (good : list string) (s : string) (rest : list string)
    (exp : list (string * (string * json))) (e : exn) :
  sites self = good ++ s :: rest →
  expected_listing self good = Some exp →
  http_get_json (_url self "basebackup" s) = Raise e →
  ∃ w', list_basebackups self w = (w', Raise e)
        ∧ requests w' = requests w ++ (_url self "basebackup" <$> good ++ [s])
        ∧ stdout w' = stdout w.
Proof.
  intros Hsites Hexp Hget.
  destruct (collect_sites_failing self good s rest e
              (λ w1, list_site_basebackups_get_raises self s e w1 Hget) w exp Hexp)
    as (w' & Hrun & Hreq & Hout).
  exists w'. split; [|done].
  unfold list_basebackups, bind, M_bind. by rewrite Hsites, Hrun.
Qed.

(** X7: an answer that is a JSON object without a ["basebackups"] member
    makes [HTTPRestore.list_basebackups] raise [KeyError('basebackups')],
    again without contacting the sites after it. *)
Theorem http_list_basebackups_missing_member (R : Runtime) (self : HTTPRestore)
    (w : pworld) (good : list string) (s : string) (rest : list string)
    (exp : list (string * (string * json))) (fields : list (string * json)) :
  sites self = good ++ s :: rest →
  expected_listing self good = Some exp →
  http_get_json (_url self "basebackup" s) = Return (JObject fields) →
  json_get "basebackups" fields = None →
  ∃ w', list_basebackups self w = (w', Raise (KeyError "basebackups"))
        ∧ requests w' = requests w ++ (_url self "basebackup" <$> good ++ [s])
        ∧ stdout w' = stdout w.
Proof.
  intros Hsites Hexp Hget Hbb.
  destruct (collect_sites_failing self good s rest (KeyError "basebackups")
              (λ w1, list_site_basebackups_missing_member self s fields w1 Hget Hbb)
              w exp Hexp)
    as (w' & Hrun & Hreq & Hout).
  exists w'. split; [|done].
  unfold list_basebackups, bind, M_bind. by rewrite Hsites, Hrun.
Qed.

Lemma http_list_basebackups_request_failure_witness :
  ∃ w', @list_basebackups (runtime_with patchy_sites) gamma_restore empty_world
        = (w', Raise (ConnectionError "http://localhost:16000/gamma/basebackup"))
        ∧ requests w' = ["http://localhost:16000/alpha/basebackup";
                         "http://localhost:16000/gamma/basebackup"]
        ∧ stdout w' = [].
Proof.
  destruct (@expected_listing (runtime_with patchy_sites) gamma_restore ["alpha"])
    as [exp|] eqn:Hexp; vm_compute in Hexp; [|discriminate].
  refine (http_list_basebackups_request_failure (runtime_with patchy_sites)
            gamma_restore empty_world ["alpha"] "gamma" ["beta"] exp _ eq_refl _ _).
  - rewrite <- Hexp. vm_compute. reflexivity.
  - vm_compute. reflexivity.
Defined.

Lemma http_list_basebackups_missing_member_witness :
  ∃ w', @list_basebackups (runtime_with patchy_sites) delta_restore empty_world
        = (w', Raise (KeyError "basebackups"))
        ∧ requests w' = ["http://localhost:16000/alpha/basebackup";
                         "http://localhost:16000/delta/basebackup"]
        ∧ stdout w' = [].
Proof.
  destruct (@expected_listing (runtime_with patchy_sites) delta_restore ["alpha"])
    as [exp|] eqn:Hexp; vm_compute in Hexp; [|discriminate].
  refine (http_list_basebackups_missing_member (runtime_with patchy_sites)
            delta_restore empty_world ["alpha"] "delta" ["beta"] exp
            [("status", JString "ok")] eq_refl _ _ _).
  - rewrite <- Hexp. vm_compute. reflexivity.
  - vm_compute. reflexivity.
  - vm_compute. reflexivity.
Defined.

(** * Further properties of the preservation requests *)

Section LeafFacts.

Lemma split_go_app (sep : ascii) (a n : string) :
  ∀ cur, PyStr.split_go sep cur (a +:+ String sep n)
         = PyStr.split_go sep cur a ++ PyStr.split_go sep "" n.
Proof.
  induction a as [|c a IH]; intros cur.
  - rewrite app_nil_l_s. cbn [PyStr.split_go app]. by rewrite decide_True.
  - rewrite app_cons. cbn [PyStr.split_go].
    destruct (decide (c = sep)); [by rewrite IH | apply IH].
Qed.

Lemma split_go_plain (sep : ascii) (n : string) :
  ∀ cur, ¬ In sep (list_ascii_of_string n) →
         PyStr.split_go sep cur n = [String.rev_app cur n].
Proof.
  induction n as [|c n IH]; intros cur Hn; [reflexivity|].
  cbn [PyStr.split_go]. rewrite decide_False by (intros ->; apply Hn; by left).
  rewrite IH; [reflexivity|]. intros Hin. apply Hn. by right.
Qed.

(** The last component of a path that ends in a slash-free name. *)
Lemma Path_name_of_child (dir n : string) :
  ¬ In "/"%char (list_ascii_of_string n) → n ≠ "" → n ≠ "." →
  Path_name (dir +:+ "/" +:+ n) = n.
Proof.
  intros Hn He Hd. unfold Path_name, Path_parts, PyStr.split.
  change ("/" +:+ n) with (String "/" n).
  rewrite split_go_app, (split_go_plain _ n "" Hn). cbn [String.rev_app].
  rewrite filter_app, filter_cons_True by done. rewrite filter_nil.
  apply last_last.
Qed.

Lemma string_app_inv_head (a b c : string) : a +:+ b = a +:+ c → b = c.
Proof.
  induction a as [|x a IH]; [done|]. rewrite !app_cons. intros [= H]. by apply IH.
Qed.

Lemma request_key_inj (p leaf1 leaf2 : string) :
  request_key p leaf1 = request_key p leaf2 → leaf1 = leaf2.
Proof.
  unfold request_key. intros H.
  apply string_app_inv_head in H. by apply string_app_inv_head in H.
Qed.

End LeafFacts.

(** X8: only the last component of the name of a backup goes into its
    preservation request.  For a backup that is named by a path, such as
    the key [site/basebackup/2022_12_10] under which a listing finds it,
    the request is named after the last component [n] alone: the driver is
    asked once, to store an empty object at
    [prefix/preservation_request/n_deadline] with [preserve-backup] set to
    [n], and [n_deadline] is returned. *)
Theorem request_backup_preservation_of_path
    (S : Type) (T : BaseTransfer S) (self : BaseBackupInfoFromBucket)
    (dir n : string) (preserve_until : Datetime.datetime) (w : world S) :
  name self = dir +:+ "/" +:+ n →
  ¬ In "/"%char (list_ascii_of_string n) → n ≠ "" → n ≠ "." →
  let leaf := n +:+ "_" +:+ Datetime.str preserve_until in
  request_backup_preservation self preserve_until w
  = (let '(s', r) :=
       store_file_from_memory
         (os_path_join (prefix self) ["preservation_request"; leaf]) []
         {[ "preserve-backup" := n; "preserve-until" := Datetime.str preserve_until ]}
         (storage w) in
     ({| storage := s'; log := log w |}, outcome_bind (λ _, Return leaf) r)).
Proof.
  intros Hname Hn He Hd leaf.
  pose proof (Path_name_of_child dir n Hn He Hd) as Hleaf. rewrite <- Hname in Hleaf.
  assert (os_path_join (prefix self) ["preservation_request"; leaf]
          = request_key (prefix self) leaf) as ->.
  { unfold leaf. rewrite <- Hleaf. apply os_path_join_request. }
  rewrite request_backup_preservation_call. cbv zeta. by rewrite Hleaf.
Qed.

Lemma request_backup_preservation_of_path_witness :
  request_backup_preservation
    {| info := {| name := "site_name/basebackup/2022_12_10"; site := ""; data := 0%nat |};
       prefix := "site_name" |} test_preserve_until fresh_world
  = ({| storage :=
          LocalTransfer.mk
            {[ "site_name/preservation_request/2022_12_10_2022-12-18 10:20:30.123456+00:00"
               := ([], {[ "preserve-backup" := "2022_12_10";
                          "preserve-until" := "2022-12-18 10:20:30.123456+00:00" ]}) ]}
            true;
        log := [] |},
     Return "2022_12_10_2022-12-18 10:20:30.123456+00:00").
Proof.
  rewrite (request_backup_preservation_of_path _ _
             {| info := {| name := "site_name/basebackup/2022_12_10"; site := "";
                           data := 0%nat |};
                prefix := "site_name" |}
             "site_name/basebackup" "2022_12_10" test_preserve_until fresh_world
             eq_refl); [| |done|done].
  - compute_done.
  - cbn. intros H. decompose [or] H; discriminate || done.
Defined.

Section LocalRuns.

Lemma local_request_run (self : BaseBackupInfoFromBucket)
    (preserve_until : Datetime.datetime) (w : world LocalTransfer.t) :
  LocalTransfer.accessible (storage w) = true →
  let backup_name := Path_name (name self) in
  let leaf := backup_name +:+ "_" +:+ Datetime.str preserve_until in
  request_backup_preservation self preserve_until w
  = ({| storage :=
          LocalTransfer.mk
            (<[request_key (prefix self) leaf
               := ([], preservation_metadata backup_name preserve_until)]>
               (LocalTransfer.blobs (storage w))) true;
        log := log w |}, Return leaf).
Proof.
  intros Hacc backup_name leaf. rewrite request_backup_preservation_call.
  cbn [store_file_from_memory LocalTransfer.transfer]. unfold LocalTransfer.store.
  by rewrite Hacc.
Qed.

Lemma local_cancel_run (self : BaseBackupInfoFromBucket) (n rest : string)
    (w : world LocalTransfer.t) (blob : bytes * gmap string string) :
  LocalTransfer.accessible (storage w) = true →
  let key := request_key (prefix self) (Path_name n +:+ "_" +:+ rest) in
  LocalTransfer.blobs (storage w) !! key = Some blob →
  cancel_backup_preservation self (Path_name n +:+ "_" +:+ rest) w
  = ({| storage := LocalTransfer.mk (delete key (LocalTransfer.blobs (storage w))) true;
        log := log w |}, Return ()).
Proof.
  intros Hacc key Hkey. rewrite cancel_backup_preservation_call. unfold on_storage.
  cbn [delete_key LocalTransfer.transfer]. unfold LocalTransfer.delete.
  fold key. by rewrite Hacc, Hkey.
Qed.

End LocalRuns.

(** X9: requests for the same backup with different deadlines are separate
    objects.  On the local store, after two requests whose deadlines are
    written differently, cancelling the first one removes its marker and
    leaves the marker of the second one, with its metadata, and every other
    object in place. *)
Theorem preservation_requests_with_distinct_deadlines
    (self : BaseBackupInfoFromBucket) (pu1 pu2 : Datetime.datetime)
    (w : world LocalTransfer.t) :
  LocalTransfer.accessible (storage w) = true →
  Datetime.str pu1 ≠ Datetime.str pu2 →
  let backup_name := Path_name (name self) in
  let key1 := request_key (prefix self) (backup_name +:+ "_" +:+ Datetime.str pu1) in
  let key2 := request_key (prefix self) (backup_name +:+ "_" +:+ Datetime.str pu2) in
  ∃ w',
    (r1 <- request_backup_preservation self pu1 ;;
     _ <- request_backup_preservation self pu2 ;;
     cancel_backup_preservation self r1) w = (w', Return ())
    ∧ LocalTransfer.blobs (storage w') !! key1 = None
    ∧ LocalTransfer.blobs (storage w') !! key2
      = Some ([], preservation_metadata backup_name pu2)
    ∧ (∀ k, k ≠ key1 → k ≠ key2 →
         LocalTransfer.blobs (storage w') !! k = LocalTransfer.blobs (storage w) !! k)
    ∧ log w' = log w.
Proof.
  intros Hacc Hne backup_name key1 key2.
  assert (key1 ≠ key2) as Hkeys.
  { intros Heq. apply request_key_inj in Heq.
    apply string_app_inv_head in Heq. apply string_app_inv_head in Heq. done. }
  set (md1 := preservation_metadata backup_name pu1).
  set (md2 := preservation_metadata backup_name pu2).
  set (w1 := {| storage := LocalTransfer.mk
                             (<[key1 := ([], md1)]> (LocalTransfer.blobs (storage w))) true;
                log := log w |}).
  set (w2 := {| storage := LocalTransfer.mk
                             (<[key2 := ([], md2)]> (LocalTransfer.blobs (storage w1))) true;
                log := log w1 |}).
  assert (H1 : request_backup_preservation self pu1 w
               = (w1, Return (backup_name +:+ "_" +:+ Datetime.str pu1)))
    by exact (local_request_run self pu1 w Hacc).
  assert (H2 : request_backup_preservation self pu2 w1
               = (w2, Return (backup_name +:+ "_" +:+ Datetime.str pu2)))
    by exact (local_request_run self pu2 w1 eq_refl).
  assert (Hk1 : LocalTransfer.blobs (storage w2) !! key1 = Some ([], md1)).
  { cbn [storage LocalTransfer.blobs w2 w1].
    rewrite lookup_insert_ne by done. apply lookup_insert_eq. }
  pose proof (local_cancel_run self (name self) (Datetime.str pu1) w2 _ eq_refl Hk1) as H3.
  eexists. split.
  { rewrite (bind_return _ _ _ _ _ H1). rewrite (bind_return _ _ _ _ _ H2). exact H3. }
  cbn [storage log LocalTransfer.blobs w2 w1]. fold backup_name key1 key2.
  split; [apply lookup_delete_eq|]. split.
  { rewrite lookup_delete_ne by done. apply lookup_insert_eq. }
  split; [|done]. intros k Hk Hk2.
  rewrite lookup_delete_ne by done. by rewrite !lookup_insert_ne.
Qed.

Lemma preservation_requests_with_distinct_deadlines_witness :
  ∃ w',
    (r1 <- request_backup_preservation (test_backup "site_name") test_preserve_until ;;
     _ <- request_backup_preservation (test_backup "site_name")
            (Datetime.mk 2023 1 1 0 0 0 0 None) ;;
     cancel_backup_preservation (test_backup "site_name") r1) fresh_world
    = (w', Return ())
    ∧ LocalTransfer.blobs (storage w')
        !! "site_name/preservation_request/2022_12_10_2022-12-18 10:20:30.123456+00:00"
      = None
    ∧ LocalTransfer.blobs (storage w')
        !! "site_name/preservation_request/2022_12_10_2023-01-01 00:00:00"
      = Some ([], {[ "preserve-backup" := "2022_12_10";
                     "preserve-until" := "2023-01-01 00:00:00" ]}).
Proof.
  destruct (preservation_requests_with_distinct_deadlines (test_backup "site_name")
              test_preserve_until (Datetime.mk 2023 1 1 0 0 0 0 None) fresh_world
              eq_refl ltac:(compute_done))
    as (w' & Hrun & H1 & H2 & _).
  exists w'. split; [exact Hrun|]. split; [exact H1 | exact H2].
Defined.

(** X10: requests are not counted.  On the local store a second request
    for the same backup and deadline returns the same name and leaves the
    store as the first one left it, so one cancellation afterwards removes
    the marker. *)
Theorem repeated_preservation_request_is_one_marker
    (self : BaseBackupInfoFromBucket) (preserve_until : Datetime.datetime)
    (w : world LocalTransfer.t) :
  LocalTransfer.accessible (storage w) = true →
  let leaf := Path_name (name self) +:+ "_" +:+ Datetime.str preserve_until in
  let key := request_key (prefix self) leaf in
  ∃ w1 w2,
    request_backup_preservation self preserve_until w = (w1, Return leaf)
    ∧ request_backup_preservation self preserve_until w1 = (w1, Return leaf)
    ∧ cancel_backup_preservation self leaf w1 = (w2, Return ())
    ∧ LocalTransfer.blobs (storage w2) !! key = None
    ∧ (∀ k, k ≠ key →
         LocalTransfer.blobs (storage w2) !! k = LocalTransfer.blobs (storage w) !! k).
Proof.
  intros Hacc leaf key.
  set (md := preservation_metadata (Path_name (name self)) preserve_until).
  set (w1 := {| storage := LocalTransfer.mk
                             (<[key := ([], md)]> (LocalTransfer.blobs (storage w))) true;
                log := log w |}).
  assert (Hk : LocalTransfer.blobs (storage w1) !! key = Some ([], md))
    by apply lookup_insert_eq.
  pose proof (local_cancel_run self (name self) (Datetime.str preserve_until) w1 _
                eq_refl Hk) as H3.
  eexists w1, _.
  split; [exact (local_request_run self preserve_until w Hacc)|].
  split.
  { rewrite (local_request_run self preserve_until w1 eq_refl).
    fold leaf key md. unfold w1. cbn [storage log LocalTransfer.blobs].
    by rewrite insert_insert_eq. }
  split; [exact H3|].
  cbn [storage LocalTransfer.blobs w1]. fold leaf key.
  split; [apply lookup_delete_eq|].
  intros k Hne. rewrite lookup_delete_ne by done. by rewrite lookup_insert_ne.
Qed.

Lemma repeated_preservation_request_is_one_marker_witness :
  ∃ w1 w2,
    request_backup_preservation (test_backup "site_name") test_preserve_until fresh_world
    = (w1, Return "2022_12_10_2022-12-18 10:20:30.123456+00:00")
    ∧ request_backup_preservation (test_backup "site_name") test_preserve_until w1
      = (w1, Return "2022_12_10_2022-12-18 10:20:30.123456+00:00")
    ∧ cancel_backup_preservation (test_backup "site_name")
        "2022_12_10_2022-12-18 10:20:30.123456+00:00" w1 = (w2, Return ())
    ∧ LocalTransfer.blobs (storage w2)
        !! "site_name/preservation_request/2022_12_10_2022-12-18 10:20:30.123456+00:00"
      = None.
Proof.
  destruct (repeated_preservation_request_is_one_marker (test_backup "site_name")
              test_preserve_until fresh_world eq_refl)
    as (w1 & w2 & H1 & H2 & H3 & H4 & _).
  exists w1, w2. split; [exact H1|]. split; [exact H2|]. split; [exact H3 | exact H4].
Defined.

(** * [show_basebackup_list] *)

(** X11: [show_basebackup_list] on a store without sites.  The listing is
    made first, with whatever it requests; then, instead of an empty table,
    the caption fails with [IndexError] on [self.sites[0]], so nothing is
    printed and the call never returns.  For an [HTTPRestore] without sites
    the state is left as it was. *)
Theorem show_basebackup_list_without_sites (R : Runtime) (self : ObjectStore)
    (verbose : bool) (w : pworld) :
  store_sites self = [] →
  show_basebackup_list self verbose w
  = ((store_list_basebackups self w).1,
     match (store_list_basebackups self w).2 with
     | Return _ => Raise IndexError
     | Raise e => Raise e
     end)
  ∧ (∀ restore, self = HTTPRestore_store restore →
       show_basebackup_list self verbose w = (w, Raise IndexError)).
Proof.
  intros Hsites.
  assert (show_basebackup_list self verbose w
          = ((store_list_basebackups self w).1,
             match (store_list_basebackups self w).2 with
             | Return _ => Raise IndexError
             | Raise e => Raise e
             end)) as Hshow.
  { unfold show_basebackup_list, bind, M_bind. rewrite Hsites.
    by destruct (store_list_basebackups self w) as [w1 [result|e]]. }
  split; [exact Hshow|].
  intros restore ->. rewrite Hshow. cbn in Hsites.
  cbn [store_list_basebackups HTTPRestore_store]. unfold list_basebackups.
  by rewrite Hsites.
Qed.

Lemma show_basebackup_list_without_sites_witness :
  @show_basebackup_list offline
    (@HTTPRestore_store offline {| host := "localhost"; port := "16000"; sites := [] |})
    true empty_world
  = (empty_world, Raise IndexError).
Proof.
  destruct (show_basebackup_list_without_sites offline
              (@HTTPRestore_store offline
                 {| host := "localhost"; port := "16000"; sites := [] |})
              true empty_world eq_refl) as [_ H].
  exact (H _ eq_refl).
Defined.

(** X12: listing and printing together.  When every site of an
    [HTTPRestore] answers with a well-formed listing and
    [show_basebackup_list] returns, it has printed the heading, whose
    caption names the first site only, and below it one block of output
    for every element of every site: the entries of all sites are merged
    into one table in name order. *)
Theorem show_basebackup_list_http (R : Runtime) (self : HTTPRestore)
    (verbose : bool) (w w' : pworld) (site0 : string) (others : list string)
    (exp : list (string * (string * json))) :
  sites self = site0 :: others →
  expected_listing self (sites self) = Some exp →
  show_basebackup_list (HTTPRestore_store self) verbose w = (w', Return ()) →
  ∃ result rows,
    name <$> result = (λ x, x.2.1) <$> exp
    ∧ site <$> result = (λ x, x.1) <$> exp
    ∧ Forall2 (entry_output verbose) (sorted_by_name result) rows
    ∧ stdout w'
      = stdout w
        ++ header_output ("Available " +:+ repr_str site0 +:+ " basebackups:")
        ++ concat rows.
Proof.
  intros Hsites Hexp Hrun.
  destruct (collect_sites_spec self (sites self) w exp Hexp)
    as (w1 & per & Hlist & _ & Hout & _ & Hall).
  exists (concat per).
  destruct (lists_element_names _ _ _ Hall) as [Hn Hs].
  unfold show_basebackup_list, bind, M_bind in Hrun.
  cbn [store_list_basebackups store_sites HTTPRestore_store] in Hrun.
  unfold list_basebackups, bind, M_bind in Hrun. rewrite Hlist, Hsites in Hrun.
  cbn [ret] in Hrun.
  pose proof (printed_print_basebackup_list (concat per)
                ("Available " +:+ repr_str site0 +:+ " basebackups:") verbose
                (stdout w1) w1 eq_refl) as Hp.
  unfold ret in Hrun. rewrite Hrun in Hp. destruct Hp as (rows & Hrows & Hw').
  exists rows. rewrite <- Hout. auto.
Qed.

Lemma show_basebackup_list_http_witness :
  ∃ rows,
    length rows = 3%nat
    ∧ stdout (@show_basebackup_list (runtime_with two_sites)
                (@HTTPRestore_store (runtime_with two_sites) two_sites_restore)
                false empty_world).1
      = header_output "Available 'alpha' basebackups:" ++ concat rows.
Proof.
  destruct (@show_basebackup_list (runtime_with two_sites)
              (@HTTPRestore_store (runtime_with two_sites) two_sites_restore)
              false empty_world) as [w' r] eqn:Hrun.
  assert (r = Return ()) as -> by (by vm_compute in Hrun; injection Hrun as _ <-).
  destruct (@expected_listing (runtime_with two_sites) two_sites_restore
              (sites two_sites_restore)) as [exp|] eqn:Hexp;
    vm_compute in Hexp; [|discriminate].
  destruct (show_basebackup_list_http (runtime_with two_sites) two_sites_restore false
              empty_world w' "alpha" ["beta"] exp eq_refl)
    as (result & rows & Hn & _ & Hrows & Hout); [|exact Hrun|].
  { rewrite <- Hexp. vm_compute. reflexivity. }
  exists rows. split; [|exact Hout].
  rewrite <- (Forall2_length _ _ _ Hrows), sorted_by_name_length.
  rewrite <- (length_fmap name), Hn, length_fmap.
  injection Hexp as <-. reflexivity.
Defined.

(** * [BucketObjectStore.list_basebackups] *)

Lemma named_element_entry_json (e : list_entry) :
  named_element (entry_json e) = Some (entry_name e, entry_json e).
Proof. reflexivity. Qed.

Lemma named_elements_entry_json (es : list list_entry) :
  named_elements (entry_json <$> es)
  = Some ((λ e, (entry_name e, entry_json e)) <$> es).
Proof.
  induction es as [|e r IH]; [reflexivity|].
  cbn [fmap list_fmap named_elements]. rewrite named_element_entry_json.
  change (list_fmap _ _ entry_json r) with (entry_json <$> r). by rewrite IH.
Qed.

Section BucketFacts.
Context {C T : Type} `{!BaseTransfer T} `{!Buckets C T}.

Lemma lists_object_mono (h h' : gmap loc object) (b : ListedBaseBackup T)
    (x : string * (T * string) * list_entry) :
  (∀ l o, h !! l = Some o → h' !! l = Some o) →
  lists_object h b x → lists_object h' b x.
Proof.
  intros Hsub (Hs & Ht & Hp & Hn & Hr). repeat split; [done..|].
  by eapply represents_mono.
Qed.

Lemma collect_make_bucket_info (self : BucketObjectStore) (storage : T)
    (site p : string) (w : pworld) (es : list list_entry) :
  get_site_prefix self site = Return p →
  ∀ vs,
    Forall2 (represents (heap w)) vs (entry_json <$> es) →
    ∃ infos, collect (make_bucket_info self storage site) vs w = (w, Return infos)
             ∧ Forall2 (lists_object (heap w)) infos
                 ((λ e, (site, (storage, p), e)) <$> es).
Proof.
  intros Hp. induction es as [|e r IH]; intros vs Hvs.
  - inversion Hvs; subst. exists []. split; [done | constructor].
  - inversion Hvs as [|v ? vs' ? Hv Hvs']; subst.
    destruct (make_info_named site w v (entry_json e) _ Hv (named_element_entry_json e))
      as (b & Hb & Hs & Hn & Hr).
    destruct (IH vs' Hvs') as (infos & Hrun & Hall).
    exists ({| listed_storage := storage; listed_backup := {| info := b; prefix := p |} |}
            :: infos).
    split; [|constructor; [by repeat split | exact Hall]].
    assert (Hmk : make_bucket_info self storage site v w
                  = (w, Return {| listed_storage := storage;
                                  listed_backup := {| info := b; prefix := p |} |})).
    { unfold make_bucket_info. rewrite (bind_return _ _ _ _ _ Hb).
      assert (Hl : lift (get_site_prefix self site) w = (w, Return p))
        by (unfold lift; by rewrite Hp).
      by rewrite (bind_return _ _ _ _ _ Hl). }
    cbn [collect]. rewrite (bind_return _ _ _ _ _ Hmk).
    by rewrite (bind_return _ _ _ _ _ Hrun).
Qed.

(** One site: the entries below its prefix. *)
Lemma bucket_list_site_spec (self : BucketObjectStore) (site : string) (w : pworld)
    (storage : T) (p : string) (es : list list_entry) :
  bucket_site_listing self site = Some (storage, p, es) →
  ∃ w' infos,
    bucket_list_site self site w = (w', Return infos)
    ∧ requests w' = requests w
    ∧ stdout w' = stdout w
    ∧ frame (heap w) w'
    ∧ Forall2 (lists_object (heap w')) infos ((λ e, (site, (storage, p), e)) <$> es).
Proof.
  intros Hsite. unfold bucket_site_listing in Hsite.
  destruct (get_object_storage_config (bucket_config self) site) as [c|] eqn:Hc;
    [|discriminate].
  destruct (get_transfer c) as [t|] eqn:Ht; [|discriminate].
  destruct (get_site_prefix self site) as [p0|] eqn:Hp; [|discriminate].
  destruct (list_path (os_path_join p0 ["basebackup"]) t) as [t' [results|]] eqn:Hl;
    [|discriminate].
  injection Hsite as <- <- <-.
  destruct (materialize_spec (JArray (entry_json <$> results)) w)
    as (Hrep & Hfr & Hout & Hreq).
  destruct (materialize (JArray (entry_json <$> results)) w) as [w1 v] eqn:Hmat.
  cbn [fst snd] in *.
  inversion Hrep as [| | | |la items ? Hla Hitems|]; subst.
  destruct (collect_make_bucket_info self t' site p0 w1 results Hp items Hitems)
    as (infos & Hrun & Hall).
  exists w1, infos. split; [|by repeat split].
  unfold bucket_list_site. unfold bind at 1, M_bind, lift. rewrite Hc.
  unfold bind at 1, M_bind. rewrite Ht.
  unfold bind at 1, M_bind. rewrite Hp, Hl.
  unfold bind at 1, M_bind. unfold bind at 1, M_bind. rewrite Hmat.
  unfold bind at 1, M_bind, iterate. rewrite Hla. exact Hrun.
Qed.

Lemma bucket_collect_sites_spec (self : BucketObjectStore) (ss : list string) :
  ∀ w exp,
    expected_bucket_listing self ss = Some exp →
    ∃ w' per_site,
      collect (bucket_list_site self) ss w = (w', Return per_site)
      ∧ requests w' = requests w
      ∧ stdout w' = stdout w
      ∧ frame (heap w) w'
      ∧ Forall2 (lists_object (heap w')) (concat per_site) exp.
Proof.
  induction ss as [|s r IH]; intros w exp Hexp.
  - injection Hexp as <-. exists w, []. cbn.
    repeat split; [apply frame_refl | constructor].
  - cbn in Hexp.
    destruct (bucket_site_listing self s) as [[[t p] es]|] eqn:Hs; [|discriminate].
    destruct (expected_bucket_listing self r) as [rest|] eqn:Hrest; [|discriminate].
    injection Hexp as <-.
    destruct (bucket_list_site_spec self s w t p es Hs)
      as (w1 & infos & Hrun1 & Hreq1 & Hout1 & Hfr1 & Hall1).
    destruct (IH w1 rest eq_refl) as (w2 & per & Hrun2 & Hreq2 & Hout2 & Hfr2 & Hall2).
    exists w2, (infos :: per). split.
    { cbn [collect]. unfold bind at 1, M_bind. rewrite Hrun1.
      unfold bind, M_bind. by rewrite Hrun2. }
    split; [congruence|]. split; [congruence|]. split; [by eapply frame_trans|].
    cbn [concat]. apply Forall2_app; [|exact Hall2].
    eapply Forall2_impl; [exact Hall1|]. intros b x. by apply lists_object_mono.
Qed.

(** A site whose prefix is not configured. *)
Lemma bucket_list_site_no_prefix (self : BucketObjectStore) (site : string) (e : exn)
    (c : C) (t : T) (w : pworld) :
  get_object_storage_config (bucket_config self) site = Return c →
  get_transfer c = Return t →
  get_site_prefix self site = Raise e →
  bucket_list_site self site w = (w, Raise e).
Proof.
  intros Hc Ht Hp. unfold bucket_list_site.
  unfold bind at 1, M_bind, lift. rewrite Hc.
  unfold bind at 1, M_bind. rewrite Ht.
  unfold bind at 1, M_bind. by rewrite Hp.
Qed.

End BucketFacts.

(** X13: when every site has a storage configuration, a transfer object
    and a configured prefix, and its transfer lists the objects below
    [prefix/basebackup], [BucketObjectStore.list_basebackups] returns one
    entry per listed object, in site order and within a site in the order
    of the listing.  The entry carries the name of the object, the site,
    the prefix configured for the site and the transfer object of the
    site, and its data is the listed dictionary.  Nothing is printed and
    no existing object is changed. *)
Theorem bucket_list_basebackups_one_entry_per_object
    (C T : Type) (D : BaseTransfer T) (B : Buckets C T)
    (self : BucketObjectStore) (w : pworld)
    (exp : list (string * (T * string) * list_entry)) :
  expected_bucket_listing self (bucket_sites self) = Some exp →
  ∃ w' result,
    bucket_list_basebackups self w = (w', Return result)
    ∧ length result = length exp
    ∧ Forall2 (lists_object (heap w')) result exp
    ∧ frame (heap w) w'
    ∧ stdout w' = stdout w
    ∧ requests w' = requests w.
Proof.
  intros Hexp.
  destruct (bucket_collect_sites_spec self (bucket_sites self) w exp Hexp)
    as (w' & per & Hrun & Hreq & Hout & Hfr & Hall).
  exists w', (concat per). split.
  { unfold bucket_list_basebackups. by rewrite (bind_return _ _ _ _ _ Hrun). }
  split; [by eapply Forall2_length|]. auto.
Qed.

Lemma bucket_list_basebackups_one_entry_per_object_witness :
  ∃ w' result,
    @bucket_list_basebackups string LocalTransfer.t LocalTransfer.transfer test_buckets
      (test_bucket_store ["alpha"; "beta"]) empty_world = (w', Return result)
    ∧ Forall2 (lists_object (heap w')) result
        [("alpha", (alpha_store, "alpha"), alpha_entry);
         ("beta", (beta_store, "beta"), beta_entry)].
Proof.
  destruct (bucket_list_basebackups_one_entry_per_object string LocalTransfer.t
              LocalTransfer.transfer test_buckets (test_bucket_store ["alpha"; "beta"])
              empty_world
              [("alpha", (alpha_store, "alpha"), alpha_entry);
               ("beta", (beta_store, "beta"), beta_entry)])
    as (w' & result & Hrun & _ & Hall & _).
  { vm_compute. reflexivity. }
  exists w', result. split; [exact Hrun | exact Hall].
Defined.

Section BucketFailure.
Context {C T : Type} `{!BaseTransfer T} `{!Buckets C T}.

Lemma bucket_collect_sites_failing (self : BucketObjectStore) (good : list string)
    (s : string) (rest : list string) (e : exn) :
  (∀ w1, bucket_list_site self s w1 = (w1, Raise e)) →
  ∀ w exp,
    expected_bucket_listing self good = Some exp →
    ∃ w', collect (bucket_list_site self) (good ++ s :: rest) w = (w', Raise e)
          ∧ stdout w' = stdout w ∧ requests w' = requests w ∧ frame (heap w) w'.
Proof.
  intros Hs. induction good as [|g good IH]; intros w exp Hexp.
  - exists w. cbn [app collect]. rewrite (bind_raise _ _ _ _ _ (Hs w)).
    repeat split. apply frame_refl.
  - cbn in Hexp.
    destruct (bucket_site_listing self g) as [[[t p] es]|] eqn:Hg; [|discriminate].
    destruct (expected_bucket_listing self good) as [exp'|] eqn:Hgood; [|discriminate].
    destruct (bucket_list_site_spec self g w t p es Hg)
      as (w1 & infos & Hrun1 & Hreq1 & Hout1 & Hfr1 & _).
    destruct (IH w1 exp' eq_refl) as (w2 & Hrun2 & Hout2 & Hreq2 & Hfr2).
    exists w2. split.
    { cbn [app collect]. rewrite (bind_return _ _ _ _ _ Hrun1).
      by rewrite (bind_raise _ _ _ _ _ Hrun2). }
    split; [congruence|]. split; [congruence|]. by eapply frame_trans.
Qed.

End BucketFailure.

(** X14: a site without a configured prefix.  When the sites before [s]
    list well and [config["backup_sites"]] has no entry for [s], or an
    entry without ["prefix"], [BucketObjectStore.list_basebackups] raises
    [KeyError] with the missing key, although the storage configuration and
    the transfer object of [s] were obtained; the entries of the earlier
    sites are lost. *)
Theorem bucket_list_basebackups_missing_prefix
    (C T : Type) (D : BaseTransfer T) (B : Buckets C T)
    (self : BucketObjectStore) (w : pworld) (good : list string) (s : string)
    (rest : list string) (exp : list (string * (T * string) * list_entry))
    (c : C) (t : T) (by_site : gmap string (gmap string string)) (key : string) :
  bucket_sites self = good ++ s :: rest →
  expected_bucket_listing self good = Some exp →
  get_object_storage_config (bucket_config self) s = Return c →
  get_transfer c = Return t →
  backup_sites (bucket_config self) = Some by_site →
  (by_site !! s = None ∧ key = s)
  ∨ (∃ options, by_site !! s = Some options ∧ options !! "prefix" = None
                ∧ key = "prefix") →
  ∃ w', bucket_list_basebackups self w = (w', Raise (KeyError key))
        ∧ stdout w' = stdout w ∧ frame (heap w) w'.
Proof.
  intros Hsites Hexp Hc Ht Hcfg Hkey.
  assert (get_site_prefix self s = Raise (KeyError key)) as Hp.
  { unfold get_site_prefix. rewrite Hcfg.
    destruct Hkey as [[Hs ->]|(options & Hs & Ho & ->)]; rewrite Hs; [done|].
    by rewrite Ho. }
  destruct (bucket_collect_sites_failing self good s rest (KeyError key)
              (λ w1, bucket_list_site_no_prefix self s _ c t w1 Hc Ht Hp) w exp Hexp)
    as (w' & Hrun & Hout & _ & Hfr).
  exists w'. split; [|done].
  unfold bucket_list_basebackups. rewrite Hsites.
  by rewrite (bind_raise _ _ _ _ _ Hrun).
Qed.

Lemma bucket_list_basebackups_missing_prefix_witness :
  ∃ w',
    @bucket_list_basebackups string LocalTransfer.t LocalTransfer.transfer test_buckets
      (test_bucket_store ["alpha"; "gamma"; "beta"]) empty_world
    = (w', Raise (KeyError "prefix"))
    ∧ stdout w' = [].
Proof.
  destruct (bucket_list_basebackups_missing_prefix string LocalTransfer.t
              LocalTransfer.transfer test_buckets
              (test_bucket_store ["alpha"; "gamma"; "beta"]) empty_world
              ["alpha"] "gamma" ["beta"]
              [("alpha", (alpha_store, "alpha"), alpha_entry)]
              "gamma" beta_store
              {[ "alpha" := {[ "prefix" := "alpha" ]};
                 "beta" := {[ "prefix" := "beta" ]};
                 "gamma" := ∅ ]}
              "prefix" eq_refl)
    as (w' & Hrun & Hout & _).
  - vm_compute. reflexivity.
  - reflexivity.
  - reflexivity.
  - reflexivity.
  - right. exists ∅. split; [compute_done|]. split; [compute_done | reflexivity].
  - exists w'. by split.
Defined.

(** * Missing keys *)

(** X15: an entry without the keys that the listing reads.  When the data
    of an entry has no ["metadata"], or its metadata no ["start-time"], the
    loop body raises [KeyError] with that key and prints nothing; the
    verbose flag makes no difference. *)
Theorem print_entry_missing_key (R : Runtime) (verbose : bool) (b : BaseBackupInfo)
    (w : pworld) (d : list (string * value)) (key : string) :
  heap w !! data b = Some (ODict d) →
  (Dict.get "metadata" d = None ∧ key = "metadata")
  ∨ (∃ lm m, Dict.get "metadata" d = Some (VRef lm) ∧ heap w !! lm = Some (ODict m)
             ∧ Dict.get "start-time" m = None ∧ key = "start-time") →
  (print_entry verbose b w).2 = Raise (KeyError key)
  ∧ stdout (print_entry verbose b w).1 = stdout w.
Proof.
  intros Hd Hkey. unfold print_entry.
  rewrite (bind_return (load_dict (data b)) _ w w d (load_dict_eq _ _ _ Hd)).
  destruct Hkey as [[Hmd ->]|(lm & m & Hmd & Hm & Hst & ->)].
  - assert (Hsub : lift (subscript d "metadata") w = (w, Raise (KeyError "metadata")))
      by (unfold lift, subscript; by rewrite Hmd).
    by rewrite (bind_raise _ _ w w _ Hsub).
  - assert (Hsub : lift (subscript d "metadata") w = (w, Return (VRef lm)))
      by (unfold lift, subscript; by rewrite Hmd).
    rewrite (bind_return _ _ w w _ Hsub).
    rewrite (bind_return _ _ w _ _ (copy_eq _ _ _ Hm)).
    set (meta := fresh (dom (heap w))).
    assert (Hpop : pop meta "start-time" (with_object meta (ODict m) w)
                   = (with_object meta (ODict m) w, Raise (KeyError "start-time"))).
    { unfold pop. cbn [heap with_object]. by rewrite lookup_insert_eq, Hst. }
    by rewrite (bind_raise _ _ _ _ _ Hpop).
Qed.

Lemma print_entry_missing_key_witness :
  (@print_entry offline true bare_a bare_world).2 = Raise (KeyError "metadata")
  ∧ (@print_entry offline false bare_b bare_world).2 = Raise (KeyError "start-time").
Proof.
  split.
  - refine (proj1 (print_entry_missing_key offline true bare_a bare_world
                     [("name", VStr "a"); ("size", VInt 1)] "metadata" eq_refl _)).
    left. by split.
  - refine (proj1 (print_entry_missing_key offline false bare_b bare_world
                     [("name", VStr "b"); ("size", VInt 1); ("metadata", VRef 2%nat)]
                     "start-time" eq_refl _)).
    right. exists 2%nat, [("total-size-enc", VInt 5)]. by repeat split.
Defined.

Section HTTPNameless.
Context `{!Runtime}.

Lemma collect_app_raise {A B} (f : A → M pworld B) (pre : list A) (x : A)
    (post : list A) (w : pworld) (e : exn) :
  (∀ a, stable (f a)) →
  ∀ ys, collect f pre w = (w, Return ys) → f x w = (w, Raise e) →
        collect f (pre ++ x :: post) w = (w, Raise e).
Proof.
  intros Hst. induction pre as [|a pre IH]; intros ys Hpre Hx.
  - cbn [app collect]. by rewrite (bind_raise _ _ _ _ _ Hx).
  - cbn [app collect] in *. unfold bind at 1, M_bind in Hpre.
    pose proof (Hst a w) as Hsa.
    destruct (f a w) as [w1 [y|e1]] eqn:Ha; [|discriminate]. cbn in Hsa. subst w1.
    unfold bind at 1, M_bind in Hpre.
    pose proof (stable_collect f pre Hst w) as Hsc.
    destruct (collect f pre w) as [w2 [ys'|e2]] eqn:Hrest; [|discriminate].
    cbn in Hsc. subst w2.
    rewrite (bind_return _ _ _ _ _ Ha).
    by rewrite (bind_raise _ _ _ _ _ (IH ys' eq_refl Hx)).
Qed.

(** A site whose listing has an element without ["name"], after
    well-formed elements. *)
Lemma list_site_basebackups_nameless (self : HTTPRestore) (site : string)
    (fields : list (string * json)) (pre : list json) (f : list (string * json))
    (post : list json) (xs : list (string * json)) (w : pworld) :
  http_get_json (_url self "basebackup" site) = Return (JObject fields) →
  json_get "basebackups" fields = Some (JArray (pre ++ JObject f :: post)) →
  named_elements pre = Some xs →
  json_get "name" f = None →
  (list_site_basebackups self site w).2 = Raise (KeyError "name").
Proof.
  intros Hget Hbb Hpre Hname.
  set (w0 := {| heap := heap w; stdout := stdout w;
                requests := requests w ++ [_url self "basebackup" site] |}).
  destruct (materialize_spec (JObject fields) w0) as (Hrep & _).
  destruct (materialize (JObject fields) w0) as [w1 v] eqn:Hmat. cbn [fst snd] in *.
  inversion Hrep as [| | | | |l vs ? Hl Hvs]; subst.
  destruct (json_get_represented _ _ _ _ _ Hvs Hbb) as (va & Hva & Hra).
  inversion Hra as [| | | |la items ? Hla Hitems|]; subst.
  apply Forall2_app_inv_r in Hitems as (items1 & items2 & Hpre1 & Hrest & ->).
  inversion Hrest as [|vx ? items3 ? Hvx _]; subst.
  inversion Hvx as [| | | | |lx vsx ? Hlx Hvsx]; subst.
  destruct (collect_make_info site w1 pre items1 xs Hpre1 Hpre) as (infos & Hrun & _).
  assert (Hx : make_info site (VRef lx) w1 = (w1, Raise (KeyError "name"))).
  { assert (Hsv : subscript_value (VRef lx) "name" w1 = (w1, Raise (KeyError "name"))).
    { unfold subscript_value.
      rewrite (bind_return _ _ _ _ _ (load_dict_eq _ _ _ Hlx)).
      unfold lift, subscript.
      rewrite dict_get_build_None; [done|].
      apply json_get_None in Hname. apply Forall_fmap. exact Hname. }
    unfold make_info. by rewrite (bind_raise _ _ _ _ _ Hsv). }
  pose proof (collect_app_raise (make_info site) items1 (VRef lx) items3 w1
                (KeyError "name") (stable_make_info site) infos Hrun Hx) as Hall.
  unfold list_site_basebackups, session_get_json, bind, M_bind. rewrite Hget.
  fold w0. rewrite Hmat.
  unfold subscript_value, bind, M_bind, load_dict, lift, subscript. rewrite Hl, Hva.
  unfold iterate. rewrite Hla. by rewrite Hall.
Qed.

End HTTPNameless.

(** X16: an element without a name.  When the sites before [s] answer
    well and the listing of [s] has, after well-formed elements, an object
    without a ["name"] member, [HTTPRestore.list_basebackups] raises
    [KeyError('name')]: the elements before it and the entries of the
    earlier sites are lost, and the sites after [s] are not contacted. *)
Theorem http_list_basebackups_nameless_element (R : Runtime) (self : HTTPRestore)
    (w : pworld) (good : list string) (s : string) (rest : list string)
    (exp : list (string * (string * json))) (fields : list (string * json))
    (pre : list json) (f : list (string * json)) (post : list json)
    (xs : list (string * json)) :
  sites self = good ++ s :: rest →
  expected_listing self good = Some exp →
  http_get_json (_url self "basebackup" s) = Return (JObject fields) →
  json_get "basebackups" fields = Some (JArray (pre ++ JObject f :: post)) →
  named_elements pre = Some xs →
  json_get "name" f = None →
  ∃ w', list_basebackups self w = (w', Raise (KeyError "name"))
        ∧ requests w' = requests w ++ (_url self "basebackup" <$> good ++ [s])
        ∧ stdout w' = stdout w.
Proof.
  intros Hsites Hexp Hget Hbb Hpre Hname.
  destruct (collect_sites_failing self good s rest (KeyError "name")
              (λ w1, list_site_basebackups_nameless self s fields pre f post xs w1
                       Hget Hbb Hpre Hname) w exp Hexp)
    as (w' & Hrun & Hreq & Hout).
  exists w'. split; [|done].
  unfold list_basebackups, bind, M_bind. by rewrite Hsites, Hrun.
Qed.

Lemma http_list_basebackups_nameless_element_witness :
  ∃ w', @list_basebackups (runtime_with nameless_site) alpha_restore empty_world
        = (w', Raise (KeyError "name"))
        ∧ requests w' = ["http://localhost:16000/alpha/basebackup"]
        ∧ stdout w' = [].
Proof.
  refine (http_list_basebackups_nameless_element (runtime_with nameless_site)
            alpha_restore empty_world [] "alpha" [] []
            [("basebackups",
              JArray [JObject [("name", JString "2022-12-10_0"); ("size", JInt 1)];
                      JObject [("size", JInt 2)];
                      JObject [("name", JString "2022-12-12_0"); ("size", JInt 3)]])]
            [JObject [("name", JString "2022-12-10_0"); ("size", JInt 1)]]
            [("size", JInt 2)]
            [JObject [("name", JString "2022-12-12_0"); ("size", JInt 3)]]
            [("2022-12-10_0", JObject [("name", JString "2022-12-10_0"); ("size", JInt 1)])]
            eq_refl eq_refl eq_refl _ _ _); vm_compute; reflexivity.
Defined.
